(** * Lumora sandbox backend: path sandbox, workspace scanner, tool
      dispatcher and chat stream translator.

    Shallow embedding of [backend/main.py] and [backend/tools_router.py].
    The filesystem, the model backend and the HTTP transport are explicit
    values (a [world], a [model_client], a [backend]); every Python
    function becomes a Rocq function over them.  Python exceptions are
    results of an error type; effects of the tool handlers are recorded in
    a trace.  A Python [str] is the [string] of its characters, one
    [ascii] each (the bytes of its UTF-8 form beyond ASCII). *)

From Stdlib Require Import String Ascii List Bool Arith ZArith Lia.
From Stdlib Require Import DecimalString.
From Stdlib Require Import Sorted.
Import ListNotations.
Set Warnings "-register-all,-abstract-large-number".
Local Open Scope list_scope.
Local Open Scope string_scope.

(* ===================================================================== *)
(** ** Python string operations used by the backend *)
(* ===================================================================== *)

Module Py.

(** [pattern in s] on two [str] values: substring test. *)
Fixpoint contains (pattern s : string) : bool :=
  if String.prefix pattern s then true
  else match s with
       | EmptyString => false
       | String _ s' => contains pattern s'
       end.

(** [s.split(sep)] for a one-character separator. *)
Fixpoint split_aux (sep : ascii) (cur : string) (s : string) : list string :=
  match s with
  | EmptyString => [cur]
  | String c s' =>
      if Ascii.eqb c sep then cur :: split_aux sep EmptyString s'
      else split_aux sep (cur ++ String c EmptyString) s'
  end.

Definition split (sep : ascii) (s : string) : list string :=
  split_aux sep EmptyString s.

(** [sep.join(l)]. *)
Definition join (sep : string) (l : list string) : string :=
  String.concat sep l.

(** [x in l] for a list or set of strings. *)
Definition mem (x : string) (l : list string) : bool :=
  existsb (String.eqb x) l.

(** [str(n)] for a non-negative [int]. *)
Definition str_of_nat (n : nat) : string :=
  NilEmpty.string_of_uint (Nat.to_uint n).

(** [s[:n]] on a string. *)
Definition take (n : nat) (s : string) : string := String.substring 0 n s.

(** ASCII whitespace as recognised by [str.strip] and [str.isspace]. *)
Definition is_space (c : ascii) : bool :=
  let n := nat_of_ascii c in
  ((9 <=? n)%nat && (n <=? 13)%nat) || ((28 <=? n)%nat && (n <=? 32)%nat).

Fixpoint lstrip (s : string) : string :=
  match s with
  | String c s' => if is_space c then lstrip s' else s
  | EmptyString => EmptyString
  end.

Fixpoint rstrip (s : string) : string :=
  match s with
  | EmptyString => EmptyString
  | String c s' =>
      match rstrip s' with
      | EmptyString => if is_space c then EmptyString else String c EmptyString
      | r => String c r
      end
  end.

Definition strip (s : string) : string := rstrip (lstrip s).

(** [s.lower()] on ASCII letters. *)
Definition lower_ascii (c : ascii) : ascii :=
  let n := nat_of_ascii c in
  if (65 <=? n)%nat && (n <=? 90)%nat then ascii_of_nat (n + 32) else c.

Fixpoint lower (s : string) : string :=
  match s with
  | EmptyString => EmptyString
  | String c s' => String (lower_ascii c) (lower s')
  end.

(** [s.count(c)] for a character. *)
Fixpoint count_char (c : ascii) (s : string) : nat :=
  match s with
  | EmptyString => 0
  | String c' s' => (if Ascii.eqb c' c then 1 else 0) + count_char c s'
  end.

(** [sorted(l)] on strings: code-point order, stable insertion sort. *)
Fixpoint insert_sorted (x : string) (l : list string) : list string :=
  match l with
  | [] => [x]
  | y :: l' => if String.leb x y then x :: l else y :: insert_sorted x l'
  end.

Definition sorted (l : list string) : list string :=
  fold_right insert_sorted [] l.

End Py.
(* ===================================================================== *)
(** ** The filesystem and [pathlib] *)
(* ===================================================================== *)

Module Posix.

(** A filesystem object with its directory entry name.  A directory
    carries its inode number ([os.stat(..).st_ino]) and whether it can be
    listed; the same inode number at two places of the tree is the same
    physical directory reached by two paths (a bind mount or a directory
    hard link).  A file carries its contents, [None] when it cannot be
    opened. *)
Inductive node : Type :=
| File (name : string) (content : option string)
| Dir (name : string) (st_ino : nat) (listable : bool) (entries : list node)
| Symlink (name : string) (target : string).

Definition node_name (n : node) : string :=
  match n with
  | File nm _ => nm
  | Dir nm _ _ _ => nm
  | Symlink nm _ => nm
  end.

(** What the process sees of its environment: the root directory, the
    current directory (a physical absolute path), the home directories
    known to [os.path.expanduser], and the configured workspace root
    ([WORKSPACE_ROOT], resolved once at start-up). *)
Record world : Type := {
  fs_root : node;
  cwd : list string;
  homedir : string -> option string;
  WORKSPACE_ROOT : list string
}.

(** [pathlib.PurePosixPath]: an anchor flag and the path components. *)
Record Path : Type := {
  is_absolute : bool;
  parts : list string
}.

Definition real_component (c : string) : bool :=
  negb (String.eqb c "") && negb (String.eqb c ".").

(** [Path(s)]: empty and [.] components vanish, [..] is kept. *)
Definition Path_of (s : string) : Path :=
  {| is_absolute := String.prefix "/" s;
     parts := filter real_component (Py.split "/" s) |}.

(** [str(p)]. *)
Definition str (p : Path) : string :=
  if is_absolute p then "/" ++ Py.join "/" (parts p)
  else match parts p with
       | [] => "."
       | ps => Py.join "/" ps
       end.

Definition abs_path (ps : list string) : Path :=
  {| is_absolute := true; parts := ps |}.

(** [p.expanduser()]: only a relative path whose first component starts
    with [~] is rewritten; [None] is the [RuntimeError] raised when the
    home directory cannot be determined. *)
Definition expanduser (w : world) (p : Path) : option Path :=
  match is_absolute p, parts p with
  | false, first :: rest =>
      if String.prefix "~" first then
        match homedir w first with
        | Some h =>
            let hp := Path_of h in
            Some {| is_absolute := is_absolute hp; parts := parts hp ++ rest |}
        | None => None
        end
      else Some p
  | _, _ => Some p
  end.

Fixpoint find_entry (nm : string) (es : list node) : option node :=
  match es with
  | [] => None
  | e :: es' => if String.eqb (node_name e) nm then Some e else find_entry nm es'
  end.

(** The object at a physical path: the entries are looked up one below
    the other and no symlink is followed.  It is [os.lstat] for a path
    with no symlink before its last component. *)
Fixpoint lstat (n : node) (p : list string) : option node :=
  match p with
  | [] => Some n
  | c :: p' =>
      match n with
      | Dir _ _ _ es =>
          match find_entry c es with
          | Some ch => lstat ch p'
          | None => None
          end
      | _ => None
      end
  end.

Definition path_eqb (p q : list string) : bool :=
  if list_eq_dec string_dec p q then true else false.

(** Why a path lookup of the kernel fails: [ENOENT], [ENOTDIR],
    [ELOOP]. *)
Inductive lookup_error : Type :=
| NoEntry
| NotDir
| Loop.

(** Where a path lookup of the kernel ends: at the object of a physical
    path; at a last component that its directory [parent] does not hold;
    or in an error. *)
Inductive lookup : Type :=
| Found (phys : list string)
| Missing (parent : list string) (name : string)
| Fails (e : lookup_error).

(** The symlinks that one lookup may follow. *)
Definition MAXSYMLINKS : nat := 40.

(** The path lookup of the kernel, from the directory at the physical
    path [cur]: every component is looked up in the directory reached so
    far, [..] is the physical parent, a symlink is followed wherever it
    stands, its target read from the directory that holds it; [links]
    is the number of symlinks that may still be followed. *)
Fixpoint namei (links : nat) (root : node) (cur rest : list string)
    {struct links} : lookup :=
  (fix go (cur rest : list string) {struct rest} : lookup :=
     match rest with
     | [] => Found cur
     | name :: rest' =>
         match lstat root cur with
         | Some (Dir _ _ _ es) =>
             if negb (real_component name) then go cur rest'
             else if String.eqb name ".." then go (removelast cur) rest'
             else
               match find_entry name es with
               | Some (Symlink _ target) =>
                   match links with
                   | O => Fails Loop
                   | S links' =>
                       namei links' root
                         (if String.prefix "/" target then [] else cur)
                         (Py.split "/" target ++ rest')
                   end
               | Some _ => go (cur ++ [name])%list rest'
               | None =>
                   match rest' with
                   | [] => Missing cur name
                   | _ :: _ => Fails NoEntry
                   end
               end
         | Some _ => Fails NotDir
         | None => Fails NoEntry
         end
     end) cur rest.

(** The [seen] dictionary of [posixpath._joinrealpath]: the symlinks met,
    each with its resolution, [None] while that is in progress. *)
Definition seen_map : Type := list (list string * option (list string)).

Fixpoint seen_get (key : list string) (seen : seen_map)
    : option (option (list string)) :=
  match seen with
  | [] => None
  | (k, v) :: seen' => if path_eqb k key then Some v else seen_get key seen'
  end.

(** [os.path.join(path, rest)] for the rest of a path text behind one of
    its separators: a rest that begins with a separator, that is with an
    empty component before another one, is absolute and replaces
    [path]. *)
Definition join_rest (path rest : list string) : list string :=
  match rest with
  | EmptyString :: _ :: _ => rest
  | _ => (path ++ rest)%list
  end.

(** [posixpath._joinrealpath] of CPython 3.11 in its non-strict mode, on
    absolute paths: components are consumed left to right over an already
    resolved prefix [path]; [..] drops the last resolved component; a
    component that is missing is kept; a symlink is replaced by the
    resolution of its target, relative to the prefix.  A symlink met
    while its own resolution is in progress is a loop: the resolution
    then stops, and what was not resolved is returned as it stands,
    joined to the link, with the flag [false].  [depth] bounds the
    nesting of link expansions; links in progress are pairwise distinct,
    so the number of symlinks of the filesystem plus one is never
    exceeded. *)
Fixpoint joinrealpath (depth : nat) (root : node) (path rest : list string)
    (seen : seen_map) {struct depth}
    : option (list string * bool * seen_map) :=
  match depth with
  | O => None
  | S depth' =>
      (fix go (path rest : list string) (seen : seen_map) {struct rest}
         : option (list string * bool * seen_map) :=
         match rest with
         | [] => Some (path, true, seen)
         | name :: rest' =>
             if negb (real_component name) then go path rest' seen
             else if String.eqb name ".." then go (removelast path) rest' seen
             else
               let newpath := (path ++ [name])%list in
               match lstat root newpath with
               | Some (Symlink _ target) =>
                   match seen_get newpath seen with
                   | Some (Some cached) => go cached rest' seen
                   | Some None => Some (join_rest newpath rest', false, seen)
                   | None =>
                       match joinrealpath depth' root
                               (if String.prefix "/" target then [] else path)
                               (Py.split "/" target)
                               ((newpath, None) :: seen) with
                       | Some (p, true, seen') =>
                           go p rest' ((newpath, Some p) :: seen')
                       | Some (p, false, seen') =>
                           Some (join_rest p rest', false, seen')
                       | None => None
                       end
                   end
               | _ => go newpath rest' seen
               end
         end) path rest seen
  end.

Fixpoint count_symlinks (n : node) : nat :=
  match n with
  | File _ _ => 0
  | Symlink _ _ => 1
  | Dir _ _ _ es =>
      (fix sum (l : list node) : nat :=
         match l with
         | [] => 0
         | e :: l' => count_symlinks e + sum l'
         end) es
  end.

Definition link_depth (w : world) : nat := S (count_symlinks (fs_root w)).

(** [posixpath.normpath] of an absolute path: empty and [.] components
    vanish, [..] takes the component before it away, and nothing at the
    root. *)
Definition normpath (p : list string) : list string :=
  fold_left
    (fun new_comps comp =>
       if negb (real_component comp) then new_comps
       else if String.eqb comp ".." then removelast new_comps
       else (new_comps ++ [comp])%list)
    p [].

(** [os.path.realpath(p)]: the path and whether it was resolved in
    full. *)
Definition realpath (w : world) (p : Path) : option (list string * bool) :=
  match joinrealpath (link_depth w) (fs_root w)
          (if is_absolute p then [] else cwd w) (parts p) [] with
  | Some (path, ok, _) => Some (normpath path, ok)
  | None => None
  end.

(** Whether [os.path.realpath] met no symlink loop on the way. *)
Definition resolved_in_full (w : world) (p : Path) : bool :=
  match realpath w p with
  | Some (_, ok) => ok
  | None => false
  end.

(** [p.resolve()] of CPython 3.11: the real path, where missing
    components are kept; [os.stat] is then tried on it, and the
    [RuntimeError] for a symlink loop ([None]) is raised when that fails
    with [ELOOP]. *)
Definition resolve (w : world) (p : Path) : option (list string) :=
  match realpath w p with
  | Some (s, _) =>
      match namei MAXSYMLINKS (fs_root w) [] s with
      | Fails Loop => None
      | _ => Some s
      end
  | None => None
  end.

(** [os.stat] from the directory at [start], following symlinks: the
    physical path and the object, [None] when the lookup fails. *)
Definition stat_at (w : world) (start rest : list string)
    : option (list string * node) :=
  match namei MAXSYMLINKS (fs_root w) start rest with
  | Found phys =>
      match lstat (fs_root w) phys with
      | Some n => Some (phys, n)
      | None => None
      end
  | _ => None
  end.

Definition stat (w : world) (p : Path) : option (list string * node) :=
  stat_at w (if is_absolute p then [] else cwd w) (parts p).

(** [p.exists()]. *)
Definition exists_ (w : world) (p : Path) : bool :=
  match stat w p with Some _ => true | None => false end.

(** [p.relative_to(other)] succeeds exactly when [other]'s components are
    an initial segment of [p]'s (both absolute here). *)
Fixpoint is_relative_to (p other : list string) : bool :=
  match other, p with
  | [], _ => true
  | o :: other', c :: p' => String.eqb c o && is_relative_to p' other'
  | _ :: _, [] => false
  end.

Definition not_a_link (o : option node) : Prop :=
  match o with
  | Some (Symlink _ _) => False
  | _ => True
  end.

(** No component of the path is a symlink. *)
Definition physical (root : node) (p : list string) : Prop :=
  forall k, (0 < k <= length p)%nat -> not_a_link (lstat root (firstn k p)).

(** A component that names an entry: not empty, not [.], not [..]. *)
Definition plain (c : string) : bool :=
  real_component c && negb (String.eqb c "..").

Definition is_file (e : node) : bool :=
  match e with
  | File _ _ => true
  | _ => false
  end.

(** The resolutions that [seen] holds are paths without a symlink, [.]
    or [..]. *)
Definition seen_resolved (root : node) (seen : seen_map) : Prop :=
  Forall (fun kv => match snd kv with
                    | Some p => physical root p /\ forallb plain p = true
                    | None => True
                    end) seen.

End Posix.

(** Structural induction over a filesystem tree. *)
Section node_induction.
Import Posix.

Variable P : node -> Prop.
Hypothesis P_File : forall nm content, P (File nm content).
Hypothesis P_Symlink : forall nm target, P (Symlink nm target).
Hypothesis P_Dir :
  forall nm ino listable es, Forall P es -> P (Dir nm ino listable es).

Fixpoint node_induction (n : node) : P n :=
  match n with
  | File nm content => P_File nm content
  | Symlink nm target => P_Symlink nm target
  | Dir nm ino listable es =>
      P_Dir nm ino listable es
        ((fix all (l : list node) : Forall P l :=
            match l with
            | [] => Forall_nil P
            | e :: l' => Forall_cons e (node_induction e) (all l')
            end) es)
  end.

End node_induction.

(* ===================================================================== *)
(** ** Errors *)
(* ===================================================================== *)

(** The outcome of a request handler or helper: a value, a
    [fastapi.HTTPException], or another Python exception. *)
Inductive result (A : Type) : Type :=
| Ok (a : A)
| HTTPException (status_code : nat) (detail : string)
| Raises (exc : string).

Arguments Ok {A} a.
Arguments HTTPException {A} status_code detail.
Arguments Raises {A} exc.

(* ===================================================================== *)
(** ** [main.validate_safe_path] *)
(* ===================================================================== *)

Module Sandbox.
Import Posix.

Definition sensitive_patterns : list string :=
  ["/etc/"; "/sys/"; "/proc/"; "/.ssh/"; "/root/"].

(** [Path(s).expanduser().resolve()]. *)
Definition canonical (w : world) (s : string) : option (list string) :=
  match expanduser w (Path_of s) with
  | Some p => resolve w p
  | None => None
  end.

(** [allowed]: the resolved [allowed_base] when given (and non-empty),
    the configured workspace root otherwise. *)
Definition allowed_root (w : world) (allowed_base : option string)
    : option (list string) :=
  match allowed_base with
  | Some b => if String.eqb b "" then Some (WORKSPACE_ROOT w) else canonical w b
  | None => Some (WORKSPACE_ROOT w)
  end.

(** The resolution of the requested path met no symlink loop. *)
Definition loop_free (w : world) (s : string) : bool :=
  match expanduser w (Path_of s) with
  | Some p => resolved_in_full w p
  | None => false
  end.

Definition validate_safe_path (w : world) (requested_path : string)
    (allowed_base : option string) : result Path :=
  match canonical w requested_path with
  | None => Raises "RuntimeError"
  | Some resolved =>
      match allowed_root w allowed_base with
      | None => Raises "RuntimeError"
      | Some allowed =>
          if negb (is_relative_to resolved allowed) then
            HTTPException 403
              ("Path outside allowed workspace root: " ++ str (abs_path allowed))%string
          else
            let path_str := str (abs_path resolved) in
            if existsb (fun pattern => Py.contains pattern path_str)
                 sensitive_patterns
            then HTTPException 403 "Access to system directories denied"
            else Ok (abs_path resolved)
      end
  end.

End Sandbox.

(* ===================================================================== *)
(** ** [os.walk] *)
(* ===================================================================== *)

Module Walk.
Import Posix.

(** [entry.is_dir()] of [os.scandir], which follows symlinks: a directory,
    or a symlink whose target is one. *)
Definition entry_is_dir (w : world) (phys : list string) (e : node) : bool :=
  match e with
  | Dir _ _ _ _ => true
  | File _ _ => false
  | Symlink nm _ =>
      match stat_at w [] (phys ++ [nm]) with
      | Some (_, Dir _ _ _ _) => true
      | _ => false
      end
  end.

(** The [dirs] and [files] name lists that [os.walk] yields for a
    directory with entries [es]. *)
Definition dir_names (w : world) (phys : list string) (es : list node)
    : list string :=
  map node_name (filter (entry_is_dir w phys) es).

Definition file_names (w : world) (phys : list string) (es : list node)
    : list string :=
  map node_name (filter (fun e => negb (entry_is_dir w phys e)) es).

(** One step of a [for root, dirs, files in os.walk(..)] loop: the loop
    body either ends the iteration, leaving in [dirs] the names the walk
    goes on with, or breaks out of the loop. *)
Inductive step (S : Type) : Type :=
| Next (s : S) (dirs : list string)
| Break (s : S).

Arguments Next {S} s dirs.
Arguments Break {S} s.


(** The loop variables after the step. *)
Definition step_state {S : Type} (st : step S) : S :=
  match st with
  | Next s _ => s
  | Break s => s
  end.

Section os_walk.
Context {S : Type}.
Variable w : world.

(** The loop body, given the physical path of the directory, its path
    relative to the top, its inode number, and the two name lists. *)
Variable body :
  S -> list string -> list string -> nat -> list string -> list string -> step S.

(** [os.walk(top, followlinks=False)] driving the loop body, top-down.
    A directory that cannot be listed yields nothing; a symlink to a
    directory is named in [dirs] but never entered; after a [break]
    (second component [true]) nothing more is visited. *)
Fixpoint os_walk (phys rel : list string) (n : node) (acc : S * bool)
    {struct n} : S * bool :=
  match n with
  | Dir _ ino true es =>
      if snd acc then acc
      else
        match body (fst acc) phys rel ino (dir_names w phys es)
                (file_names w phys es) with
        | Break s' => (s', true)
        | Next s' dirs' =>
            (fix descend (l : list node) (acc : S * bool) {struct l}
               : S * bool :=
               match l with
               | [] => acc
               | e :: l' =>
                   descend l'
                     (match e with
                      | Dir nm _ _ _ =>
                          if Py.mem nm dirs'
                          then os_walk (phys ++ [nm])%list (rel ++ [nm])%list e acc
                          else acc
                      | _ => acc
                      end)
               end) es (s', false)
        end
  | _ => acc
  end.

(** The whole loop over [os.walk(Path(top))]. *)
Definition for_os_walk (top : string) (s : S) : S :=
  match stat w (Path_of top) with
  | Some (phys, n) => fst (os_walk phys [] n (s, false))
  | None => s
  end.
End os_walk.

End Walk.

(* ===================================================================== *)
(** ** [tools_router.scan_workspace_structure] *)
(* ===================================================================== *)

Module Scanner.
Import Posix Walk.

Definition ignore_dirs : list string :=
  [".git"; "node_modules"; "__pycache__"; "venv"; ".venv"; "dist"; "build";
   ".next"].

Definition MAX_FILES : nat := 10000.
Definition MAX_DIRS : nat := 1000.

(** The [structure] dictionary. *)
Record structure : Type := {
  directories : list string;
  files : list string;
  total_files : nat;
  total_dirs : nat;
  truncated : bool
}.

Definition empty_structure : structure :=
  {| directories := []; files := []; total_files := 0; total_dirs := 0;
     truncated := false |}.

(** What a loop iteration did with the directory it was given. *)
Inductive action : Type :=
| Stopped        (* a ceiling was reached: [truncated], [break] *)
| SkippedSeen    (* inode already in [seen_inodes]: [continue] *)
| DepthPruned    (* [depth >= max_depth]: [dirs.clear()], [continue] *)
| Listed.        (* recorded, files added *)

Record visit : Type := {
  v_rel : list string;
  v_ino : nat;
  v_action : action
}.

(** The variables of the loop: the dictionary, [seen_inodes], and a log of
    the directories the walk handed to the loop body (the log is not part
    of the returned value). *)
Record scan_state : Type := {
  st_structure : structure;
  seen_inodes : list nat;
  visited : list visit
}.

Definition log (v : visit) (st : scan_state) (s : structure)
    (seen : list nat) : scan_state :=
  {| st_structure := s; seen_inodes := seen; visited := visited st ++ [v] |}.

(** [str(Path(root).relative_to(workspace))]. *)
Definition rel_root_of (rel : list string) : string :=
  str {| is_absolute := false; parts := rel |}.

Definition add_directory (rel_root : string) (s : structure) : structure :=
  if negb (String.eqb rel_root ".") then
    if (total_dirs s <? MAX_DIRS)%nat then
      {| directories := directories s ++ [rel_root];
         files := files s;
         total_files := total_files s;
         total_dirs := total_dirs s + 1;
         truncated := truncated s |}
    else s
  else s.

Definition add_file (rel_root : string) (s : structure) (file : string)
    : structure :=
  if (total_files s <? MAX_FILES)%nat then
    let file_path :=
      if negb (String.eqb rel_root ".") then (rel_root ++ "/" ++ file)%string
      else file in
    {| directories := directories s;
       files := files s ++ [file_path];
       total_files := total_files s + 1;
       total_dirs := total_dirs s;
       truncated := truncated s |}
  else s.

Definition set_truncated (s : structure) : structure :=
  {| directories := directories s; files := files s;
     total_files := total_files s; total_dirs := total_dirs s;
     truncated := true |}.

(** The body of the [for] loop of [scan_workspace_structure]. *)
Definition scan_body (max_depth : Z) (st : scan_state)
    (phys rel : list string) (inode : nat) (dirs files_ : list string)
    : step scan_state :=
  let s := st_structure st in
  let v a := {| v_rel := rel; v_ino := inode; v_action := a |} in
  if (MAX_FILES <=? total_files s)%nat || (MAX_DIRS <=? total_dirs s)%nat then
    Break (log (v Stopped) st (set_truncated s) (seen_inodes st))
  else if existsb (Nat.eqb inode) (seen_inodes st) then
    Next (log (v SkippedSeen) st s (seen_inodes st)) dirs
  else
    let seen := inode :: seen_inodes st in
    let dirs' := filter (fun d => negb (Py.mem d ignore_dirs)) dirs in
    let depth := Z.of_nat (length rel) in
    if (max_depth <=? depth)%Z then
      Next (log (v DepthPruned) st s seen) []
    else
      let rel_root := rel_root_of rel in
      let s1 := add_directory rel_root s in
      let s2 := fold_left (add_file rel_root) files_ s1 in
      Next (log (v Listed) st s2 seen) dirs'.

(** The counters agree with the lists and respect the ceilings, and the
    flag is raised only at a ceiling. *)
Definition bounded (s : structure) : Prop :=
  length (files s) = total_files s /\
  (total_files s <= MAX_FILES)%nat /\
  length (directories s) = total_dirs s /\
  (total_dirs s <= MAX_DIRS)%nat /\
  (truncated s = true ->
   total_files s = MAX_FILES \/ total_dirs s = MAX_DIRS).

Definition is_listed (v : visit) : bool :=
  match v_action v with
  | Listed => true
  | _ => false
  end.

(** The inode numbers of the directories the scan recorded. *)
Definition listed_inodes (st : scan_state) : list nat :=
  map v_ino (filter is_listed (visited st)).

(** The inode numbers met so far are pairwise distinct, and a recorded
    directory has its inode number among them. *)
Definition once (st : scan_state) : Prop :=
  NoDup (seen_inodes st) /\
  incl (listed_inodes st) (seen_inodes st) /\
  NoDup (listed_inodes st).


Definition initial_state : scan_state :=
  {| st_structure := empty_structure; seen_inodes := []; visited := [] |}.

(** The scan with its log. *)
Definition scan_run (w : world) (workspace_path : string) (max_depth : Z)
    : scan_state :=
  if negb (exists_ w (Path_of workspace_path)) then initial_state
  else for_os_walk w (scan_body max_depth) workspace_path initial_state.

Definition scan_workspace_structure (w : world) (workspace_path : string)
    (max_depth : Z) : structure :=
  st_structure (scan_run w workspace_path max_depth).

End Scanner.

(* ===================================================================== *)
(** ** [json.loads] *)
(* ===================================================================== *)

Module Json.

(** A decoded JSON document.  A number keeps its lexeme; an object keeps
    its members in source order (a later duplicate key wins in [get]). *)
Inductive value : Type :=
| Null
| Bool (b : bool)
| Number (lexeme : string)
| Str (s : string)
| Array (items : list value)
| Object (members : list (string * value)).

Definition is_ws (c : ascii) : bool :=
  match nat_of_ascii c with
  | 32 | 9 | 10 | 13 => true
  | _ => false
  end.

Fixpoint skip_ws (s : string) : string :=
  match s with
  | String c s' => if is_ws c then skip_ws s' else s
  | EmptyString => EmptyString
  end.

Definition is_digit (c : ascii) : bool :=
  let n := nat_of_ascii c in (48 <=? n)%nat && (n <=? 57)%nat.

Definition hex_value (c : ascii) : option nat :=
  let n := nat_of_ascii c in
  if (48 <=? n)%nat && (n <=? 57)%nat then Some (n - 48)
  else if (97 <=? n)%nat && (n <=? 102)%nat then Some (n - 87)
  else if (65 <=? n)%nat && (n <=? 70)%nat then Some (n - 55)
  else None.

(** Four hexadecimal digits of a [\u] escape. *)
Definition hex4 (s : string) : option (nat * string) :=
  match s with
  | String a (String b (String c (String d rest))) =>
      match hex_value a, hex_value b, hex_value c, hex_value d with
      | Some x, Some y, Some z, Some t =>
          Some (((x * 16 + y) * 16 + z) * 16 + t, rest)
      | _, _, _, _ => None
      end
  | _ => None
  end.

Definition byte (n : nat) : string := String (ascii_of_nat n) EmptyString.

(** The UTF-8 bytes of a code point. *)
Definition utf8 (cp : nat) : string :=
  if (cp <? 128)%nat then byte cp
  else if (cp <? 2048)%nat then byte (192 + cp / 64) ++ byte (128 + cp mod 64)
  else if (cp <? 65536)%nat then
    byte (224 + cp / 4096) ++ byte (128 + (cp / 64) mod 64)
    ++ byte (128 + cp mod 64)
  else
    byte (240 + cp / 262144) ++ byte (128 + (cp / 4096) mod 64)
    ++ byte (128 + (cp / 64) mod 64) ++ byte (128 + cp mod 64).

(** The characters of a string literal after its opening quote, up to the
    closing quote; control characters and unknown escapes are rejected. *)
Fixpoint scan_string (fuel : nat) (s : string) (acc : string)
    : option (string * string) :=
  match fuel with
  | O => None
  | S fuel' =>
      match s with
      | EmptyString => None
      | String c rest =>
          match nat_of_ascii c with
          | 34 => Some (acc, rest)
          | 92 =>
              match rest with
              | String e rest' =>
                  let lit (n : nat) := scan_string fuel' rest' (acc ++ byte n) in
                  match nat_of_ascii e with
                  | 34 => lit 34
                  | 92 => lit 92
                  | 47 => lit 47
                  | 98 => lit 8
                  | 102 => lit 12
                  | 110 => lit 10
                  | 114 => lit 13
                  | 116 => lit 9
                  | 117 =>
                      match hex4 rest' with
                      | Some (hi, after) =>
                          let single := scan_string fuel' after (acc ++ utf8 hi) in
                          if (55296 <=? hi)%nat && (hi <=? 56319)%nat then
                            match after with
                            | String b (String u after') =>
                                if Ascii.eqb b "\"%char && Ascii.eqb u "u"%char then
                                  match hex4 after' with
                                  | Some (lo, after'') =>
                                      if (56320 <=? lo)%nat && (lo <=? 57343)%nat
                                      then scan_string fuel' after''
                                             (acc ++ utf8 (65536 + (hi - 55296) * 1024
                                                           + (lo - 56320)))
                                      else single
                                  | None => single
                                  end
                                else single
                            | _ => single
                            end
                          else single
                      | None => None
                      end
                  | _ => None
                  end
              | EmptyString => None
              end
          | n => if (n <? 32)%nat then None
                 else scan_string fuel' rest (acc ++ String c EmptyString)
          end
      end
  end.

Fixpoint span_digits (s : string) : string * string :=
  match s with
  | String c s' =>
      if is_digit c then
        let (d, r) := span_digits s' in (String c d, r)
      else (EmptyString, s)
  | EmptyString => (EmptyString, EmptyString)
  end.

(** A JSON number: optional minus, an integer part without leading
    zeros, an optional fraction, an optional exponent; longest match. *)
Definition scan_number (s : string) : option (string * string) :=
  let (sign, s1) :=
    match s with
    | String "-" r => ("-", r)
    | _ => ("", s)
    end in
  let int_part :=
    match s1 with
    | String "0" r => Some ("0", r)
    | _ => match span_digits s1 with
           | (EmptyString, _) => None
           | (d, r) => Some (d, r)
           end
    end in
  match int_part with
  | None => None
  | Some (i, s2) =>
      let (frac, s3) :=
        match s2 with
        | String "." r =>
            match span_digits r with
            | (EmptyString, _) => ("", s2)
            | (d, r') => (("." ++ d)%string, r')
            end
        | _ => ("", s2)
        end in
      let (ex, s4) :=
        match s3 with
        | String e r =>
            if Ascii.eqb e "e"%char || Ascii.eqb e "E"%char then
              let (sg, r1) :=
                match r with
                | String "+" r' => ("+", r')
                | String "-" r' => ("-", r')
                | _ => ("", r)
                end in
              match span_digits r1 with
              | (EmptyString, _) => ("", s3)
              | (d, r') => (String e (sg ++ d)%string, r')
              end
            else ("", s3)
        | EmptyString => ("", s3)
        end in
      Some ((sign ++ i ++ frac ++ ex)%string, s4)
  end.

Definition strip_prefix (p s : string) : option string :=
  if String.prefix p s
  then Some (String.substring (String.length p) (String.length s - String.length p) s)
  else None.

(** The scanner of [json.decoder]: one value at the head of [s], and the
    rest of the input. *)
Fixpoint scan_value (fuel : nat) (s : string) : option (value * string) :=
  match fuel with
  | O => None
  | S fuel' =>
      match s with
      | EmptyString => None
      | String c rest =>
          match nat_of_ascii c with
          | 34 =>
              match scan_string (String.length rest + 1) rest "" with
              | Some (str, r) => Some (Str str, r)
              | None => None
              end
          | 123 =>
              match skip_ws rest with
              | String "}" r => Some (Object [], r)
              | r => match scan_members fuel' r [] with
                     | Some (ms, r') => Some (Object ms, r')
                     | None => None
                     end
              end
          | 91 =>
              match skip_ws rest with
              | String "]" r => Some (Array [], r)
              | r => match scan_items fuel' r [] with
                     | Some (vs, r') => Some (Array vs, r')
                     | None => None
                     end
              end
          | _ =>
              match strip_prefix "null" s, strip_prefix "true" s,
                    strip_prefix "false" s, strip_prefix "NaN" s,
                    strip_prefix "Infinity" s, strip_prefix "-Infinity" s with
              | Some r, _, _, _, _, _ => Some (Null, r)
              | _, Some r, _, _, _, _ => Some (Bool true, r)
              | _, _, Some r, _, _, _ => Some (Bool false, r)
              | _, _, _, Some r, _, _ => Some (Number "NaN", r)
              | _, _, _, _, Some r, _ => Some (Number "Infinity", r)
              | _, _, _, _, _, Some r => Some (Number "-Infinity", r)
              | _, _, _, _, _, _ =>
                  match scan_number s with
                  | Some (lx, r) => Some (Number lx, r)
                  | None => None
                  end
              end
          end
      end
  end

with scan_items (fuel : nat) (s : string) (acc : list value)
    : option (list value * string) :=
  match fuel with
  | O => None
  | S fuel' =>
      match scan_value fuel' s with
      | Some (v, r) =>
          match skip_ws r with
          | String "]" r' => Some ((acc ++ [v])%list, r')
          | String "," r' => scan_items fuel' (skip_ws r') (acc ++ [v])%list
          | _ => None
          end
      | None => None
      end
  end

with scan_members (fuel : nat) (s : string) (acc : list (string * value))
    : option (list (string * value) * string) :=
  match fuel with
  | O => None
  | S fuel' =>
      match s with
      | String q rest =>
          if Ascii.eqb q (ascii_of_nat 34) then
            match scan_string (String.length rest + 1) rest "" with
            | Some (key, r) =>
                match skip_ws r with
                | String ":" r1 =>
                    match scan_value fuel' (skip_ws r1) with
                    | Some (v, r2) =>
                        match skip_ws r2 with
                        | String "}" r3 => Some ((acc ++ [(key, v)])%list, r3)
                        | String "," r3 =>
                            scan_members fuel' (skip_ws r3) (acc ++ [(key, v)])%list
                        | _ => None
                        end
                    | None => None
                    end
                | _ => None
                end
            | None => None
            end
          else None
      | EmptyString => None
      end
  end.

(** [json.loads(s)]: [None] is [json.JSONDecodeError].  Every call of the
    scanner consumes a character within two steps, so twice the length of
    the input bounds the recursion. *)
Definition loads (s : string) : option value :=
  match scan_value (2 * String.length s + 2) (skip_ws s) with
  | Some (v, r) =>
      match skip_ws r with
      | EmptyString => Some v
      | _ => None
      end
  | None => None
  end.

(** [d.get(key, default)] on a decoded object. *)
Fixpoint get (key : string) (members : list (string * value)) (default : value)
    : value :=
  match members with
  | [] => default
  | (k, v) :: ms => get key ms (if String.eqb k key then v else default)
  end.

(** [key in d] on a decoded object. *)
Definition has_key (key : string) (members : list (string * value)) : bool :=
  existsb (fun kv => String.eqb (fst kv) key) members.

Fixpoint no_nonzero_digit (s : string) : bool :=
  match s with
  | EmptyString => true
  | String c s' =>
      if Ascii.eqb c "e"%char || Ascii.eqb c "E"%char then true
      else if (49 <=? nat_of_ascii c)%nat && (nat_of_ascii c <=? 57)%nat then false
      else no_nonzero_digit s'
  end.

(** A number lexeme denoting zero: digits only zeros before the exponent
    (the float underflow of a huge negative exponent is not modelled). *)
Definition number_is_zero (lexeme : string) : bool :=
  match lexeme with
  | String "N" _ | String "I" _ | String "-" (String "I" _) => false
  | _ => no_nonzero_digit lexeme
  end.

(** Python truth value of a decoded document ([if content:]). *)
Definition truthy (v : value) : bool :=
  match v with
  | Null => false
  | Bool b => b
  | Number lx => negb (number_is_zero lx)
  | Str s => negb (String.eqb s "")
  | Array vs => match vs with [] => false | _ => true end
  | Object ms => match ms with [] => false | _ => true end
  end.

(** Writes a JSON text with [']  in place of the double quote. *)
Fixpoint q (s : string) : string :=
  match s with
  | EmptyString => EmptyString
  | String c s' =>
      String (if Ascii.eqb c "'"%char then ascii_of_nat 34 else c) (q s')
  end.

End Json.

(* ===================================================================== *)
(** ** [main.chat_stream]: the stream translator *)
(* ===================================================================== *)

Module Stream.

(** An exception as the two [except] clauses of [generate] tell them
    apart: an [httpx.RequestError] (connection, timeout, protocol), or any
    other exception; both with their [str(e)]. *)
Inductive exn : Type :=
| RequestError (msg : string)
| OtherError (msg : string).

(** What the backend does with the request: the connection fails, or a
    response arrives with a status and a sequence of lines
    ([response.aiter_lines()]), which ends normally or by an exception.
    [status_text] is the message of the [httpx.HTTPStatusError] that
    [raise_for_status] raises for this response. *)
Inductive backend : Type :=
| Unreachable (e : exn)
| Response (status_code : nat) (status_text : string)
    (lines : list string) (failure : option exn).

(** The dictionary handed to [json.dumps] in each [yield]; the event is
    sent as the line [data: ...] followed by an empty line. *)
Inductive StreamEvent : Type :=
| Content (content : Json.value)   (* {'content': content} *)
| Done                             (* {'done': True} *)
| Error (error_msg : string).      (* {'error': error_msg} *)

Definition type_error (msg : string) : exn := OtherError msg.
Definition attribute_error (msg : string) : exn := OtherError msg.

(** ["message" in chunk]; a decoded scalar is not iterable. *)
Definition message_in (chunk : Json.value) : exn + bool :=
  match chunk with
  | Json.Object ms => inr (Json.has_key "message" ms)
  | Json.Array vs =>
      inr (existsb (fun v => match v with
                             | Json.Str s => String.eqb s "message"
                             | _ => false
                             end) vs)
  | Json.Str s => inr (Py.contains "message" s)
  | _ => inl (type_error "argument is not iterable")
  end.

(** [chunk["message"].get("content", "")], reached when
    ["message" in chunk] holds. *)
Definition message_content (chunk : Json.value) : exn + Json.value :=
  match chunk with
  | Json.Object ms =>
      match Json.get "message" ms Json.Null with
      | Json.Object inner => inr (Json.get "content" inner (Json.Str ""))
      | _ => inl (attribute_error "object has no attribute 'get'")
      end
  | _ => inl (type_error "indices must be integers")
  end.

(** [chunk.get("done", False)]. *)
Definition chunk_done (chunk : Json.value) : exn + Json.value :=
  match chunk with
  | Json.Object ms => inr (Json.get "done" ms (Json.Bool false))
  | _ => inl (attribute_error "object has no attribute 'get'")
  end.

(** The statements under [chunk = json.loads(line)]: the events yielded,
    and the exception that ended them if any. *)
Definition on_chunk (chunk : Json.value) : list StreamEvent * option exn :=
  match message_in chunk with
  | inl e => ([], Some e)
  | inr has_message =>
      let content_part :=
        if has_message then
          match message_content chunk with
          | inl e => inl e
          | inr content =>
              inr (if Json.truthy content then [Content content] else [])
          end
        else inr [] in
      match content_part with
      | inl e => ([], Some e)
      | inr evs =>
          match chunk_done chunk with
          | inl e => (evs, Some e)
          | inr d => (if Json.truthy d then (evs ++ [Done])%list else evs, None)
          end
      end
  end.

(** The [async for] loop: blank lines and lines that do not decode are
    skipped; the loop runs until the lines are exhausted or an exception
    escapes. *)
Fixpoint on_lines (lines : list string) (failure : option exn)
    : list StreamEvent * option exn :=
  match lines with
  | [] => ([], failure)
  | line :: rest =>
      if String.eqb (Py.strip line) "" then on_lines rest failure
      else
        match Json.loads line with
        | None => on_lines rest failure
        | Some chunk =>
            match on_chunk chunk with
            | (evs, Some e) => (evs, Some e)
            | (evs, None) =>
                let (evs', r) := on_lines rest failure in ((evs ++ evs')%list, r)
            end
        end
  end.

(** The two [except] clauses. *)
Definition on_exception (e : exn) : StreamEvent :=
  match e with
  | RequestError msg => Error ("Cannot connect to Ollama: " ++ msg)
  | OtherError msg => Error ("Error: " ++ msg)
  end.

(** [response.raise_for_status()]: success is a 2xx status. *)
Definition is_success (status_code : nat) : bool :=
  (200 <=? status_code)%nat && (status_code <=? 299)%nat.

(** The events [generate()] yields, in order. *)
Definition generate (b : backend) : list StreamEvent :=
  match b with
  | Unreachable e => [on_exception e]
  | Response status_code status_text lines failure =>
      if negb (is_success status_code) then
        [on_exception (OtherError status_text)]
      else
        match on_lines lines failure with
        | (evs, Some e) => (evs ++ [on_exception e])%list
        | (evs, None) => evs
        end
  end.

Definition is_terminal (ev : StreamEvent) : bool :=
  match ev with
  | Content _ => false
  | Done | Error _ => true
  end.

Definition is_error (ev : StreamEvent) : bool :=
  match ev with
  | Error _ => true
  | _ => false
  end.

(** No error event among [evs]. *)
Definition no_error (evs : list StreamEvent) : Prop :=
  forallb (fun ev => negb (is_error ev)) evs = true.

End Stream.

(* ===================================================================== *)
(** ** [tools_router]: the model client and the tool handlers *)
(* ===================================================================== *)

Module Tools.
Import Posix Walk Scanner.

(** What the model backend does with a [POST /api/generate]: it answers
    with a status and a decoded body whose ["response"] member is
    [response], or the call raises (connection refused, timeout,
    undecodable body) with message [msg]. *)
Inductive model_reply : Type :=
| Reply (status_code : nat) (response : string)
| CallFails (msg : string).

Definition model_client : Type := string -> string -> model_reply.

(** What a handler does to the outside, in order. *)
Inductive effect : Type :=
| FsWalk (top : string)                   (* a directory walk of [top] *)
| FsRead (path : string) (nbytes : nat)   (* a file opened and read *)
| ModelCall (model prompt : string).      (* a request to the model *)

Definition nl : string := String (ascii_of_nat 10) EmptyString.


(** [run_ollama_model]: every failure becomes the returned text. *)
Definition run_ollama_model (ollama : model_client) (model prompt : string)
    : list effect * string :=
  ([ModelCall model prompt],
   match ollama model prompt with
   | Reply status_code response =>
       if (status_code =? 200)%nat then response
       else "Error: Model returned status " ++ Py.str_of_nat status_code
   | CallFails msg => "Error calling model: " ++ msg
   end).

(** [Path(name).suffix]. *)
Fixpoint last_dot (s : string) (i : nat) (found : option nat) : option nat :=
  match s with
  | EmptyString => found
  | String c s' =>
      last_dot s' (S i) (if Ascii.eqb c "."%char then Some i else found)
  end.

Definition suffix (name : string) : string :=
  match last_dot name 0 None with
  | Some i =>
      if (0 <? i)%nat && (i <? String.length name - 1)%nat
      then String.substring i (String.length name - i) name
      else ""
  | None => ""
  end.

(** The final component of a relative path text. *)
Definition base_name (file_path : string) : string :=
  last (Py.split "/" file_path) "".

(** [open(root / file).read()] in text mode: the contents, [None] when
    opening or reading raises. *)
Definition read_text (w : world) (phys : list string) (file : string)
    : option string :=
  match stat_at w [] (phys ++ [file]) with
  | Some (_, File _ (Some content)) => Some content
  | _ => None
  end.

Definition rel_path (rel : list string) (file : string) : string :=
  Py.join "/" (rel ++ [file]).

Definition not_ignored (d : string) : bool := negb (Py.mem d ignore_dirs).

(* --------------------------------------------------------------------- *)
(** *** [tool_summarize_workspace] *)

Definition summarize_prompt (s : structure) : string :=
  let dirs_text :=
    Py.join nl (map (fun d => "  📁 " ++ d)%string
                  (Py.sorted (firstn 50 (directories s)))) in
  let files_text :=
    Py.join nl (map (fun f => "  📄 " ++ f)%string
                  (Py.sorted (firstn 100 (files s)))) in
  "You are an AI workspace analyst. Summarize the following project structure in clear bullet points.

WORKSPACE STRUCTURE:

Directories (" ++ Py.str_of_nat (total_dirs s) ++ " total):
" ++ dirs_text ++ "

Files (" ++ Py.str_of_nat (total_files s) ++ " total, showing first 100):
" ++ files_text ++ "

Analyze and provide:
1. Main project type and purpose (based on structure)
2. Key directories and their likely roles
3. Frontend/Backend boundaries (if applicable)
4. Frameworks or technologies identified
5. Overall project organization assessment

Be concise and insightful.".

Definition tool_summarize_workspace (w : world) (ollama : model_client)
    (workspace_path model : string) : list effect * string :=
  let s := scan_workspace_structure w workspace_path 4 in
  let (tr, r) := run_ollama_model ollama model (summarize_prompt s) in
  (FsWalk workspace_path :: tr, r).

(* --------------------------------------------------------------------- *)
(** *** [tool_list_files] *)

(** [by_extension]: extension to the file paths having it, in order of
    first appearance. *)
Fixpoint group_add (ext file_path : string) (g : list (string * list string))
    : list (string * list string) :=
  match g with
  | [] => [(ext, [file_path])]
  | (e, fs) :: g' =>
      if String.eqb e ext then (e, (fs ++ [file_path])%list) :: g'
      else (e, fs) :: group_add ext file_path g'
  end.

Definition by_extension (file_paths : list string)
    : list (string * list string) :=
  fold_left
    (fun g file_path =>
       let sfx := suffix (base_name file_path) in
       let ext := if String.eqb sfx "" then "no-extension" else sfx in
       group_add ext file_path g)
    file_paths [].

Fixpoint lookup_group (ext : string) (g : list (string * list string))
    : list string :=
  match g with
  | [] => []
  | (e, fs) :: g' => if String.eqb e ext then fs else lookup_group ext g'
  end.

Definition organized_list (g : list (string * list string)) : list string :=
  flat_map
    (fun ext =>
       let fs := lookup_group ext g in
       (nl ++ ext ++ " files (" ++ Py.str_of_nat (length fs) ++ "):")%string
       :: map (fun f => "  - " ++ f)%string (firstn 50 (Py.sorted fs)))
    (Py.sorted (map fst g)).

Definition list_files_prompt (s : structure) : string :=
  let files_summary := Py.join nl (organized_list (by_extension (files s))) in
  "You are an AI file system analyst. The following files were found in the workspace:

TOTAL FILES: " ++ Py.str_of_nat (total_files s) ++ "
TOTAL DIRECTORIES: " ++ Py.str_of_nat (total_dirs s) ++ "

FILES BY TYPE:
" ++ files_summary ++ "

Provide a concise summary:
1. What types of files dominate?
2. Are there any missing important files (e.g., README, config files)?
3. Is the project well-organized?
4. Any observations about file naming or structure?".

Definition tool_list_files (w : world) (ollama : model_client)
    (workspace_path model : string) : list effect * string :=
  let s := scan_workspace_structure w workspace_path 6 in
  let (tr, r) := run_ollama_model ollama model (list_files_prompt s) in
  (FsWalk workspace_path :: tr, r).

(* --------------------------------------------------------------------- *)
(** *** [tool_scan_todos] *)

Definition todo_extensions : list string :=
  [".ts"; ".tsx"; ".js"; ".jsx"; ".py"; ".md"; ".txt"].

Record todo : Type := {
  todo_file : string;
  todo_line : nat;
  todo_text : string
}.

(** [f.readlines()]: the lines with their terminators; a last line
    without terminator is kept. *)
Fixpoint readlines_aux (cur : string) (s : string) : list string :=
  match s with
  | EmptyString => if String.eqb cur "" then [] else [cur]
  | String c s' =>
      if Ascii.eqb c (ascii_of_nat 10)
      then (cur ++ String c EmptyString)%string :: readlines_aux "" s'
      else readlines_aux (cur ++ String c EmptyString) s'
  end.

Definition readlines (content : string) : list string :=
  readlines_aux "" content.

(** [for i, line in enumerate(lines, 1)]: the marker lines of one file. *)
Fixpoint todos_of_lines (file : string) (i : nat) (lines : list string)
    : list todo :=
  match lines with
  | [] => []
  | line :: rest =>
      let line_lower := Py.lower line in
      if Py.contains "todo" line_lower || Py.contains "fixme" line_lower
      then {| todo_file := file; todo_line := i; todo_text := Py.strip line |}
           :: todos_of_lines file (S i) rest
      else todos_of_lines file (S i) rest
  end.

(** The inner [for file in files] of [tool_scan_todos]. *)
Definition todos_file (w : world) (phys rel : list string)
    (acc : list todo * list effect) (file : string)
    : list todo * list effect :=
  if negb (Py.mem (suffix file) todo_extensions) then acc
  else
    match read_text w phys file with
    | None => acc
    | Some content =>
        (fst acc ++ todos_of_lines (rel_path rel file) 1 (readlines content),
         snd acc ++ [FsRead (rel_path rel file) (String.length content)])%list
    end.

Definition todos_body (w : world) (acc : list todo * list effect)
    (phys rel : list string) (inode : nat) (dirs files_ : list string)
    : step (list todo * list effect) :=
  Next (fold_left (todos_file w phys rel) files_ acc) (filter not_ignored dirs).

Definition collect_todos (w : world) (workspace_path : string)
    : list todo * list effect :=
  for_os_walk w (todos_body w) workspace_path ([], []).

(** [todos[:50]]: the entries that go into the prompt. *)
Definition shown_todos (todos : list todo) : list todo := firstn 50 todos.

Definition todos_prompt (todos : list todo) : string :=
  let todos_text :=
    Py.join nl
      (map (fun t => todo_file t ++ ":" ++ Py.str_of_nat (todo_line t) ++ nl
                     ++ "  " ++ todo_text t)%string
         (shown_todos todos)) in
  "You are an AI code auditor. The following TODO/FIXME comments were found in the codebase:

TOTAL FOUND: " ++ Py.str_of_nat (length todos) ++ "

TODOS AND FIXMES (showing first 50):
" ++ todos_text ++ "

Analyze and provide:
1. Group by priority (critical, important, nice-to-have)
2. Group by file or module
3. Suggest which TODOs should be addressed first
4. Any patterns or concerns in the TODOs?".

Definition tool_scan_todos (w : world) (ollama : model_client)
    (workspace_path model : string) : list effect * string :=
  let (todos, reads) := collect_todos w workspace_path in
  match todos with
  | [] =>
      (FsWalk workspace_path :: reads,
       "No TODO or FIXME comments found in the workspace.")
  | _ =>
      let (tr, r) := run_ollama_model ollama model (todos_prompt todos) in
      ((FsWalk workspace_path :: reads) ++ tr, r)%list
  end.

(* --------------------------------------------------------------------- *)
(** *** [tool_analyze_codebase] *)

Definition code_extensions : list string :=
  [".ts"; ".tsx"; ".js"; ".jsx"; ".py"].

Record analyzed : Type := {
  an_file : string;
  an_preview : string
}.

(** [content.split('\n')[:50]] joined again and cut at 2000 characters. *)
Definition preview_of (content : string) : string :=
  Py.take 2000 (Py.join nl (firstn 50 (Py.split (ascii_of_nat 10) content))).

(** A preview of at most 2000 characters and 50 lines. *)
Definition preview_ok (preview : string) : Prop :=
  (String.length preview <= 2000)%nat /\
  (Py.count_char (ascii_of_nat 10) preview <= 49)%nat.

(** The inner [for file in files] of [tool_analyze_codebase]; it is left
    by [break] as soon as twenty files have been taken. *)
Fixpoint analyze_files (w : world) (phys rel : list string)
    (files_ : list string) (acc : list analyzed * list effect)
    : list analyzed * list effect :=
  match files_ with
  | [] => acc
  | file :: rest =>
      if negb (Py.mem (suffix file) code_extensions)
      then analyze_files w phys rel rest acc
      else
        match read_text w phys file with
        | None => analyze_files w phys rel rest acc
        | Some content =>
            let acc' :=
              (fst acc ++ [{| an_file := rel_path rel file;
                              an_preview := preview_of content |}],
               snd acc ++ [FsRead (rel_path rel file) (String.length content)])%list in
            if (20 <=? length (fst acc'))%nat then acc'
            else analyze_files w phys rel rest acc'
        end
  end.


Definition analyze_body (w : world) (acc : list analyzed * list effect)
    (phys rel : list string) (inode : nat) (dirs files_ : list string)
    : step (list analyzed * list effect) :=
  let acc' := analyze_files w phys rel files_ acc in
  if (20 <=? length (fst acc'))%nat then Break acc'
  else Next acc' (filter not_ignored dirs).

Definition collect_samples (w : world) (workspace_path : string)
    : list analyzed * list effect :=
  for_os_walk w (analyze_body w) workspace_path ([], []).

Definition analyze_prompt (files_analyzed : list analyzed) : string :=
  let files_summary :=
    Py.join (nl ++ nl ++ "---" ++ nl ++ nl)
      (map (fun item => "FILE: " ++ an_file item ++ nl ++ an_preview item)%string
         files_analyzed) in
  "You are an AI software architect. Analyze the following code snippets from this project:

TOTAL CODE FILES ANALYZED: " ++ Py.str_of_nat (length files_analyzed) ++ "

CODE SAMPLES:
" ++ files_summary ++ "

Provide a detailed analysis:
1. What is the overall architecture pattern?
2. What frameworks and libraries are being used?
3. Code quality observations
4. Are there any anti-patterns or concerns?
5. Suggestions for improvement
6. Is the code well-structured?".

Definition tool_analyze_codebase (w : world) (ollama : model_client)
    (workspace_path model : string) : list effect * string :=
  let (files_analyzed, reads) := collect_samples w workspace_path in
  match files_analyzed with
  | [] =>
      (FsWalk workspace_path :: reads, "No code files found to analyze.")
  | _ =>
      let (tr, r) :=
        run_ollama_model ollama model (analyze_prompt files_analyzed) in
      ((FsWalk workspace_path :: reads) ++ tr, r)%list
  end.

(* --------------------------------------------------------------------- *)
(** *** [tool_generate_readme] *)

(** One of the two guarded reads: [Path(workspace_path) / name], read
    when it exists; any exception is swallowed. *)
Definition read_manifest (w : world) (workspace_path name : string)
    : list effect * string :=
  let p := Path_of workspace_path in
  match stat w {| is_absolute := is_absolute p; parts := parts p ++ [name] |} with
  | Some (_, File _ (Some content)) =>
      ([FsRead (str {| is_absolute := is_absolute p; parts := parts p ++ [name] |})
          (String.length content)],
       nl ++ name ++ " found" ++ nl ++ content ++ nl)
  | _ => ([], "")
  end.

Definition readme_prompt (s : structure) (package_info : string) : string :=
  let dirs_text :=
    Py.join nl (map (fun d => "  " ++ d)%string
                  (Py.sorted (firstn 30 (directories s)))) in
  "You are a technical documentation expert. Generate a professional README.md file for this project.

PROJECT STRUCTURE:
" ++ Py.str_of_nat (total_dirs s) ++ " directories, " ++ Py.str_of_nat (total_files s) ++ " files

Key directories:
" ++ dirs_text ++ "

" ++ package_info ++ "

Generate a complete README.md with:
1. # Project Title (infer from structure)
2. ## Description (what the project does)
3. ## Features (key capabilities)
4. ## Installation (setup instructions)
5. ## Usage (how to run)
6. ## Project Structure (explain key folders)
7. ## Technologies Used
8. ## License (suggest MIT or appropriate)

Write in Markdown format. Be professional and clear.".

Definition tool_generate_readme (w : world) (ollama : model_client)
    (workspace_path model : string) : list effect * string :=
  let s := scan_workspace_structure w workspace_path 4 in
  let (tr1, info1) := read_manifest w workspace_path "package.json" in
  let (tr2, info2) := read_manifest w workspace_path "requirements.txt" in
  let (tr, r) :=
    run_ollama_model ollama model (readme_prompt s (info1 ++ info2)) in
  ((FsWalk workspace_path :: tr1) ++ tr2 ++ tr, r)%list.

(* --------------------------------------------------------------------- *)
(** *** [tool_summarize_csv] *)

(** The [activeSheetData] payload as the sheet view sends it: column
    names, rows of text cells, and a name. *)
Record sheet : Type := {
  columns : list string;
  rows : list (list string);
  name : option string
}.

Definition csv_prompt (sh : sheet) : string :=
  let sample_text :=
    Py.join nl (map (fun row => "  " ++ Py.join " | " row)%string
                  (firstn 10 (rows sh))) in
  "You are a data analyst. Summarize the following dataset:

DATASET: " ++ match name sh with Some n => n | None => "Unknown" end ++ "
COLUMNS: " ++ Py.str_of_nat (length (columns sh)) ++ "
ROWS: " ++ Py.str_of_nat (length (rows sh)) ++ "

Column names:
" ++ Py.join ", " (columns sh) ++ "

Sample data (first 10 rows):
" ++ sample_text ++ "

Provide:
1. What type of data is this?
2. What insights can you draw?
3. Any data quality observations?
4. Suggested analyses or visualizations
5. Key patterns or trends visible".

(** [None] is an absent or empty payload ([request.activeSheetData or {}]). *)
Definition tool_summarize_csv (ollama : model_client)
    (active_sheet_data : option sheet) (model : string)
    : list effect * string :=
  match active_sheet_data with
  | None => ([], "No active sheet data provided.")
  | Some sh =>
      match columns sh, rows sh with
      | [], _ | _, [] => ([], "Sheet data is empty or invalid.")
      | _, _ => run_ollama_model ollama model (csv_prompt sh)
      end
  end.

(* --------------------------------------------------------------------- *)
(** *** [run_tool]: the dispatcher *)

Record ToolRunRequest : Type := {
  toolName : string;
  workspacePath : string;
  activeSheetData : option sheet;
  model : string
}.

(** The success body [{"success": True, "tool": .., "result": ..}]. *)
Record ToolResponse : Type := {
  success : bool;
  tool : string;
  tool_result : string
}.

Definition run_tool (w : world) (ollama : model_client) (request : ToolRunRequest)
    : list effect * result ToolResponse :=
  let tool_name := toolName request in
  let workspace_path := workspacePath request in
  let model := model request in
  let wrap (h : list effect * string) : list effect * result ToolResponse :=
    (fst h, Ok {| success := true; tool := tool_name; tool_result := snd h |}) in
  if String.eqb model "" then ([], HTTPException 400 "Model is required")
  else if String.eqb tool_name "summarize_workspace" then
    wrap (tool_summarize_workspace w ollama workspace_path model)
  else if String.eqb tool_name "list_files" then
    wrap (tool_list_files w ollama workspace_path model)
  else if String.eqb tool_name "scan_todos" then
    wrap (tool_scan_todos w ollama workspace_path model)
  else if String.eqb tool_name "analyze_codebase" then
    wrap (tool_analyze_codebase w ollama workspace_path model)
  else if String.eqb tool_name "generate_readme" then
    wrap (tool_generate_readme w ollama workspace_path model)
  else if String.eqb tool_name "summarize_csv" then
    wrap (tool_summarize_csv ollama (activeSheetData request) model)
  else ([], HTTPException 400 ("Unknown tool: " ++ tool_name)).

End Tools.

(* ===================================================================== *)
(** ** Sample worlds *)
(* ===================================================================== *)

Module Samples.
Import Posix.

(** A workspace [/ws] with a symlink leading out of it, a sibling
    directory whose name extends the root's, and a project directory
    named [etc]. *)
Definition sandbox_fs : node :=
  Dir "" 2 true
    [ Dir "ws" 10 true
        [ File "a.txt" (Some "hello");
          Symlink "out" "/outside";
          Dir "proj" 11 true
            [ Dir "etc" 12 true [ File "conf" (Some "x") ] ];
          Dir "empty" 15 true [] ];
      Dir "ws-evil" 14 true [ File "x" (Some "x") ];
      Dir "outside" 13 true [ File "secret" (Some "s") ] ].

Definition sandbox_world : world :=
  {| fs_root := sandbox_fs;
     cwd := ["ws"];
     homedir := fun u => if String.eqb u "~" then Some "/ws" else None;
     WORKSPACE_ROOT := ["ws"] |}.

(** The directory of the security tests: [allowed] is the workspace root,
    [outside] is its sibling. *)
Definition guard_fs : node :=
  Dir "" 2 true
    [ Dir "allowed" 10 true [ File "inside.txt" (Some "hello") ];
      Dir "outside" 11 true [ File "outside.txt" (Some "secret") ] ].

Definition guard_world : world :=
  {| fs_root := guard_fs;
     cwd := ["allowed"];
     homedir := fun _ => None;
     WORKSPACE_ROOT := ["allowed"] |}.

(** One physical directory (inode 50) reachable at [a/b/c/X] and, through
    a bind mount, at [z]. *)
Definition shared_dir (nm : string) : node :=
  Dir nm 50 true
    [ File "g.txt" (Some "g");
      Dir "s" 51 true [ File "f.txt" (Some "f") ] ].

Definition bind_mount_fs : node :=
  Dir "" 2 true
    [ Dir "ws" 10 true
        [ Dir "a" 11 true
            [ Dir "b" 12 true [ Dir "c" 13 true [ shared_dir "X" ] ] ];
          shared_dir "z" ] ].

Definition bind_mount_world : world :=
  {| fs_root := bind_mount_fs;
     cwd := ["ws"];
     homedir := fun _ => None;
     WORKSPACE_ROOT := ["ws"] |}.

(** [n] files named [f1], [f2], ... *)
Definition numbered_files (n : nat) : list node :=
  map (fun i => File ("f" ++ Py.str_of_nat i) (Some "")) (seq 1 n).

(** A workspace with all its files in the top directory. *)
Definition flat_fs (n : nat) : node :=
  Dir "" 2 true [ Dir "ws" 10 true (numbered_files n) ].

Definition flat_world (n : nat) : world :=
  {| fs_root := flat_fs n;
     cwd := ["ws"];
     homedir := fun _ => None;
     WORKSPACE_ROOT := ["ws"] |}.

(** The number of regular files of a tree. *)
Fixpoint count_files (n : node) : nat :=
  match n with
  | File _ _ => 1
  | Symlink _ _ => 0
  | Dir _ _ _ es =>
      (fix sum (l : list node) : nat :=
         match l with
         | [] => 0
         | e :: l' => count_files e + sum l'
         end) es
  end.







(** A model backend that answers, one that cannot be reached, and one
    that answers 500. *)
Definition healthy_model : Tools.model_client :=
  fun _ _ => Tools.Reply 200 "A tidy project.".

Definition unreachable_model : Tools.model_client :=
  fun _ _ => Tools.CallFails "All connection attempts failed".

Definition failing_model : Tools.model_client :=
  fun _ _ => Tools.Reply 500 "".

(** The three lines of the translator's reference stream. *)
Definition reference_lines : list string :=
  [ Json.q "{'message':{'content':'a'}}";
    "garbage";
    Json.q "{'message':{'content':'b'},'done':true}" ].

(** A backend that goes on sending after its terminal increment. *)
Definition late_backend : Stream.backend :=
  Stream.Response 200 "OK"
    [ Json.q "{'done':true}";
      Json.q "{'message':{'content':'late'},'done':true}" ]
    None.

(** A backend whose connection is reset after the terminal increment. *)
Definition reset_backend : Stream.backend :=
  Stream.Response 200 "OK"
    [ Json.q "{'message':{'content':'a'},'done':true}" ]
    (Some (Stream.RequestError "connection reset")).

(** A workspace with a symlink [loop] that points to itself and a
    symlink [out] that leads out of the workspace. *)
Definition loop_fs : node :=
  Dir "" 2 true
    [ Dir "ws" 10 true
        [ File "a.txt" (Some "hello");
          Symlink "loop" "loop";
          Symlink "out" "/outside" ];
      Dir "outside" 13 true [ File "secret" (Some "s") ] ].

Definition loop_world : world :=
  {| fs_root := loop_fs;
     cwd := ["ws"];
     homedir := fun _ => None;
     WORKSPACE_ROOT := ["ws"] |}.

End Samples.

(* ===================================================================== *)
(** ** [main]: chat identifiers and the file endpoints *)
(* ===================================================================== *)

Module Main.
Import Posix Sandbox Walk.

(** The character class of [CHAT_ID_PATTERN]. *)
Definition chat_id_char (c : ascii) : bool :=
  let n := nat_of_ascii c in
  ((65 <=? n)%nat && (n <=? 90)%nat) || ((97 <=? n)%nat && (n <=? 122)%nat)
  || ((48 <=? n)%nat && (n <=? 57)%nat) || (n =? 95)%nat || (n =? 45)%nat.

Fixpoint all_chars (p : ascii -> bool) (s : string) : bool :=
  match s with
  | EmptyString => true
  | String c s' => p c && all_chars p s'
  end.

(** [CHAT_ID_PATTERN.fullmatch(chat_id)]: one or more characters of the
    class and nothing else. *)
Definition chat_id_matches (chat_id : string) : bool :=
  negb (String.eqb chat_id "") && all_chars chat_id_char chat_id.

Definition validate_chat_id (chat_id : string) : result string :=
  if negb (chat_id_matches chat_id)
  then HTTPException 400 "Invalid chat ID format"
  else Ok chat_id.

(** The name of the file of a chat, [f"{safe_chat_id}.json"], to be
    joined to [CHATS_DIR]. *)
Definition chat_file_name (safe_chat_id : string) : string :=
  safe_chat_id ++ ".json".

(** The names whose slash-delimited form is in [sensitive_patterns]. *)
Definition sensitive_names : list string :=
  ["etc"; "sys"; "proc"; ".ssh"; "root"].

Definition MAX_FILE_READ_SIZE : Z := 50 * 1024 * 1024.

(** The filesystem with what the file endpoints need besides its tree:
    the size in bytes [os.stat] reports for a file, whether the process
    may create or overwrite the object at a path, and the inode number
    the system gives to a directory it creates there. *)
Record disk : Type := {
  tree : world;
  st_size : list string -> Z;
  can_write : list string -> bool;
  new_ino : list string -> nat
}.

(** Text read from a file opened in text mode: [\r\n] and [\r] become
    [\n]. *)
Fixpoint universal_newlines (s : string) : string :=
  match s with
  | EmptyString => EmptyString
  | String c rest =>
      if Ascii.eqb c (ascii_of_nat 13) then
        match rest with
        | String c' rest' =>
            if Ascii.eqb c' (ascii_of_nat 10)
            then String (ascii_of_nat 10) (universal_newlines rest')
            else String (ascii_of_nat 10) (universal_newlines rest)
        | EmptyString => String (ascii_of_nat 10) EmptyString
        end
      else String c (universal_newlines rest)
  end.

(** An [OSError] with its error number, its message and the path it is
    about; [str(e)] is [[Errno n] message: 'path']. *)
Record oserror : Type := {
  errno : nat;
  strerror : string;
  filename : list string
}.

Definition str_oserror (e : oserror) : string :=
  "[Errno " ++ Py.str_of_nat (errno e) ++ "] " ++ strerror e ++ ": '"
  ++ str (abs_path (filename e)) ++ "'".

Definition EACCES (p : list string) : oserror :=
  {| errno := 13; strerror := "Permission denied"; filename := p |}.
Definition EEXIST (p : list string) : oserror :=
  {| errno := 17; strerror := "File exists"; filename := p |}.
Definition ENOTDIR (p : list string) : oserror :=
  {| errno := 20; strerror := "Not a directory"; filename := p |}.
Definition EISDIR (p : list string) : oserror :=
  {| errno := 21; strerror := "Is a directory"; filename := p |}.

(* --------------------------------------------------------------------- *)
(** *** [read_file] *)

(** The success body of [read_file]. *)
Record ReadFileResponse : Type := {
  rf_path : string;
  rf_content : string;
  rf_size : Z
}.

(** [read_file]; the [content] of a [File] is its text as a text-mode
    read yields it, [None] when opening it is refused. *)
Definition read_file (d : disk) (path : string) : result ReadFileResponse :=
  match validate_safe_path (tree d) path None with
  | HTTPException status_code detail => HTTPException status_code detail
  | Raises exc => HTTPException 500 exc
  | Ok file_path =>
      match stat (tree d) file_path with
      | None => HTTPException 404 "File not found"
      | Some (phys, File _ content) =>
          let file_size := st_size d phys in
          if (MAX_FILE_READ_SIZE <? file_size)%Z then
            HTTPException 413 "File too large (max 50MB)"
          else
            match content with
            | Some text =>
                Ok {| rf_path := str file_path; rf_content := text;
                      rf_size := file_size |}
            | None =>
                HTTPException 500 (str_oserror (EACCES (parts file_path)))
            end
      | Some (_, _) => HTTPException 400 "Path is not a file"
      end
  end.

(* --------------------------------------------------------------------- *)
(** *** [write_file] *)

Definition ENOENT (p : list string) : oserror :=
  {| errno := 2; strerror := "No such file or directory"; filename := p |}.
Definition ELOOP (p : list string) : oserror :=
  {| errno := 40; strerror := "Too many levels of symbolic links";
     filename := p |}.

(** The [OSError] of a failed path lookup, for the path given to the
    call. *)
Definition lookup_oserror (e : lookup_error) (p : list string) : oserror :=
  match e with
  | NoEntry => ENOENT p
  | NotDir => ENOTDIR p
  | Loop => ELOOP p
  end.

(** [isinstance(e, FileNotFoundError)]. *)
Definition is_not_found (e : oserror) : bool := (errno e =? 2)%nat.

Fixpoint map_entry (nm : string) (g : node -> node) (es : list node)
    : list node :=
  match es with
  | [] => []
  | e :: es' =>
      if String.eqb (node_name e) nm then g e :: es'
      else e :: map_entry nm g es'
  end.

(** The tree in which the object at the physical path [p] is [f] of what
    it was. *)
Fixpoint update_at (f : node -> node) (n : node) (p : list string)
    {struct p} : node :=
  match p with
  | [] => f n
  | c :: p' =>
      match n with
      | Dir nm ino listable es =>
          Dir nm ino listable (map_entry c (fun ch => update_at f ch p') es)
      | _ => n
      end
  end.

(** One more entry in a directory. *)
Definition add_entry (e : node) (n : node) : node :=
  match n with
  | Dir nm ino listable es => Dir nm ino listable (es ++ [e])
  | _ => n
  end.

(** [Path.is_dir()] of an absolute path. *)
Definition is_dir (root : node) (p : list string) : bool :=
  match namei MAXSYMLINKS root [] p with
  | Found phys =>
      match lstat root phys with
      | Some (Dir _ _ _ _) => true
      | _ => false
      end
  | _ => false
  end.

(** [os.mkdir(p)] for an absolute path: the directory that holds the last
    component is looked up, symlinks being followed; the call fails where
    the name is taken, by whatever object, and where the directory may
    not be created. *)
Definition os_mkdir (d : disk) (root : node) (p : list string)
    : node + oserror :=
  match p with
  | [] => inr (EEXIST p)
  | _ :: _ =>
      let name := last p "" in
      match namei MAXSYMLINKS root [] (removelast p) with
      | Found parent =>
          match lstat root parent with
          | Some (Dir _ _ _ es) =>
              match find_entry name es with
              | Some _ => inr (EEXIST p)
              | None =>
                  if can_write d (parent ++ [name])
                  then inl (update_at
                              (add_entry
                                 (Dir name (new_ino d (parent ++ [name])) true []))
                              root parent)
                  else inr (EACCES p)
              end
          | Some _ => inr (ENOTDIR p)
          | None => inr (ENOENT p)
          end
      | Missing _ _ => inr (ENOENT p)
      | Fails e => inr (lookup_oserror e p)
      end
  end.

(** [Path(p).mkdir(parents=True, exist_ok=True)] of [pathlib]: [os.mkdir]
    is tried; when it fails for a missing parent, the parent is made in
    the same way and [os.mkdir] is tried again; any other failure is
    overlooked when the path is a directory.  The tree as the call leaves
    it is returned with the outcome: directories made before a failure
    stay.  [fuel] bounds the way up to the root. *)
Fixpoint mkdir_parents (fuel : nat) (d : disk) (root : node) (p : list string)
    {struct fuel} : node * option oserror :=
  match os_mkdir d root p with
  | inl root' => (root', None)
  | inr e =>
      if is_not_found e then
        match p, fuel with
        | _ :: _, S fuel' =>
            match mkdir_parents fuel' d root (removelast p) with
            | (root1, Some e1) => (root1, Some e1)
            | (root1, None) =>
                match os_mkdir d root1 p with
                | inl root2 => (root2, None)
                | inr e2 =>
                    if is_not_found e2 then (root1, Some e2)
                    else if is_dir root1 p then (root1, None)
                    else (root1, Some e2)
                end
            end
        | _, _ => (root, Some e)
        end
      else if is_dir root p then (root, None)
      else (root, Some e)
  end.

(** [open(p, 'w')] followed by the write, for an absolute path: symlinks
    are followed, the last one too; the file is made in its directory
    when only it was missing, or truncated and rewritten.  With the tree
    comes the physical path of the file.  A file that cannot be opened
    for reading stays so. *)
Definition os_open_w (d : disk) (root : node) (p : list string) (text : string)
    : (node * list string) + oserror :=
  match namei MAXSYMLINKS root [] p with
  | Found phys =>
      match lstat root phys with
      | Some (File nm content) =>
          if can_write d phys
          then inl (update_at
                      (fun _ => File nm (match content with
                                         | Some _ => Some text
                                         | None => None
                                         end))
                      root phys,
                    phys)
          else inr (EACCES p)
      | Some (Dir _ _ _ _) => inr (EISDIR p)
      | _ => inr (ENOENT p)
      end
  | Missing parent name =>
      if can_write d (parent ++ [name])
      then inl (update_at (add_entry (File name (Some text))) root parent,
                (parent ++ [name])%list)
      else inr (EACCES p)
  | Fails e => inr (lookup_oserror e p)
  end.

(** The target of the symlink at a physical path, if there is one. *)
Definition link_at (root : node) (q : list string) : option string :=
  match lstat root q with
  | Some (Symlink _ target) => Some target
  | _ => None
  end.

(** Two trees with the same symlinks at the same places. *)
Definition same_links (root root' : node) : Prop :=
  (forall q, link_at root' q = link_at root q) /\
  count_symlinks root' = count_symlinks root.

(** Two trees that differ at most at the paths that [p] begins with. *)
Definition same_off (p : list string) (root root' : node) : Prop :=
  forall q, is_relative_to p q = false -> lstat root' q = lstat root q.

(** A file that is there and cannot be opened for reading. *)
Definition unreadable (root : node) (p : list string) : bool :=
  match lstat root p with
  | Some (File _ None) => true
  | _ => false
  end.

Definition with_root (w : world) (root : node) : world :=
  {| fs_root := root; cwd := cwd w; homedir := homedir w;
     WORKSPACE_ROOT := WORKSPACE_ROOT w |}.

Definition with_tree (d : disk) (root : node) : disk :=
  {| tree := with_root (tree d) root; st_size := st_size d;
     can_write := can_write d; new_ino := new_ino d |}.

(** The disk once [nbytes] bytes were written to the file at the physical
    path [p]. *)
Definition written (d : disk) (root : node) (p : list string) (nbytes : nat)
    : disk :=
  {| tree := with_root (tree d) root;
     st_size := fun q => if path_eqb q p then Z.of_nat nbytes else st_size d q;
     can_write := can_write d;
     new_ino := new_ino d |}.

(** [len(s)]: the characters of the text, which are the bytes that do not
    continue a UTF-8 sequence. *)
Fixpoint len (s : string) : nat :=
  match s with
  | EmptyString => 0
  | String c rest =>
      let n := nat_of_ascii c in
      ((if (128 <=? n)%nat && (n <=? 191)%nat then 0 else 1) + len rest)%nat
  end.

(** The success body of [write_file]. *)
Record WriteFileResponse : Type := {
  wf_path : string;
  wf_success : bool;
  wf_size : nat
}.

(** [write_file]: the disk as the request leaves it, and the answer,
    whose [size] is [len(request.content)], a number of characters, where
    the file takes the bytes of the text. *)
Definition write_file (d : disk) (path content : string)
    : disk * result WriteFileResponse :=
  match validate_safe_path (tree d) path None with
  | HTTPException status_code detail => (d, HTTPException status_code detail)
  | Raises exc => (d, HTTPException 500 exc)
  | Ok file_path =>
      let parent := removelast (parts file_path) in
      match mkdir_parents (S (length parent)) d (fs_root (tree d)) parent with
      | (root1, Some e) => (with_tree d root1, HTTPException 500 (str_oserror e))
      | (root1, None) =>
          match os_open_w d root1 (parts file_path)
                  (universal_newlines content) with
          | inr e => (with_tree d root1, HTTPException 500 (str_oserror e))
          | inl (root2, phys) =>
              (written d root2 phys (String.length content),
               Ok {| wf_path := str file_path; wf_success := true;
                     wf_size := len content |})
          end
      end
  end.

(* --------------------------------------------------------------------- *)
(** *** [get_workspace_files] *)

(** [FileNode]. *)
Inductive FileNode : Type :=
| Build_FileNode (name path type_ : string) (children : option (list FileNode)).

Definition fn_name (f : FileNode) : string :=
  match f with Build_FileNode name _ _ _ => name end.
Definition fn_path (f : FileNode) : string :=
  match f with Build_FileNode _ path _ _ => path end.
Definition fn_type (f : FileNode) : string :=
  match f with Build_FileNode _ _ type_ _ => type_ end.
Definition fn_children (f : FileNode) : option (list FileNode) :=
  match f with Build_FileNode _ _ _ children => children end.

Definition ignore_items : list string :=
  [".git"; "node_modules"; "__pycache__"; ".venv"; "dist"; "build";
   ".DS_Store"].

(** The sort key [(not x.is_dir(), x.name.lower())] and the order of
    tuples: [False] before [True], then the names. *)
Definition key_leb (a b : bool * string) : bool :=
  match fst a, fst b with
  | false, true => true
  | true, false => false
  | _, _ => String.leb (snd a) (snd b)
  end.

Section sorted_by.
Context {A : Type}.
Variable key : A -> bool * string.

(** [sorted(items, key=key)]: stable. *)
Fixpoint insert_by (x : A) (l : list A) : list A :=
  match l with
  | [] => [x]
  | y :: l' =>
      if key_leb (key x) (key y) then x :: l else y :: insert_by x l'
  end.

Definition sorted_by (l : list A) : list A := fold_right insert_by [] l.

(** The order of the keys, on the items. *)
Definition key_le (a b : A) : Prop := key_leb (key a) (key b) = true.
End sorted_by.

(** [item.name.startswith('.') or item.name in ignore_items]. *)
Definition skipped (nm : string) : bool :=
  String.prefix "." nm || Py.mem nm ignore_items.

(** [root_path.name]: the last component, empty for the root directory. *)
Definition path_name (p : Path) : string := last (parts p) "".

(** [root_path / name]. *)
Definition child_path (p : Path) (nm : string) : Path :=
  {| is_absolute := is_absolute p; parts := parts p ++ [nm] |}.

Definition item_key (w : world) (phys : list string) (e : node)
    : bool * string :=
  (negb (entry_is_dir w phys e), Py.lower (node_name e)).

(** The node of one listed item: its children are not loaded. *)
Definition child_node (w : world) (phys : list string) (root_path : Path)
    (e : node) : FileNode :=
  if entry_is_dir w phys e then
    Build_FileNode (node_name e) (str (child_path root_path (node_name e)))
      "directory" None
  else
    Build_FileNode (node_name e) (str (child_path root_path (node_name e)))
      "file" None.

Definition list_children (w : world) (phys : list string) (root_path : Path)
    (es : list node) : list FileNode :=
  map (child_node w phys root_path)
    (filter (fun e => negb (skipped (node_name e)))
       (sorted_by (item_key w phys) es)).

(** The sort key of an item, read off its node. *)
Definition node_key (f : FileNode) : bool * string :=
  (negb (String.eqb (fn_type f) "directory"), Py.lower (fn_name f)).

Definition get_workspace_files (w : world) (path : string) : result FileNode :=
  match validate_safe_path w path None with
  | HTTPException status_code detail => HTTPException status_code detail
  | Raises exc => HTTPException 500 exc
  | Ok root_path =>
      match stat w root_path with
      | None => HTTPException 404 "Path not found"
      | Some (_, File _ _) =>
          Ok (Build_FileNode (path_name root_path) (str root_path) "file" None)
      | Some (phys, Dir _ _ listable es) =>
          if negb listable then HTTPException 403 "Permission denied"
          else
            let children := list_children w phys root_path es in
            Ok (Build_FileNode
                  (if String.eqb (path_name root_path) "" then str root_path
                   else path_name root_path)
                  (str root_path) "directory"
                  (match children with
                   | [] => None
                   | _ => Some children
                   end))
      | Some (_, Symlink _ _) => HTTPException 404 "Path not found"
      end
  end.

End Main.

(* ===================================================================== *)
(** ** [main]: the chat sessions *)
(* ===================================================================== *)

Module Chats.
Import Main.

(** The chat directory [CHATS_DIR]: the text of the file of each name,
    [None] where there is no such file.  Its files are regular files that
    the process may read, write and remove. *)
Definition store : Type := string -> option string.

(** [open(chat_file, 'w')] and the write. *)
Definition write (s : store) (name content : string) : store :=
  fun n => if String.eqb n name then Some content else s n.

(** [chat_file.unlink()]. *)
Definition unlink (s : store) (name : string) : store :=
  fun n => if String.eqb n name then None else s n.

(** The request body of [save_chat]; a message is any decoded JSON
    object. *)
Record SaveChatRequest : Type := {
  sc_id : string;
  sc_title : string;
  sc_messages : list Json.value
}.

(** The success body of [save_chat]. *)
Record SaveChatResponse : Type := {
  sr_success : bool;
  sr_id : string;
  sr_createdAt : Json.value;
  sr_updatedAt : Json.value
}.

(** A number lexeme that [json.loads] decodes to an [int]. *)
Definition is_int_lexeme (lexeme : string) : bool :=
  all_chars (fun c => Json.is_digit c || Ascii.eqb c "-") lexeme.

(** [type(v).__name__] of a decoded document. *)
Definition type_name (v : Json.value) : string :=
  match v with
  | Json.Null => "NoneType"
  | Json.Bool _ => "bool"
  | Json.Number lexeme => if is_int_lexeme lexeme then "int" else "float"
  | Json.Str _ => "str"
  | Json.Array _ => "list"
  | Json.Object _ => "dict"
  end.

(** The text of the [AttributeError] of [v.get] on a document that is
    not an object. *)
Definition no_get (v : Json.value) : string :=
  "'" ++ type_name v ++ "' object has no attribute 'get'".

(** The dictionary [chat_data] of [save_chat]. *)
Definition chat_data (safe_chat_id title : string)
    (created_at updated_at : Json.value) (messages : list Json.value)
    : Json.value :=
  Json.Object
    [ ("id", Json.Str safe_chat_id);
      ("title", Json.Str title);
      ("createdAt", created_at);
      ("updatedAt", updated_at);
      ("messages", Json.Array messages) ].

Section endpoints.

(** [json.dumps(.., indent=2)], and the text [str(e)] of the
    [json.JSONDecodeError] that [json.loads] raises on a text. *)
Variable dumps : Json.value -> string.
Variable decode_error : string -> string.

(** [save_chat]; [now1] and [now2] are the two readings of the clock,
    [int(pd.Timestamp.now().timestamp() * 1000)], in the order of the
    code. *)
Definition save_chat (s : store) (now1 now2 : nat) (request : SaveChatRequest)
    : store * result SaveChatResponse :=
  match validate_chat_id (sc_id request) with
  | HTTPException status_code detail => (s, HTTPException status_code detail)
  | Raises exc => (s, HTTPException 500 exc)
  | Ok safe_chat_id =>
      let chat_file := chat_file_name safe_chat_id in
      let created_at := Json.Number (Py.str_of_nat now1) in
      let existing : string + Json.value :=
        match s chat_file with
        | None => inr created_at
        | Some content =>
            match Json.loads content with
            | None => inl (decode_error content)
            | Some (Json.Object existing_data) =>
                inr (Json.get "createdAt" existing_data created_at)
            | Some v => inl (no_get v)
            end
        end in
      match existing with
      | inl msg => (s, HTTPException 500 msg)
      | inr created_at =>
          let updated_at := Json.Number (Py.str_of_nat now2) in
          (write s chat_file
             (dumps (chat_data safe_chat_id (sc_title request) created_at
                       updated_at (sc_messages request))),
           Ok {| sr_success := true; sr_id := safe_chat_id;
                 sr_createdAt := created_at; sr_updatedAt := updated_at |})
      end
  end.

(** [get_chat]: the decoded document of the chat. *)
Definition get_chat (s : store) (chat_id : string) : result Json.value :=
  match validate_chat_id chat_id with
  | HTTPException status_code detail => HTTPException status_code detail
  | Raises exc => HTTPException 500 exc
  | Ok safe_chat_id =>
      match s (chat_file_name safe_chat_id) with
      | None => HTTPException 404 "Chat not found"
      | Some content =>
          match Json.loads content with
          | Some data => Ok data
          | None => HTTPException 500 (decode_error content)
          end
      end
  end.

(** [delete_chat]; the success body is [{"success": True}]. *)
Definition delete_chat (s : store) (chat_id : string) : store * result bool :=
  match validate_chat_id chat_id with
  | HTTPException status_code detail => (s, HTTPException status_code detail)
  | Raises exc => (s, HTTPException 500 exc)
  | Ok safe_chat_id =>
      match s (chat_file_name safe_chat_id) with
      | None => (s, HTTPException 404 "Chat not found")
      | Some _ => (unlink s (chat_file_name safe_chat_id), Ok true)
      end
  end.

End endpoints.

End Chats.

(* ===================================================================== *)
(** ** More sample worlds *)
(* ===================================================================== *)

Module MoreSamples.
Import Posix.

(** The process runs as root: the default workspace root is [/root]. *)
Definition root_home_fs : node :=
  Dir "" 2 true
    [ Dir "root" 10 true [ File "notes.txt" (Some "remember") ] ].

Definition root_home_world : world :=
  {| fs_root := root_home_fs;
     cwd := ["root"];
     homedir := fun u => if String.eqb u "~" then Some "/root" else None;
     WORKSPACE_ROOT := ["root"] |}.

(** The sandbox workspace with sizes, write permissions everywhere but
    under [/ws/locked], and inode numbers for new directories. *)
Definition sandbox_disk : Main.disk :=
  {| Main.tree := Samples.sandbox_world;
     Main.st_size := fun _ => 5%Z;
     Main.can_write := fun p => negb (is_relative_to p ["ws"; "locked"]);
     Main.new_ino := fun p => (100 + length p)%nat |}.

(** The workspace with a symlink loop, everything writable. *)
Definition loop_disk : Main.disk :=
  {| Main.tree := Samples.loop_world;
     Main.st_size := fun _ => 1%Z;
     Main.can_write := fun _ => true;
     Main.new_ino := fun p => (100 + length p)%nat |}.

(** A serializer for the sample documents: compact, for strings that need
    no escape. *)
Fixpoint sample_dumps (v : Json.value) : string :=
  match v with
  | Json.Null => "null"
  | Json.Bool true => "true"
  | Json.Bool false => "false"
  | Json.Number lexeme => lexeme
  | Json.Str s => Json.q "'" ++ s ++ Json.q "'"
  | Json.Array items =>
      "[" ++ String.concat ", " (map sample_dumps items) ++ "]"
  | Json.Object members =>
      "{" ++ String.concat ", "
               (map (fun kv => Json.q "'" ++ fst kv ++ Json.q "': "
                               ++ sample_dumps (snd kv)) members) ++ "}"
  end.

(** No chat is stored. *)
Definition empty_store : Chats.store := fun _ => None.

Definition first_request : Chats.SaveChatRequest :=
  {| Chats.sc_id := "chat-123_abc"; Chats.sc_title := "ok";
     Chats.sc_messages := [] |}.

Definition second_request : Chats.SaveChatRequest :=
  {| Chats.sc_id := "chat-123_abc"; Chats.sc_title := "renamed";
     Chats.sc_messages :=
       [ Json.Object [("role", Json.Str "user"); ("content", Json.Str "hi")] ] |}.

(** The text of the decoding error, the same for every text. *)
Definition sample_decode_error : string -> string :=
  fun _ => "Expecting value".

(** The chat directory after the first request, at the times 10 and 11. *)
Definition saved_store : Chats.store :=
  fst (Chats.save_chat sample_dumps sample_decode_error empty_store 10 11
         first_request).

End MoreSamples.

(* ===================================================================== *)
(** ** The scanner's log, read *)
(* ===================================================================== *)

Module ScannerLog.
Import Posix Walk Scanner.

(** The relative paths of the directories the loop listed, in the order of
    the walk, without those whose relative path is [.]. *)
Definition recorded (st : scan_state) : list string :=
  filter (fun d => negb (String.eqb d "."))
    (map (fun v => rel_root_of (v_rel v)) (filter is_listed (visited st))).

(** The directory of a visit lies less than [max_depth] levels below the
    top of the walk. *)
Definition above_depth (max_depth : Z) (v : visit) : Prop :=
  (Z.of_nat (length (v_rel v)) < max_depth)%Z.

(** What the depth test leaves: the recorded directories are those of the
    log, and every listed directory is above the depth limit. *)
Definition depth_kept (max_depth : Z) (st : scan_state) : Prop :=
  directories (st_structure st) = recorded st /\
  Forall (fun v => is_listed v = true -> above_depth max_depth v) (visited st).

End ScannerLog.

(* ===================================================================== *)
(** ** The tool handlers, read *)
(* ===================================================================== *)

Module ToolTrace.
Import Posix Walk Scanner Tools.

Definition is_model_call (e : effect) : bool :=
  match e with
  | ModelCall _ _ => true
  | _ => false
  end.

(** A trace of walks and reads, without a request to the model. *)
Definition fs_only (tr : list effect) : Prop :=
  forallb (fun e => negb (is_model_call e)) tr = true.

(** The shape of a handler's trace: walks and reads, then at most one
    request to the model, which is for [model_name]. *)
Definition model_last (model_name : string) (tr : list effect) : Prop :=
  exists fs,
    fs_only fs /\
    (tr = fs \/ exists prompt, tr = (fs ++ [ModelCall model_name prompt])%list).

(** The key under which [tool_list_files] files a path:
    [Path(file_path).suffix or 'no-extension']. *)
Definition extension_key (file_path : string) : string :=
  let sfx := suffix (base_name file_path) in
  if String.eqb sfx "" then "no-extension" else sfx.

(** ['todo' in line_lower or 'fixme' in line_lower]. *)
Definition has_marker (line : string) : bool :=
  Py.contains "todo" (Py.lower line) || Py.contains "fixme" (Py.lower line).

End ToolTrace.

(* ===================================================================== *)
(** ** Path resolution *)
(* ===================================================================== *)

Section ResolveFacts.
Import Posix.

Lemma physical_nil : forall root, physical root [].
Proof. intros root k [Hk Hle]. cbn in Hle. lia. Qed.

Lemma physical_removelast :
  forall root p, physical root p -> physical root (removelast p).
Proof.
  intros root p H k [Hk Hle].
  rewrite removelast_firstn_len in *.
  rewrite length_firstn in Hle.
  rewrite firstn_firstn.
  replace (Nat.min k (Nat.pred (length p))) with k by lia.
  apply H. lia.
Qed.

Lemma physical_snoc :
  forall root p c,
    physical root p -> not_a_link (lstat root (p ++ [c])%list) ->
    physical root (p ++ [c])%list.
Proof.
  intros root p c H Hc k [Hk Hle].
  rewrite length_app in Hle. cbn [length] in Hle.
  destruct (Nat.le_gt_cases k (length p)) as [Hin|Hout].
  - rewrite firstn_app.
    replace (k - length p)%nat with 0%nat by lia.
    cbn [firstn]. rewrite app_nil_r. apply H. lia.
  - rewrite firstn_all2 by (rewrite length_app; cbn [length]; lia).
    exact Hc.
Qed.

Lemma plain_removelast :
  forall p, forallb plain p = true -> forallb plain (removelast p) = true.
Proof.
  intros p H. rewrite removelast_firstn_len.
  rewrite <- (firstn_skipn (Nat.pred (length p)) p) in H.
  rewrite forallb_app in H. apply andb_true_iff in H. apply H.
Qed.

Lemma seen_get_resolved :
  forall root seen key cached,
    seen_resolved root seen ->
    seen_get key seen = Some (Some cached) ->
    physical root cached /\ forallb plain cached = true.
Proof.
  intros root seen key cached Hs. induction Hs as [|[k v] seen Hkv Hs IH];
    cbn [seen_get]; [discriminate|].
  destruct (path_eqb k key); [|exact IH].
  intros H. injection H as ->. exact Hkv.
Qed.

(** A path that was resolved in full over a physical prefix is physical,
    and its components are plain names. *)
Lemma joinrealpath_physical :
  forall depth root path rest seen p seen',
    joinrealpath depth root path rest seen = Some (p, true, seen') ->
    physical root path -> forallb plain path = true ->
    seen_resolved root seen ->
    physical root p /\ forallb plain p = true /\ seen_resolved root seen'.
Proof.
  induction depth as [|depth IHd];
    intros root path rest seen p seen' H Hphys Hplain Hseen; [discriminate|].
  cbn [joinrealpath] in H.
  revert path seen H Hphys Hplain Hseen.
  induction rest as [|name rest IHr]; intros path seen H Hphys Hplain Hseen.
  - injection H as <- <-. repeat split; assumption.
  - destruct (real_component name) eqn:Hreal; cbn [negb] in H;
      [|apply (IHr path seen); assumption].
    destruct (String.eqb name "..") eqn:Hdd.
    + apply (IHr (removelast path) seen); [exact H| | |exact Hseen].
      * apply physical_removelast; exact Hphys.
      * apply plain_removelast; exact Hplain.
    + assert (forallb plain (path ++ [name])%list = true) as Hplain'.
      { rewrite forallb_app, Hplain. cbn. unfold plain.
        rewrite Hreal, Hdd. reflexivity. }
      cbv zeta in H.
      destruct (lstat root (path ++ [name])%list) as [[nm c|nm ino l es|nm target]|]
        eqn:Hl.
      * apply (IHr (path ++ [name])%list seen); [exact H| |exact Hplain'|exact Hseen].
        apply physical_snoc; [exact Hphys|rewrite Hl; exact I].
      * apply (IHr (path ++ [name])%list seen); [exact H| |exact Hplain'|exact Hseen].
        apply physical_snoc; [exact Hphys|rewrite Hl; exact I].
      * destruct (seen_get (path ++ [name])%list seen) as [[cached|]|] eqn:Hget.
        -- destruct (seen_get_resolved root seen _ cached Hseen Hget) as [Hc1 Hc2].
           apply (IHr cached seen); assumption.
        -- discriminate.
        -- destruct (joinrealpath depth root
                       (if String.prefix "/" target then [] else path)
                       (Py.split "/" target)
                       (((path ++ [name])%list, None) :: seen))
             as [[[p' [|]] seen1]|] eqn:Hrec; try discriminate.
           apply IHd in Hrec.
           ++ destruct Hrec as (Hp1 & Hp2 & Hs1).
              apply (IHr p' (((path ++ [name])%list, Some p') :: seen1));
                try assumption.
              constructor; [split; assumption|exact Hs1].
           ++ destruct (String.prefix "/" target);
                [apply physical_nil|exact Hphys].
           ++ destruct (String.prefix "/" target); [reflexivity|exact Hplain].
           ++ constructor; [exact I|exact Hseen].
      * apply (IHr (path ++ [name])%list seen); [exact H| |exact Hplain'|exact Hseen].
        apply physical_snoc; [exact Hphys|rewrite Hl; exact I].
Qed.

Lemma normpath_plain :
  forall p, forallb plain p = true -> normpath p = p.
Proof.
  intros p. unfold normpath.
  assert (forall acc,
             forallb plain p = true ->
             fold_left
               (fun new_comps comp =>
                  if negb (real_component comp) then new_comps
                  else if String.eqb comp ".." then removelast new_comps
                  else (new_comps ++ [comp])%list) p acc = (acc ++ p)%list) as H.
  { induction p as [|c p IH]; intros acc Hp; cbn [fold_left].
    - rewrite app_nil_r. reflexivity.
    - cbn [forallb] in Hp. apply andb_true_iff in Hp. destruct Hp as [Hc Hp].
      unfold plain in Hc. apply andb_true_iff in Hc. destruct Hc as [Hr Hd].
      rewrite Hr. cbn [negb]. apply negb_true_iff in Hd. rewrite Hd.
      rewrite IH by exact Hp. rewrite <- app_assoc. reflexivity. }
  intros Hp. apply (H [] Hp).
Qed.

Lemma lstat_app :
  forall p n q,
    lstat n (p ++ q)%list =
      match lstat n p with
      | Some m => lstat m q
      | None => None
      end.
Proof.
  induction p as [|c p IH]; intros n q; [reflexivity|].
  cbn [app lstat]. destruct n as [nm cont|nm ino l es|nm t]; try reflexivity.
  destruct (find_entry c es) as [ch|]; [apply IH|reflexivity].
Qed.

(** The lookup of the kernel along a path without a symlink, [.] or [..]
    follows the path: it ends at the path itself, at its last component
    when that alone is missing, or in an error that is not [ELOOP]. *)
Lemma namei_physical :
  forall links root rest cur,
    forallb plain rest = true ->
    (forall k, (0 < k <= length rest)%nat ->
               not_a_link (lstat root (cur ++ firstn k rest)%list)) ->
    lstat root cur <> None ->
    match namei links root cur rest with
    | Found phys => phys = (cur ++ rest)%list /\ lstat root phys <> None
    | Missing parent name =>
        (cur ++ rest)%list = (parent ++ [name])%list /\
        (exists nm ino l es,
            lstat root parent = Some (Dir nm ino l es) /\
            find_entry name es = None) /\
        lstat root (cur ++ rest)%list = None
    | Fails e => e <> Loop /\ lstat root (cur ++ rest)%list = None
    end.
Proof.
  intros links root.
  assert (forall follow rest cur,
             forallb plain rest = true ->
             (forall k, (0 < k <= length rest)%nat ->
                        not_a_link (lstat root (cur ++ firstn k rest)%list)) ->
             lstat root cur <> None ->
             match
               (fix go (cur rest : list string) {struct rest} : lookup :=
                  match rest with
                  | [] => Found cur
                  | name :: rest' =>
                      match lstat root cur with
                      | Some (Dir _ _ _ es) =>
                          if negb (real_component name) then go cur rest'
                          else if String.eqb name ".." then go (removelast cur) rest'
                          else
                            match find_entry name es with
                            | Some (Symlink _ target) => follow cur target rest'
                            | Some _ => go (cur ++ [name])%list rest'
                            | None =>
                                match rest' with
                                | [] => Missing cur name
                                | _ :: _ => Fails NoEntry
                                end
                            end
                      | Some _ => Fails NotDir
                      | None => Fails NoEntry
                      end
                  end) cur rest
             with
             | Found phys => phys = (cur ++ rest)%list /\ lstat root phys <> None
             | Missing parent name =>
                 (cur ++ rest)%list = (parent ++ [name])%list /\
                 (exists nm ino l es,
                     lstat root parent = Some (Dir nm ino l es) /\
                     find_entry name es = None) /\
                 lstat root (cur ++ rest)%list = None
             | Fails e => e <> Loop /\ lstat root (cur ++ rest)%list = None
             end) as Hgo.
  { intros follow. induction rest as [|name rest IH]; intros cur Hplain Hphys Hcur.
    - rewrite app_nil_r. split; [reflexivity|exact Hcur].
    - cbn [forallb] in Hplain. apply andb_true_iff in Hplain.
      destruct Hplain as [Hname Hplain].
      unfold plain in Hname. apply andb_true_iff in Hname.
      destruct Hname as [Hreal Hdd]. apply negb_true_iff in Hdd.
      destruct (lstat root cur) as [[nm c|nm ino l es|nm t]|] eqn:Hl;
        try (split; [discriminate|rewrite lstat_app, Hl; reflexivity]).
      + rewrite Hreal, Hdd. cbn [negb].
        pose proof (Hphys 1%nat ltac:(cbn [length]; lia)) as H1.
        cbn [firstn] in H1. rewrite lstat_app, Hl in H1. cbn [lstat] in H1.
        destruct (find_entry name es) as [[fn fc|dn dino dl des|sn st]|] eqn:Hf;
          cbn [not_a_link] in H1.
        * replace (cur ++ name :: rest)%list with ((cur ++ [name]) ++ rest)%list
            by (rewrite <- app_assoc; reflexivity).
          apply IH; [exact Hplain| |].
          -- intros k Hk. rewrite <- app_assoc. cbn [app].
             apply (Hphys (S k)). cbn [length]. lia.
          -- rewrite lstat_app, Hl. cbn [lstat]. rewrite Hf. discriminate.
        * replace (cur ++ name :: rest)%list with ((cur ++ [name]) ++ rest)%list
            by (rewrite <- app_assoc; reflexivity).
          apply IH; [exact Hplain| |].
          -- intros k Hk. rewrite <- app_assoc. cbn [app].
             apply (Hphys (S k)). cbn [length]. lia.
          -- rewrite lstat_app, Hl. cbn [lstat]. rewrite Hf. discriminate.
        * contradiction.
        * destruct rest as [|c2 rest].
          -- split; [reflexivity|]. split.
             ++ exists nm, ino, l, es. split; [exact Hl|exact Hf].
             ++ rewrite lstat_app, Hl. cbn [lstat]. rewrite Hf. reflexivity.
          -- split; [discriminate|].
             rewrite lstat_app, Hl. cbn [lstat]. rewrite Hf. reflexivity. }
  intros rest cur Hplain Hphys Hcur.
  destruct links as [|links]; cbn [namei].
  - apply (Hgo (fun _ _ _ => Fails Loop)); assumption.
  - apply (Hgo (fun cur target rest' =>
                  namei links root (if String.prefix "/" target then [] else cur)
                    (Py.split "/" target ++ rest')%list)); assumption.
Qed.

(** A path that [os.path.realpath] resolved in full is what [resolve]
    returns; it has no symlink among its components and neither [.] nor
    [..] - for a relative path when the current directory is itself such
    a path. *)
Lemma resolve_physical :
  forall (w : world) (p : Path) (resolved : list string),
    resolve w p = Some resolved ->
    resolved_in_full w p = true ->
    (is_absolute p = false ->
     physical (fs_root w) (cwd w) /\ forallb plain (cwd w) = true) ->
    physical (fs_root w) resolved /\ forallb plain resolved = true.
Proof.
  intros w p resolved H Hfull Hcwd.
  unfold resolve in H. unfold resolved_in_full in Hfull.
  unfold realpath in *.
  destruct (joinrealpath (link_depth w) (fs_root w)
              (if is_absolute p then [] else cwd w) (parts p) [])
    as [[[path ok] seen]|] eqn:Hj; [|discriminate].
  subst ok.
  apply joinrealpath_physical in Hj.
  - destruct Hj as (Hp1 & Hp2 & _).
    rewrite (normpath_plain path Hp2) in H.
    destruct (namei MAXSYMLINKS (fs_root w) [] path) as [phys|parent name|[| |]];
      try discriminate; injection H as <-; split; assumption.
  - destruct (is_absolute p); [apply physical_nil|apply Hcwd; reflexivity].
  - destruct (is_absolute p); [reflexivity|apply Hcwd; reflexivity].
  - constructor.
Qed.

(** [os.stat] of a path without a symlink, [.] or [..] finds the object
    at this very path. *)
Lemma stat_physical :
  forall (w : world) (p phys : list string) (n : node),
    stat w (abs_path p) = Some (phys, n) ->
    physical (fs_root w) p -> forallb plain p = true ->
    phys = p /\ lstat (fs_root w) p = Some n.
Proof.
  intros w p phys n H Hphys Hplain.
  unfold stat, stat_at in H. cbn [abs_path is_absolute parts] in H.
  pose proof (namei_physical MAXSYMLINKS (fs_root w) p [] Hplain Hphys
                ltac:(discriminate)) as Hn.
  destruct (namei MAXSYMLINKS (fs_root w) [] p) as [phys'|parent name|e];
    try discriminate.
  destruct Hn as [-> _]. cbn [app] in H.
  destruct (lstat (fs_root w) p) as [n'|] eqn:Hl; [|discriminate].
  injection H as <- <-. split; reflexivity.
Qed.

(** And it finds whatever is there. *)
Lemma stat_physical_found :
  forall (w : world) (p : list string) (n : node),
    lstat (fs_root w) p = Some n ->
    physical (fs_root w) p -> forallb plain p = true ->
    stat w (abs_path p) = Some (p, n).
Proof.
  intros w p n Hl Hphys Hplain.
  unfold stat, stat_at. cbn [abs_path is_absolute parts].
  pose proof (namei_physical MAXSYMLINKS (fs_root w) p [] Hplain Hphys
                ltac:(discriminate)) as Hn.
  cbn [app] in Hn.
  destruct (namei MAXSYMLINKS (fs_root w) [] p) as [phys'|parent name|e].
  - destruct Hn as [-> _]. rewrite Hl. reflexivity.
  - destruct Hn as (_ & _ & Hnone). rewrite Hl in Hnone. discriminate.
  - destruct Hn as [_ Hnone]. rewrite Hl in Hnone. discriminate.
Qed.

End ResolveFacts.
(* ===================================================================== *)
(** ** The path sandbox *)
(* ===================================================================== *)

Section SandboxFacts.
Import Posix Sandbox.

Variable w : world.

Lemma allowed_root_default : allowed_root w None = Some (WORKSPACE_ROOT w).
Proof. reflexivity. Qed.

(** What the containment test does: a requested path is refused with HTTP
    403 "Path outside allowed workspace root" when the path that
    [resolve] returns for it does not lie at or under the allowed root,
    component by component. *)
Lemma validate_safe_path_outside_root :
  forall (requested_path : string) (allowed_base : option string)
         (resolved allowed : list string),
    canonical w requested_path = Some resolved ->
    allowed_root w allowed_base = Some allowed ->
    is_relative_to resolved allowed = false ->
    validate_safe_path w requested_path allowed_base =
      HTTPException 403
        ("Path outside allowed workspace root: " ++ str (abs_path allowed)).
Proof.
  intros requested_path allowed_base resolved allowed Hres Hall Hrel.
  unfold validate_safe_path.
  rewrite Hres, Hall, Hrel.
  reflexivity.
Qed.

(** C7: a requested path that lies inside the allowed root but whose
    canonical text contains one of the denylisted substrings is refused
    with HTTP 403 "Access to system directories denied". *)
Theorem validate_safe_path_sensitive_location :
  forall (requested_path : string) (allowed_base : option string)
         (resolved allowed : list string) (pattern : string),
    canonical w requested_path = Some resolved ->
    allowed_root w allowed_base = Some allowed ->
    is_relative_to resolved allowed = true ->
    In pattern sensitive_patterns ->
    Py.contains pattern (str (abs_path resolved)) = true ->
    validate_safe_path w requested_path allowed_base =
      HTTPException 403 "Access to system directories denied".
Proof.
  intros requested_path allowed_base resolved allowed pattern
         Hres Hall Hrel Hin Hsub.
  unfold validate_safe_path.
  rewrite Hres, Hall, Hrel.
  cbn [negb].
  replace (existsb (fun pattern0 : string =>
                      Py.contains pattern0 (str (abs_path resolved)))
             sensitive_patterns) with true.
  - reflexivity.
  - symmetry. apply existsb_exists. exists pattern. split; assumption.
Qed.

(** A path is returned only when it is inside the root and free of the
    denylisted substrings. *)
Lemma validate_safe_path_ok :
  forall requested_path allowed_base p,
    validate_safe_path w requested_path allowed_base = Ok p ->
    exists resolved allowed,
      canonical w requested_path = Some resolved /\
      allowed_root w allowed_base = Some allowed /\
      is_relative_to resolved allowed = true /\
      p = abs_path resolved /\
      forall pattern, In pattern sensitive_patterns ->
        Py.contains pattern (str p) = false.
Proof.
  intros requested_path allowed_base p.
  unfold validate_safe_path.
  destruct (canonical w requested_path) as [resolved|]; [|discriminate].
  destruct (allowed_root w allowed_base) as [allowed|]; [|discriminate].
  destruct (is_relative_to resolved allowed) eqn:Hrel; cbn [negb];
    [|discriminate].
  destruct (existsb _ sensitive_patterns) eqn:Hs; [discriminate|].
  intros H. injection H as <-.
  exists resolved, allowed. repeat split; try assumption.
  intros pattern Hin.
  destruct (Py.contains pattern (str (abs_path resolved))) eqn:Hc; [|reflexivity].
  assert (existsb (fun pattern0 => Py.contains pattern0 (str (abs_path resolved)))
            sensitive_patterns = true) as Hex
    by (apply existsb_exists; exists pattern; split; assumption).
  rewrite Hex in Hs. discriminate.
Qed.

End SandboxFacts.

(** The symlink [/ws/out] leads to [/outside]: the request is refused
    although its text starts with the root. *)
Example outward_symlink_refused :
  Sandbox.validate_safe_path Samples.sandbox_world "/ws/out/secret" None =
    HTTPException 403 "Path outside allowed workspace root: /ws".
Proof.
  apply (validate_safe_path_outside_root Samples.sandbox_world
           "/ws/out/secret" None ["outside"; "secret"] ["ws"]);
    reflexivity.
Qed.

(** [..] segments are resolved before the comparison. *)
Example dotdot_escape_refused :
  Sandbox.validate_safe_path Samples.sandbox_world "/ws/../outside/secret" None =
    HTTPException 403 "Path outside allowed workspace root: /ws".
Proof. reflexivity. Qed.

(** A sibling whose name merely extends the root's text is outside. *)
Example sibling_prefix_refused :
  Sandbox.validate_safe_path Samples.sandbox_world "/ws-evil/x" None =
    HTTPException 403 "Path outside allowed workspace root: /ws".
Proof. reflexivity. Qed.

(** A path that leaves the root and comes back is accepted. *)
Example round_trip_accepted :
  Sandbox.validate_safe_path Samples.sandbox_world "/ws/out/../ws/a.txt" None =
    Ok (Posix.abs_path ["ws"; "a.txt"]).
Proof. reflexivity. Qed.

(** [/ws/proj/etc/conf] is inside the root and contains [/etc/]. *)
Lemma validate_safe_path_sensitive_location_witness :
  Sandbox.validate_safe_path Samples.sandbox_world "proj/etc/conf" None =
    HTTPException 403 "Access to system directories denied".
Proof.
  apply (validate_safe_path_sensitive_location Samples.sandbox_world
           "proj/etc/conf" None ["ws"; "proj"; "etc"; "conf"] ["ws"] "/etc/").
  - reflexivity.
  - reflexivity.
  - reflexivity.
  - simpl. left. reflexivity.
  - reflexivity.
Defined.

(** C1 asks that every path whose symlink-resolved form lies outside the
    root be refused.  [Path.resolve] stops resolving at a symlink loop
    and returns what is left of the path as it stands, [..] taken away
    by the text: for [/ws/loop/../out/secret], where [/ws/loop] points to
    itself, it returns [/ws/out/secret].  This is under the root, so the
    path is returned - and [/ws/out] is a symlink to [/outside]: the file
    the returned path leads to is [/outside/secret], the very file that
    is refused when it is requested as [/ws/out/secret]. *)
Theorem validate_safe_path_accepts_path_behind_loop :
  Sandbox.validate_safe_path Samples.loop_world "/ws/loop/../out/secret" None =
    Ok (Posix.abs_path ["ws"; "out"; "secret"]) /\
  Sandbox.loop_free Samples.loop_world "/ws/loop/../out/secret" = false /\
  Posix.stat Samples.loop_world (Posix.abs_path ["ws"; "out"; "secret"]) =
    Some (["outside"; "secret"], Posix.File "secret" (Some "s")) /\
  Posix.is_relative_to ["outside"; "secret"]
    (Posix.WORKSPACE_ROOT Samples.loop_world) = false /\
  Sandbox.validate_safe_path Samples.loop_world "/ws/out/secret" None =
    HTTPException 403 "Path outside allowed workspace root: /ws" /\
  Sandbox.validate_safe_path Samples.loop_world "/ws/loop" None =
    Raises "RuntimeError".
Proof. repeat split; reflexivity. Qed.

(* ===================================================================== *)
(** ** The stream translator *)
(* ===================================================================== *)

Section StreamFacts.
Import Stream.

Lemma no_error_app :
  forall evs1 evs2, no_error evs1 -> no_error evs2 -> no_error (evs1 ++ evs2)%list.
Proof.
  unfold no_error. intros evs1 evs2 H1 H2.
  rewrite forallb_app, H1, H2. reflexivity.
Qed.

(** A decoded chunk yields content and done events only. *)
Lemma on_chunk_no_error :
  forall chunk, no_error (fst (on_chunk chunk)).
Proof.
  intros chunk. unfold on_chunk.
  destruct (message_in chunk) as [e|[|]]; try reflexivity.
  - destruct (message_content chunk) as [e|content]; try reflexivity.
    destruct (chunk_done chunk) as [e|d];
      destruct (Json.truthy content); try destruct (Json.truthy d);
      reflexivity.
  - destruct (chunk_done chunk) as [e|d]; try destruct (Json.truthy d);
      reflexivity.
Qed.

Lemma on_lines_no_error :
  forall lines failure, no_error (fst (on_lines lines failure)).
Proof.
  induction lines as [|line rest IH]; intros failure; cbn [on_lines].
  - reflexivity.
  - destruct (String.eqb (Py.strip line) ""); [apply IH|].
    destruct (Json.loads line) as [chunk|]; [|apply IH].
    pose proof (on_chunk_no_error chunk) as Hc.
    destruct (on_chunk chunk) as [evs [e|]]; cbn [fst] in *.
    + exact Hc.
    + specialize (IH failure).
      destruct (on_lines rest failure) as [evs' r]; cbn [fst] in *.
      apply no_error_app; assumption.
Qed.

(** A line that does not decode is dropped wherever it stands. *)
Lemma on_lines_drops_undecodable :
  forall before bad after failure,
    Json.loads bad = None ->
    on_lines (before ++ bad :: after)%list failure =
    on_lines (before ++ after)%list failure.
Proof.
  induction before as [|line rest IH]; intros bad after failure Hbad;
    cbn [app on_lines].
  - rewrite Hbad. destruct (String.eqb (Py.strip bad) ""); reflexivity.
  - rewrite (IH bad after failure Hbad). reflexivity.
Qed.

(** After a chunk that raised nothing the loop goes on with the next
    line, whatever the chunk yielded. *)
Lemma on_lines_continues :
  forall line chunk evs rest failure,
    String.eqb (Py.strip line) "" = false ->
    Json.loads line = Some chunk ->
    on_chunk chunk = (evs, None) ->
    on_lines (line :: rest) failure =
      ((evs ++ fst (on_lines rest failure))%list, snd (on_lines rest failure)).
Proof.
  intros line chunk evs rest failure Hs Hl Hc.
  cbn [on_lines]. rewrite Hs, Hl, Hc.
  destruct (on_lines rest failure); reflexivity.
Qed.

(** The lines after a prefix that raised nothing are translated as if
    they began the stream, whatever the prefix yielded. *)
Lemma on_lines_app :
  forall before after failure,
    on_lines (before ++ after)%list failure =
      match on_lines before None with
      | (evs, Some e) => (evs, Some e)
      | (evs, None) =>
          ((evs ++ fst (on_lines after failure))%list,
           snd (on_lines after failure))
      end.
Proof.
  induction before as [|line rest IH]; intros after failure;
    cbn [app on_lines].
  - destruct (on_lines after failure); reflexivity.
  - destruct (String.eqb (Py.strip line) ""); [apply IH|].
    destruct (Json.loads line) as [chunk|]; [|apply IH].
    destruct (on_chunk chunk) as [evs [e|]]; [reflexivity|].
    rewrite IH.
    destruct (on_lines rest None) as [evs1 [e|]]; [reflexivity|].
    cbn [fst snd]. rewrite app_assoc. reflexivity.
Qed.

(** C6, as the code has it: the events of a stream are content and done
    events followed by at most one error event, which is then the last
    event of the stream; and a done event ends nothing: unless an
    exception ended the translation of the lines before them, the lines
    that follow are translated as if they began the stream. *)
Theorem generate_error_last :
  (forall b : backend,
      exists (evs tail : list StreamEvent),
        generate b = (evs ++ tail)%list /\
        no_error evs /\
        (tail = [] \/ exists msg, tail = [Error msg])) /\
  (forall status_text before after failure,
      generate (Response 200 status_text (before ++ after)%list failure) =
        match on_lines before None with
        | (evs, Some e) => (evs ++ [on_exception e])%list
        | (evs, None) =>
            (evs ++ generate (Response 200 status_text after failure))%list
        end).
Proof.
  split.
  - intros [e|status_code status_text lines failure]; cbn [generate].
    + exists [], [on_exception e]. repeat split.
      right. destruct e; eexists; reflexivity.
    + destruct (negb (is_success status_code)).
      * exists [], [on_exception (OtherError status_text)]. repeat split.
        right. eexists; reflexivity.
      * pose proof (on_lines_no_error lines failure) as Hn.
        destruct (on_lines lines failure) as [evs [e|]]; cbn [fst] in Hn.
        -- exists evs, [on_exception e]. repeat split; [exact Hn|].
           right. destruct e; eexists; reflexivity.
        -- exists evs, []. rewrite app_nil_r. repeat split; [exact Hn|].
           left. reflexivity.
  - intros status_text before after failure.
    cbn [generate]. replace (negb (is_success 200)) with false by reflexivity.
    cbv iota. rewrite on_lines_app.
    destruct (on_lines before None) as [evs [e|]]; [reflexivity|].
    destruct (on_lines after failure) as [evs' [e|]]; cbn [fst snd].
    + rewrite app_assoc. reflexivity.
    + reflexivity.
Qed.

End StreamFacts.

(** C6 as stated fails: a backend that keeps sending after its terminal
    increment gets every line translated, so two done events appear and
    a content event follows the first of them; and a connection reset
    after the terminal increment adds an error event to the done event. *)
Lemma generate_two_terminal_events :
  Stream.generate Samples.late_backend =
    [Stream.Done; Stream.Content (Json.Str "late"); Stream.Done] /\
  length (filter Stream.is_terminal (Stream.generate Samples.late_backend)) = 2 /\
  Stream.generate Samples.reset_backend =
    [Stream.Content (Json.Str "a"); Stream.Done;
     Stream.Error "Cannot connect to Ollama: connection reset"].
Proof. repeat split; vm_compute; reflexivity. Qed.

(** C8: the reference stream of a content line, a malformed line and a
    final line yields content "a", content "b" and done, in this order;
    the malformed line yields nothing and ends nothing, the events being
    those of the stream without it. *)
Theorem generate_reference_stream :
  forall status_text : string,
    Stream.generate (Stream.Response 200 status_text Samples.reference_lines None) =
      [Stream.Content (Json.Str "a"); Stream.Content (Json.Str "b"); Stream.Done] /\
    Stream.generate (Stream.Response 200 status_text Samples.reference_lines None) =
      Stream.generate
        (Stream.Response 200 status_text
           [nth 0 Samples.reference_lines ""; nth 2 Samples.reference_lines ""]
           None).
Proof. intros status_text. split; vm_compute; reflexivity. Qed.

(* ===================================================================== *)
(** ** Invariants of a walk *)
(* ===================================================================== *)

Section WalkFacts.
Import Posix Walk.

Context {S : Type}.
Variable w : world.
Variable body :
  S -> list string -> list string -> nat -> list string -> list string -> step S.

(** A property of the loop variables that every iteration keeps holds
    when the walk is over. *)
Lemma os_walk_invariant (I : S -> Prop) :
  (forall s phys rel ino dirs files_,
      I s -> I (step_state (body s phys rel ino dirs files_))) ->
  forall n phys rel acc,
    I (fst acc) -> I (fst (os_walk w body phys rel n acc)).
Proof.
  intros Hbody n.
  induction n as [nm content|nm target|nm ino listable es IH]
    using node_induction; intros phys rel acc Hacc; cbn [os_walk].
  - exact Hacc.
  - exact Hacc.
  - destruct listable; [|exact Hacc].
    destruct (snd acc); [exact Hacc|].
    pose proof (Hbody (fst acc) phys rel ino (dir_names w phys es)
                  (file_names w phys es) Hacc) as Hstep.
    destruct (body (fst acc) phys rel ino (dir_names w phys es)
                (file_names w phys es)) as [s' dirs'|s']; cbn [step_state] in Hstep.
    + assert (I (fst (s', false))) as Hstart by exact Hstep.
      generalize dependent (s', false).
      clear Hstep Hacc.
      induction IH as [|e l He Hl IHl]; intros acc' Hacc'.
      * exact Hacc'.
      * apply IHl.
        destruct e as [? ?|nm' ? ? ?|? ?]; try exact Hacc'.
        destruct (Py.mem nm' dirs'); [|exact Hacc'].
        apply He. exact Hacc'.
    + exact Hstep.
Qed.

Lemma for_os_walk_invariant (I : S -> Prop) :
  (forall s phys rel ino dirs files_,
      I s -> I (step_state (body s phys rel ino dirs files_))) ->
  forall top s, I s -> I (for_os_walk w body top s).
Proof.
  intros Hbody top s Hs. unfold for_os_walk.
  destruct (stat w (Path_of top)) as [[phys n]|]; [|exact Hs].
  apply os_walk_invariant; assumption.
Qed.

(** A directory that holds files only yields no [dirs], and the walk
    does not go below it. *)
Lemma names_of_files :
  forall phys es,
    forallb is_file es = true ->
    dir_names w phys es = [] /\ file_names w phys es = map node_name es.
Proof.
  intros phys. unfold dir_names, file_names.
  induction es as [|e es IH]; intros Hall; [split; reflexivity|].
  cbn [forallb] in Hall. apply andb_true_iff in Hall. destruct Hall as [He Hes].
  destruct (IH Hes) as [IHd IHf].
  destruct e; try discriminate.
  cbn [map filter entry_is_dir negb node_name].
  split; [exact IHd|]. f_equal. exact IHf.
Qed.

Lemma descend_over_files :
  forall phys rel dirs' es (a : S * bool),
    forallb is_file es = true ->
    (fix descend (l : list node) (acc : S * bool) {struct l} : S * bool :=
       match l with
       | [] => acc
       | e :: l' =>
           descend l'
             (match e with
              | Dir nm _ _ _ =>
                  if Py.mem nm dirs'
                  then os_walk w body (phys ++ [nm])%list (rel ++ [nm])%list e acc
                  else acc
              | _ => acc
              end)
       end) es a = a.
Proof.
  intros phys rel dirs'.
  induction es as [|e es IH]; intros a Hall; [reflexivity|].
  cbn [forallb] in Hall. apply andb_true_iff in Hall. destruct Hall as [He Hes].
  destruct e; try discriminate. apply IH. exact Hes.
Qed.

End WalkFacts.

(* ===================================================================== *)
(** ** The workspace scanner *)
(* ===================================================================== *)

Section ScannerFacts.
Import Posix Walk Scanner.

Lemma bounded_empty : bounded empty_structure.
Proof.
  unfold bounded, empty_structure; cbn.
  repeat split; try apply Nat.le_0_l. discriminate.
Qed.

Lemma bounded_add_directory :
  forall rel_root s,
    (total_files s < MAX_FILES)%nat -> bounded s ->
    bounded (add_directory rel_root s) /\
    (total_files (add_directory rel_root s) < MAX_FILES)%nat.
Proof.
  intros rel_root s Hlt (Hf & Hfl & Hd & Hdl & Ht).
  unfold add_directory.
  destruct (negb (String.eqb rel_root ".")); [|unfold bounded; auto 10].
  destruct (Nat.ltb_spec (total_dirs s) MAX_DIRS) as [Hd'|Hd'];
    [|unfold bounded; auto 10].
  unfold bounded; cbn [files directories total_files total_dirs truncated].
  rewrite length_app; cbn [length].
  repeat split; try lia.
  intros Htr. specialize (Ht Htr). lia.
Qed.

Lemma bounded_add_file :
  forall rel_root s file,
    truncated s = false -> bounded s ->
    bounded (add_file rel_root s file) /\
    truncated (add_file rel_root s file) = false.
Proof.
  intros rel_root s file Htr (Hf & Hfl & Hd & Hdl & Ht).
  unfold add_file.
  destruct (Nat.ltb_spec (total_files s) MAX_FILES) as [Hlt|Hge];
    [|unfold bounded; auto 10].
  unfold bounded; cbn [files directories total_files total_dirs truncated].
  rewrite length_app; cbn [length].
  repeat split; try lia; try assumption.
  rewrite Htr. discriminate.
Qed.

Lemma bounded_add_files :
  forall rel_root files_ s,
    truncated s = false -> bounded s ->
    bounded (fold_left (add_file rel_root) files_ s).
Proof.
  induction files_ as [|file rest IH]; intros s Htr Hb; cbn [fold_left].
  - exact Hb.
  - destruct (bounded_add_file rel_root s file Htr Hb) as [Hb' Htr'].
    apply IH; assumption.
Qed.

Lemma truncated_add_directory :
  forall rel_root s, truncated (add_directory rel_root s) = truncated s.
Proof.
  intros rel_root s. unfold add_directory.
  destruct (negb (String.eqb rel_root ".")); [|reflexivity].
  destruct (total_dirs s <? MAX_DIRS)%nat; reflexivity.
Qed.

(** Every iteration of the scan loop keeps the counters within the
    ceilings. *)
Lemma scan_body_bounded :
  forall max_depth st phys rel inode dirs files_,
    bounded (st_structure st) ->
    bounded (st_structure
               (step_state (scan_body max_depth st phys rel inode dirs files_))).
Proof.
  intros max_depth st phys rel inode dirs files_ Hb.
  unfold scan_body.
  destruct ((MAX_FILES <=? total_files (st_structure st))%nat
            || (MAX_DIRS <=? total_dirs (st_structure st))%nat) eqn:Hceil;
    cbn [step_state log st_structure].
  - destruct Hb as (Hf & Hfl & Hd & Hdl & Ht).
    unfold bounded, set_truncated;
      cbn [files directories total_files total_dirs truncated].
    repeat split; try assumption.
    intros _. apply orb_true_iff in Hceil.
    destruct Hceil as [H|H]; apply Nat.leb_le in H; lia.
  - apply orb_false_iff in Hceil. destruct Hceil as [Hfi Hdi].
    apply Nat.leb_gt in Hfi. apply Nat.leb_gt in Hdi.
    assert (truncated (st_structure st) = false) as Htr.
    { destruct Hb as (_ & _ & _ & _ & Ht).
      destruct (truncated (st_structure st)); [|reflexivity].
      destruct (Ht eq_refl); lia. }
    destruct (existsb (Nat.eqb inode) (seen_inodes st));
      cbn [step_state log st_structure]; [exact Hb|].
    destruct (max_depth <=? Z.of_nat (length rel))%Z;
      cbn [step_state log st_structure]; [exact Hb|].
    destruct (bounded_add_directory (rel_root_of rel) (st_structure st) Hfi Hb)
      as [Hb1 _].
    apply bounded_add_files; [|exact Hb1].
    rewrite truncated_add_directory. exact Htr.
Qed.

Lemma scan_run_bounded :
  forall w workspace_path max_depth,
    bounded (st_structure (scan_run w workspace_path max_depth)).
Proof.
  intros w workspace_path max_depth. unfold scan_run.
  destruct (negb (exists_ w (Path_of workspace_path))).
  - exact bounded_empty.
  - apply (for_os_walk_invariant w (scan_body max_depth)
             (fun st => bounded (st_structure st))).
    + intros; apply scan_body_bounded; assumption.
    + exact bounded_empty.
Qed.

(** What the ceilings do ensure: whatever the tree, the scan returns at
    most [MAX_FILES] file paths and [MAX_DIRS] directory paths, the
    totals are the lengths of the two lists, and [truncated] is raised
    only when one of the two lists is exactly at its ceiling. *)
Lemma scan_within_ceilings :
  forall (w : world) (workspace_path : string) (max_depth : Z),
    let s := scan_workspace_structure w workspace_path max_depth in
    (length (files s) <= MAX_FILES)%nat /\
    total_files s = length (files s) /\
    (length (directories s) <= MAX_DIRS)%nat /\
    total_dirs s = length (directories s) /\
    (truncated s = true ->
     length (files s) = MAX_FILES \/ length (directories s) = MAX_DIRS).
Proof.
  intros w workspace_path max_depth s.
  destruct (scan_run_bounded w workspace_path max_depth)
    as (Hf & Hfl & Hd & Hdl & Ht).
  fold (scan_workspace_structure w workspace_path max_depth) in Hf, Hfl, Hd, Hdl, Ht.
  fold s in Hf, Hfl, Hd, Hdl, Ht.
  repeat split; try lia.
  intros Htr. specialize (Ht Htr). lia.
Qed.

End ScannerFacts.

Section ScannerIdentity.
Import Posix Walk Scanner.

Lemma listed_inodes_log :
  forall v st s seen,
    listed_inodes (log v st s seen) =
      (listed_inodes st ++ (if is_listed v then [v_ino v] else []))%list.
Proof.
  intros v st s seen. unfold listed_inodes, log; cbn [visited].
  rewrite filter_app, map_app. cbn [filter].
  destruct (is_listed v); reflexivity.
Qed.

Lemma not_seen :
  forall inode seen,
    existsb (Nat.eqb inode) seen = false -> ~ In inode seen.
Proof.
  intros inode seen H Hin.
  assert (existsb (Nat.eqb inode) seen = true) as Ht.
  { apply existsb_exists. exists inode. split; [exact Hin|apply Nat.eqb_refl]. }
  rewrite Ht in H. discriminate.
Qed.

Lemma scan_body_once :
  forall max_depth st phys rel inode dirs files_,
    once st ->
    once (step_state (scan_body max_depth st phys rel inode dirs files_)).
Proof.
  intros max_depth st phys rel inode dirs files_ (Hs & Hi & Hl).
  unfold scan_body.
  destruct ((MAX_FILES <=? total_files (st_structure st))%nat
            || (MAX_DIRS <=? total_dirs (st_structure st))%nat);
    cbn [step_state].
  { unfold once. rewrite listed_inodes_log. cbn [is_listed v_action].
    rewrite app_nil_r. cbn [log seen_inodes]. auto. }
  destruct (existsb (Nat.eqb inode) (seen_inodes st)) eqn:Hseen;
    cbn [step_state].
  { unfold once. rewrite listed_inodes_log. cbn [is_listed v_action].
    rewrite app_nil_r. cbn [log seen_inodes]. auto. }
  apply not_seen in Hseen.
  destruct (max_depth <=? Z.of_nat (length rel))%Z; cbn [step_state];
    unfold once; rewrite listed_inodes_log; cbn [is_listed v_action v_ino];
    cbn [log seen_inodes].
  - rewrite app_nil_r. repeat split.
    + constructor; assumption.
    + apply incl_tl. exact Hi.
    + exact Hl.
  - repeat split.
    + constructor; assumption.
    + intros x Hx. apply in_app_or in Hx. destruct Hx as [Hx|[Hx|[]]].
      * right. apply Hi. exact Hx.
      * left. exact Hx.
    + apply NoDup_app; [exact Hl|constructor; [intros []|constructor]|].
      intros x Hx [Hx'|[]]. subst x. apply Hseen, Hi, Hx.
Qed.

(** X16: the scan records a directory only the first time it meets its
    inode number: the directories it listed have pairwise distinct inode
    numbers, whatever the tree and however often one of them is reached. *)
Lemma scan_records_inode_once :
  forall w workspace_path max_depth,
    NoDup (listed_inodes (scan_run w workspace_path max_depth)).
Proof.
  intros w workspace_path max_depth.
  assert (once (scan_run w workspace_path max_depth)) as (_ & _ & H);
    [|exact H].
  unfold scan_run.
  assert (once initial_state) as H0.
  { unfold once, listed_inodes, initial_state; cbn.
    repeat split; try constructor. intros x []. }
  destruct (negb (exists_ w (Path_of workspace_path))); [exact H0|].
  apply (for_os_walk_invariant w (scan_body max_depth) once);
    [intros; apply scan_body_once; assumption|exact H0].
Qed.

End ScannerIdentity.

(** C5 asks that a directory whose physical identity was already seen be
    never descended into.  On a physical directory which is mounted a
    second time the scan takes [z], whose inode number it has met at
    [a/b/c/X], for seen and records neither it nor its file - and then
    goes down into it and records what lies below. *)
Theorem scan_descends_below_seen_directory :
  let st := Scanner.scan_run Samples.bind_mount_world "/ws" 4 in
  Scanner.directories (Scanner.st_structure st) = ["a"; "a/b"; "a/b/c"; "z/s"] /\
  Scanner.files (Scanner.st_structure st) = ["z/s/f.txt"] /\
  map (fun v => (Scanner.rel_root_of (Scanner.v_rel v), Scanner.v_ino v,
                 Scanner.v_action v))
      (Scanner.visited st) =
    [ (".", 10, Scanner.Listed);
      ("a", 11, Scanner.Listed);
      ("a/b", 12, Scanner.Listed);
      ("a/b/c", 13, Scanner.Listed);
      ("a/b/c/X", 50, Scanner.DepthPruned);
      ("z", 50, Scanner.SkippedSeen);
      ("z/s", 51, Scanner.Listed) ].
Proof. repeat split; vm_compute; reflexivity. Qed.

Section ScannerFlag.
Import Posix Walk Scanner.

Lemma truncated_add_files :
  forall rel_root files_ s,
    truncated (fold_left (add_file rel_root) files_ s) = truncated s.
Proof.
  intros rel_root. induction files_ as [|file rest IH]; intros s; cbn [fold_left].
  - reflexivity.
  - rewrite IH. unfold add_file.
    destruct (total_files s <? MAX_FILES)%nat; reflexivity.
Qed.




Lemma add_files_count :
  forall rel_root files_ s,
    length (files s) = total_files s ->
    (total_files s <= MAX_FILES)%nat ->
    length (files (fold_left (add_file rel_root) files_ s)) =
      Nat.min (total_files s + length files_) MAX_FILES.
Proof.
  intros rel_root. induction files_ as [|file rest IH]; intros s Hlen Hle;
    cbn [fold_left length].
  - rewrite Nat.add_0_r, Hlen. lia.
  - unfold add_file at 2.
    destruct (Nat.ltb_spec (total_files s) MAX_FILES) as [Hlt|Hge].
    + rewrite IH; cbn [files total_files].
      * lia.
      * rewrite length_app. cbn [length]. lia.
      * lia.
    + rewrite IH by assumption. lia.
Qed.

Lemma numbered_are_files :
  forall n, forallb is_file (Samples.numbered_files n) = true.
Proof.
  intros n. unfold Samples.numbered_files.
  induction (seq 1 n) as [|i l IH]; [reflexivity|exact IH].
Qed.

(** A ceiling reached in the last directory of the walk goes unnoticed:
    a workspace whose top directory alone holds [n] files is scanned to
    [MAX_FILES] of them at most, and [truncated] stays unset whatever
    [n] is. *)
Lemma scan_flat_directory_not_flagged :
  forall n,
    let s := scan_workspace_structure (Samples.flat_world n) "/ws" 4 in
    length (files s) = Nat.min n MAX_FILES /\ truncated s = false.
Proof.
  intros n. unfold scan_workspace_structure, scan_run, exists_, for_os_walk.
  replace (stat (Samples.flat_world n) (Path_of "/ws"))
    with (Some (["ws"], Dir "ws" 10 true (Samples.numbered_files n)))
    by reflexivity.
  cbn [negb os_walk snd fst].
  destruct (names_of_files (Samples.flat_world n) ["ws"] _
              (numbered_are_files n)) as [Hd Hf].
  rewrite Hd, Hf. unfold scan_body.
  replace ((MAX_FILES <=? total_files (st_structure initial_state))%nat
           || (MAX_DIRS <=? total_dirs (st_structure initial_state))%nat)
    with false by (vm_compute; reflexivity).
  cbn [initial_state seen_inodes existsb length Z.of_nat Z.leb Z.compare
       filter rel_root_of str is_absolute parts add_directory String.eqb negb].
  rewrite descend_over_files by apply numbered_are_files.
  cbn [fst log st_structure]. split.
  - rewrite add_files_count; cbn [empty_structure files total_files length].
    + rewrite length_map. unfold Samples.numbered_files.
      rewrite length_map, length_seq. reflexivity.
    + reflexivity.
    + apply Nat.le_0_l.
  - rewrite truncated_add_files. reflexivity.
Qed.

End ScannerFlag.

Section FullDirectory.
Import Posix Scanner.

Lemma count_numbered_files :
  forall n, Samples.count_files (Samples.flat_fs n) = n.
Proof.
  intros n. unfold Samples.flat_fs, Samples.numbered_files.
  cbn [Samples.count_files]. rewrite Nat.add_0_r.
  assert (forall l : list nat,
             (fix sum (l0 : list node) : nat :=
                match l0 with
                | [] => 0
                | e :: l' => Samples.count_files e + sum l'
                end)
               (map (fun i => File ("f" ++ Py.str_of_nat i) (Some "")) l)
             = length l) as H.
  { induction l as [|i l IH]; [reflexivity|].
    cbn [map length Samples.count_files]. rewrite IH. reflexivity. }
  rewrite H. apply length_seq.
Qed.

(** C4 asks that a tree with more files than [MAX_FILES] be scanned to
    exactly [MAX_FILES] files with [truncated] set.  The ceiling is
    looked at only when the walk hands over the next directory: a
    workspace whose more than [MAX_FILES] files all lie in its top
    directory is scanned to [MAX_FILES] of them, the others are dropped
    one by one in the inner loop, the walk has no directory left, and
    [truncated] stays unset. *)
Theorem scan_full_directory_not_truncated :
  forall n : nat,
    let s := scan_workspace_structure
               (Samples.flat_world (MAX_FILES + S n)) "/ws" 4 in
    Samples.count_files (Samples.flat_fs (MAX_FILES + S n)) =
      (MAX_FILES + S n)%nat /\
    length (files s) = MAX_FILES /\
    total_files s = MAX_FILES /\
    truncated s = false.
Proof.
  intros n.
  pose proof (Nat.le_add_r MAX_FILES (S n)) as Hle.
  generalize dependent (MAX_FILES + S n)%nat. intros m Hle s.
  destruct (scan_flat_directory_not_flagged m) as [Hlen Htr].
  fold s in Hlen, Htr.
  destruct (scan_run_bounded (Samples.flat_world m) "/ws" 4) as (Hf & _).
  fold (scan_workspace_structure (Samples.flat_world m) "/ws" 4) in Hf.
  fold s in Hf.
  assert (length (files s) = MAX_FILES) as Hmax.
  { rewrite Hlen. apply Nat.min_r. exact Hle. }
  split; [apply count_numbered_files|].
  split; [exact Hmax|].
  split; [rewrite <- Hf; exact Hmax|exact Htr].
Qed.

End FullDirectory.

Section MissingWorkspace.
Import Posix Walk Scanner.

Lemma scan_empty_directory :
  forall w workspace_path max_depth phys nm ino listable,
    stat w (Path_of workspace_path) = Some (phys, Dir nm ino listable []) ->
    scan_workspace_structure w workspace_path max_depth = empty_structure.
Proof.
  intros w workspace_path max_depth phys nm ino listable Hstat.
  unfold scan_workspace_structure, scan_run, exists_, for_os_walk.
  rewrite Hstat. cbn [negb os_walk].
  destruct listable; [|reflexivity].
  cbn [snd fst dir_names file_names filter map].
  unfold scan_body.
  replace ((MAX_FILES <=? total_files (st_structure initial_state))%nat
           || (MAX_DIRS <=? total_dirs (st_structure initial_state))%nat)
    with false by (vm_compute; reflexivity).
  cbn [initial_state seen_inodes existsb length Z.of_nat].
  destruct (max_depth <=? 0)%Z; reflexivity.
Qed.

(** C10: for a workspace path that does not exist the scan returns the
    empty structure and raises nothing; it is the very value returned for
    a workspace that exists and is an empty directory. *)
Theorem scan_missing_workspace_is_empty :
  forall (w : world) (workspace_path : string) (max_depth : Z),
    exists_ w (Path_of workspace_path) = false ->
    scan_workspace_structure w workspace_path max_depth =
      {| directories := []; files := []; total_files := 0; total_dirs := 0;
         truncated := false |} /\
    forall w' workspace_path' phys nm ino listable,
      stat w' (Path_of workspace_path') = Some (phys, Dir nm ino listable []) ->
      scan_workspace_structure w' workspace_path' max_depth =
      scan_workspace_structure w workspace_path max_depth.
Proof.
  intros w workspace_path max_depth Hmissing.
  assert (scan_workspace_structure w workspace_path max_depth = empty_structure)
    as Hempty.
  { unfold scan_workspace_structure, scan_run. rewrite Hmissing. reflexivity. }
  split; [exact Hempty|].
  intros w' workspace_path' phys nm ino listable Hstat.
  rewrite Hempty. eapply scan_empty_directory. exact Hstat.
Qed.

End MissingWorkspace.

(** [/ws/nowhere] does not exist; [/ws/empty] is an empty directory. *)
Lemma scan_missing_workspace_is_empty_witness :
  Scanner.scan_workspace_structure Samples.sandbox_world "/ws/nowhere" 4 =
    Scanner.empty_structure /\
  Scanner.scan_workspace_structure Samples.sandbox_world "/ws/empty" 4 =
    Scanner.scan_workspace_structure Samples.sandbox_world "/ws/nowhere" 4.
Proof.
  destruct (scan_missing_workspace_is_empty Samples.sandbox_world
              "/ws/nowhere" 4 eq_refl) as [Hempty Hsame].
  split.
  - exact Hempty.
  - apply (Hsame Samples.sandbox_world "/ws/empty" ["ws"; "empty"] "empty" 15 true).
    reflexivity.
Defined.

(* ===================================================================== *)
(** ** The tool dispatcher *)
(* ===================================================================== *)

Section DispatcherFacts.
Import Posix Tools.

Variable w : world.
Variable ollama : model_client.

(** Whatever the request, the dispatcher answers with a success body or
    with status 400: no workspace path is ever refused. *)
Lemma run_tool_outcomes :
  forall request,
    (exists r, snd (run_tool w ollama request) =
                 Ok {| success := true; tool := toolName request; tool_result := r |}) \/
    (exists detail, snd (run_tool w ollama request) = HTTPException 400 detail).
Proof.
  intros request. unfold run_tool.
  destruct (String.eqb (model request) "");
    [right; eexists; reflexivity|].
  repeat (match goal with
          | |- context [if String.eqb ?a ?b then _ else _] =>
              destruct (String.eqb a b); [left; eexists; reflexivity|]
          end).
  right; eexists; reflexivity.
Qed.

(** The text the model client returns is what the handler's caller gets,
    also when it reports a failure. *)
Lemma run_ollama_model_failure :
  forall model prompt msg,
    ollama model prompt = CallFails msg ->
    snd (run_ollama_model ollama model prompt) = "Error calling model: " ++ msg.
Proof.
  intros model prompt msg H. unfold run_ollama_model; cbn [snd].
  rewrite H. reflexivity.
Qed.

Lemma run_ollama_model_bad_status :
  forall model prompt status_code response,
    ollama model prompt = Reply status_code response ->
    status_code <> 200%nat ->
    snd (run_ollama_model ollama model prompt) =
      "Error: Model returned status " ++ Py.str_of_nat status_code.
Proof.
  intros model prompt status_code response H Hne.
  unfold run_ollama_model; cbn [snd]. rewrite H.
  destruct (Nat.eqb_spec status_code 200); [contradiction|reflexivity].
Qed.

(** A workspace summary is requested while the model call fails: the
    failure text comes back inside a success body. *)
Lemma summarize_masks_failure :
  forall workspace_path model_name msg,
    model_name <> "" ->
    (forall prompt, ollama model_name prompt = CallFails msg) ->
    snd (run_tool w ollama
           {| toolName := "summarize_workspace"; workspacePath := workspace_path;
              activeSheetData := None; model := model_name |}) =
      Ok {| success := true; tool := "summarize_workspace";
            tool_result := "Error calling model: " ++ msg |}.
Proof.
  intros workspace_path model_name msg Hm Hfail.
  unfold run_tool; cbn [model toolName workspacePath].
  destruct (String.eqb_spec model_name ""); [contradiction|].
  cbn [String.eqb Ascii.eqb Bool.eqb].
  unfold tool_summarize_workspace, run_ollama_model.
  rewrite Hfail. reflexivity.
Qed.

End DispatcherFacts.

(** C2 asks that a tool run on a workspace path outside the authorized
    root be rejected by the sandbox before any walk or model call.  On the
    request of the security test - [list_files] on [/outside] while the
    workspace root is [/allowed] - the sandbox would refuse the path, but
    the dispatcher never asks it: the directory is walked, its file is
    put into the prompt, the model is called, and the answer is a success
    body. *)
Theorem run_tool_walks_outside_root :
  Sandbox.validate_safe_path Samples.guard_world "/outside" None =
    HTTPException 403 "Path outside allowed workspace root: /allowed" /\
  exists prompt,
    Py.contains "outside.txt" prompt = true /\
    Tools.run_tool Samples.guard_world Samples.healthy_model
      {| Tools.toolName := "list_files"; Tools.workspacePath := "/outside";
         Tools.activeSheetData := None; Tools.model := "dummy-model" |} =
      ([Tools.FsWalk "/outside"; Tools.ModelCall "dummy-model" prompt],
       Ok {| Tools.success := true; Tools.tool := "list_files";
             Tools.tool_result := "A tidy project." |}).
Proof.
  split; [reflexivity|].
  eexists. split; [|vm_compute; reflexivity].
  vm_compute. reflexivity.
Qed.

(** C3 asks that a failed model call be surfaced as an error and never
    wrapped in a success body.  On the request of the model-failure test -
    a workspace summary while the model backend is unreachable, or answers
    500 - both failures come back as the [result] text of a body with
    [success] set. *)
Theorem run_tool_masks_model_failure :
  snd (Tools.run_tool Samples.guard_world Samples.unreachable_model
         {| Tools.toolName := "summarize_workspace";
            Tools.workspacePath := "/allowed";
            Tools.activeSheetData := None; Tools.model := "dummy-model" |}) =
    Ok {| Tools.success := true; Tools.tool := "summarize_workspace";
          Tools.tool_result :=
            "Error calling model: All connection attempts failed" |} /\
  snd (Tools.run_tool Samples.guard_world Samples.failing_model
         {| Tools.toolName := "summarize_workspace";
            Tools.workspacePath := "/allowed";
            Tools.activeSheetData := None; Tools.model := "dummy-model" |}) =
    Ok {| Tools.success := true; Tools.tool := "summarize_workspace";
          Tools.tool_result := "Error: Model returned status 500" |}.
Proof. split; vm_compute; reflexivity. Qed.

(* ===================================================================== *)
(** ** Bounded reads of the handlers *)
(* ===================================================================== *)

Section WalkPhases.
Import Posix Walk.

Context {S : Type}.
Variable w : world.
Variable body :
  S -> list string -> list string -> nat -> list string -> list string -> step S.


End WalkPhases.

Section PreviewFacts.

Lemma length_take : forall n s, (String.length (Py.take n s) <= n)%nat.
Proof.
  unfold Py.take.
  induction n as [|n IH]; intros s.
  - destruct s; cbn; lia.
  - destruct s as [|c s]; cbn; [lia|].
    specialize (IH s). lia.
Qed.

Lemma count_char_take :
  forall c n s, (Py.count_char c (Py.take n s) <= Py.count_char c s)%nat.
Proof.
  unfold Py.take. intros c.
  induction n as [|n IH]; intros s.
  - destruct s; cbn; lia.
  - destruct s as [|c' s]; cbn; [lia|].
    specialize (IH s). lia.
Qed.

Lemma count_char_append :
  forall c s1 s2,
    Py.count_char c (s1 ++ s2) = Py.count_char c s1 + Py.count_char c s2.
Proof.
  intros c s1 s2. induction s1 as [|c' s1 IH]; cbn.
  - reflexivity.
  - rewrite IH. lia.
Qed.

Lemma split_aux_pieces :
  forall sep s cur,
    Py.count_char sep cur = 0 ->
    Forall (fun piece => Py.count_char sep piece = 0) (Py.split_aux sep cur s).
Proof.
  intros sep. induction s as [|c s IH]; intros cur Hcur; cbn [Py.split_aux].
  - constructor; [exact Hcur|constructor].
  - destruct (Ascii.eqb c sep) eqn:Heq.
    + constructor; [exact Hcur|]. apply IH. reflexivity.
    + apply IH. rewrite count_char_append, Hcur. cbn. rewrite Heq. reflexivity.
Qed.

Lemma count_char_join :
  forall sep l,
    Forall (fun piece => Py.count_char sep piece = 0) l ->
    Py.count_char sep (Py.join (String sep EmptyString) l) = pred (length l).
Proof.
  intros sep l H. unfold Py.join.
  induction H as [|x l Hx Hl IH]; [reflexivity|].
  destruct l as [|y l'].
  - cbn. exact Hx.
  - change (String.concat (String sep "") (x :: y :: l'))
      with (x ++ String sep "" ++ String.concat (String sep "") (y :: l')).
    rewrite !count_char_append, Hx, IH. cbn. rewrite Ascii.eqb_refl. lia.
Qed.

Lemma Forall_firstn_keep :
  forall (A : Type) (P : A -> Prop) n (l : list A),
    Forall P l -> Forall P (firstn n l).
Proof.
  intros A P n. induction n as [|n IH]; intros l H; cbn.
  - constructor.
  - destruct H; constructor; auto.
Qed.

(** What is kept of a file has at most 2000 characters and 50 lines. *)
Lemma preview_of_ok : forall content, Tools.preview_ok (Tools.preview_of content).
Proof.
  intros content. unfold Tools.preview_ok, Tools.preview_of. split.
  - apply length_take.
  - eapply Nat.le_trans; [apply count_char_take|].
    unfold Tools.nl. rewrite count_char_join.
    + pose proof (firstn_le_length 50
                    (Py.split (ascii_of_nat 10) content)) as Hlen.
      lia.
    + apply Forall_firstn_keep. apply split_aux_pieces. reflexivity.
Qed.

End PreviewFacts.

Section SampleFacts.
Import Posix Walk Tools.

Variable w : world.






End SampleFacts.

Section UnboundedReads.
Import Posix Walk Tools Samples.





Variable content : string.










End UnboundedReads.



(* ===================================================================== *)
(** ** More on the path sandbox *)
(* ===================================================================== *)

Section SandboxMore.
Import Posix Sandbox.

Lemma prefix_append : forall p s, String.prefix p (p ++ s) = true.
Proof.
  induction p as [|a p IH]; intros s; cbn.
  - destruct s; reflexivity.
  - destruct (ascii_dec a a) as [_|Hne]; [apply IH|contradiction].
Qed.

Lemma contains_prefix :
  forall p s, String.prefix p s = true -> Py.contains p s = true.
Proof. intros p s H. destruct s; cbn [Py.contains]; rewrite H; reflexivity. Qed.

Lemma contains_cons :
  forall p a s, Py.contains p s = true -> Py.contains p (String a s) = true.
Proof.
  intros p a s H. cbn [Py.contains].
  destruct (String.prefix p (String a s)); [reflexivity|exact H].
Qed.

Lemma contains_middle :
  forall pre p post, Py.contains p (pre ++ p ++ post) = true.
Proof.
  induction pre as [|a pre IH]; intros p post.
  - cbn [append]. apply contains_prefix, prefix_append.
  - cbn [append]. apply contains_cons, IH.
Qed.

Lemma append_assoc :
  forall s1 s2 s3 : string, (s1 ++ s2) ++ s3 = s1 ++ (s2 ++ s3).
Proof.
  induction s1 as [|a s1 IH]; intros s2 s3; cbn; [|rewrite IH]; reflexivity.
Qed.

(** A component followed by another one stands between two slashes in
    the text of the path. *)
Lemma str_has_component :
  forall before c next after,
    exists pre post,
      str (abs_path (before ++ c :: next :: after)) =
        pre ++ ("/" ++ c ++ "/") ++ post.
Proof.
  intros before c next after. unfold str, abs_path; cbn [is_absolute parts].
  unfold Py.join.
  induction before as [|a before (pre & post & IH)].
  - exists "", (String.concat "/" (next :: after)).
    cbn [app String.concat]. cbn [append]. rewrite !append_assoc. reflexivity.
  - exists ("/" ++ a ++ pre), post.
    cbn [app].
    assert (String.concat "/" (a :: before ++ c :: next :: after) =
            a ++ "/" ++ String.concat "/" (before ++ c :: next :: after)) as ->
      by (destruct before; reflexivity).
    rewrite IH, !append_assoc. reflexivity.
Qed.

Lemma is_relative_to_split :
  forall allowed resolved,
    is_relative_to resolved allowed = true ->
    exists rest, resolved = (allowed ++ rest)%list.
Proof.
  induction allowed as [|o allowed IH]; intros resolved H.
  - exists resolved. reflexivity.
  - destruct resolved as [|c resolved]; [discriminate|].
    cbn in H. apply andb_true_iff in H. destruct H as [Hc Hr].
    apply String.eqb_eq in Hc. subst c.
    destruct (IH resolved Hr) as [rest ->]. exists rest. reflexivity.
Qed.

Lemma sensitive_name_pattern :
  forall c, In c Main.sensitive_names -> In ("/" ++ c ++ "/") sensitive_patterns.
Proof.
  intros c H. cbn in H.
  repeat (destruct H as [<-|H]; [cbn; tauto|]). destruct H.
Qed.

(** The canonical form of a request whose resolution met no symlink loop
    is a path without a symlink, [.] or [..], for a current directory
    that is itself such a path. *)
Lemma canonical_physical :
  forall (w : world) (s : string) (resolved : list string),
    canonical w s = Some resolved ->
    loop_free w s = true ->
    physical (fs_root w) (cwd w) ->
    forallb plain (cwd w) = true ->
    physical (fs_root w) resolved /\ forallb plain resolved = true.
Proof.
  intros w s resolved Hres Hfree Hphys Hplain.
  unfold canonical in Hres. unfold loop_free in Hfree.
  destruct (expanduser w (Path_of s)) as [q|]; [|discriminate].
  apply (resolve_physical w q resolved Hres Hfree).
  intros _. split; assumption.
Qed.

(** What the sandbox returns, for a canonical current directory and a
    request that met no symlink loop. *)
Lemma validate_ok_physical :
  forall (w : world) (requested_path : string) (allowed_base : option string)
         (p : Path),
    validate_safe_path w requested_path allowed_base = Ok p ->
    loop_free w requested_path = true ->
    physical (fs_root w) (cwd w) ->
    forallb plain (cwd w) = true ->
    is_absolute p = true /\
    physical (fs_root w) (parts p) /\
    forallb plain (parts p) = true /\
    exists allowed,
      allowed_root w allowed_base = Some allowed /\
      is_relative_to (parts p) allowed = true.
Proof.
  intros w requested_path allowed_base p H Hfree Hphys Hplain.
  apply validate_safe_path_ok in H.
  destruct H as (resolved & allowed & Hres & Hall & Hrel & -> & _).
  cbn [abs_path parts is_absolute].
  destruct (canonical_physical w requested_path resolved Hres Hfree Hphys Hplain)
    as [Hp1 Hp2].
  repeat split; try assumption.
  exists allowed. split; assumption.
Qed.


(** X2: when a component of the allowed root is one of the denylisted
    names ([etc], [sys], [proc], [.ssh], [root]), every request for
    something other than the root itself is refused with status 403:
    outside the root as such, inside it because the text of the path
    then contains the denylisted substring. *)
Theorem validate_safe_path_sensitive_root :
  forall (w : world) (requested_path : string) (allowed_base : option string)
         (resolved allowed : list string) (c : string),
    canonical w requested_path = Some resolved ->
    allowed_root w allowed_base = Some allowed ->
    In c Main.sensitive_names ->
    In c allowed ->
    resolved <> allowed ->
    exists detail,
      validate_safe_path w requested_path allowed_base =
        HTTPException 403 detail.
Proof.
  intros w requested_path allowed_base resolved allowed c
         Hres Hall Hc Hin Hne.
  unfold validate_safe_path. rewrite Hres, Hall.
  destruct (is_relative_to resolved allowed) eqn:Hrel; cbn [negb];
    [|eexists; reflexivity].
  destruct (is_relative_to_split _ _ Hrel) as [rest ->].
  destruct rest as [|x rest]; [rewrite app_nil_r in Hne; contradiction|].
  destruct (in_split _ _ Hin) as (l1 & l2 & ->).
  assert (exists next after,
             ((l1 ++ c :: l2) ++ x :: rest)%list =
             (l1 ++ c :: next :: after)%list) as (next & after & Heq).
  { rewrite <- app_assoc. cbn [app].
    destruct l2 as [|y l2]; cbn [app]; eexists; eexists; reflexivity. }
  rewrite Heq.
  destruct (str_has_component l1 c next after) as (pre & post & Hstr).
  replace (existsb _ sensitive_patterns) with true; [eexists; reflexivity|].
  symmetry. apply existsb_exists. exists ("/" ++ c ++ "/"). split.
  - apply sensitive_name_pattern. exact Hc.
  - rewrite Hstr. apply contains_middle.
Qed.

End SandboxMore.


(** The process runs as root and the workspace root is its home. *)
Lemma validate_safe_path_sensitive_root_witness :
  exists detail,
    Sandbox.validate_safe_path MoreSamples.root_home_world
      "/root/notes.txt" None = HTTPException 403 detail.
Proof.
  apply (validate_safe_path_sensitive_root MoreSamples.root_home_world
           "/root/notes.txt" None ["root"; "notes.txt"] ["root"] "root").
  - reflexivity.
  - reflexivity.
  - simpl. tauto.
  - simpl. tauto.
  - discriminate.
Defined.

(* ===================================================================== *)
(** ** Chat identifiers *)
(* ===================================================================== *)

Section ChatIdFacts.
Import Posix Main.

Lemma append_nil_r : forall s : string, s ++ "" = s.
Proof. induction s as [|c s IH]; cbn; [|rewrite IH]; reflexivity. Qed.

Lemma append_snoc :
  forall (cur : string) c s, (cur ++ String c "") ++ s = cur ++ String c s.
Proof. induction cur as [|a cur IH]; intros c s; cbn; [|rewrite IH]; reflexivity. Qed.

Lemma split_aux_no_separator :
  forall sep s cur,
    all_chars (fun c => negb (Ascii.eqb c sep)) s = true ->
    Py.split_aux sep cur s = [cur ++ s].
Proof.
  intros sep. induction s as [|c s IH]; intros cur H; cbn [Py.split_aux].
  - rewrite append_nil_r. reflexivity.
  - cbn [all_chars] in H. apply andb_true_iff in H. destruct H as [Hc Hs].
    destruct (Ascii.eqb c sep); [discriminate|].
    rewrite (IH _ Hs), append_snoc. reflexivity.
Qed.

Lemma all_chars_weaken :
  forall (p q : ascii -> bool) s,
    (forall c, p c = true -> q c = true) ->
    all_chars p s = true -> all_chars q s = true.
Proof.
  intros p q s Hpq. induction s as [|c s IH]; cbn; [reflexivity|].
  intros H. apply andb_true_iff in H. destruct H as [Hc Hs].
  rewrite (Hpq c Hc), (IH Hs). reflexivity.
Qed.

Lemma all_chars_append :
  forall p s1 s2,
    all_chars p s1 = true -> all_chars p s2 = true ->
    all_chars p (s1 ++ s2) = true.
Proof.
  intros p s1 s2 H1 H2. induction s1 as [|c s1 IH]; cbn; [exact H2|].
  cbn in H1. apply andb_true_iff in H1. destruct H1 as [Hc Hs].
  rewrite Hc, (IH Hs). reflexivity.
Qed.

Lemma chat_id_char_not_slash :
  forall c, chat_id_char c = true -> negb (Ascii.eqb c "/") = true.
Proof.
  intros c H. destruct (Ascii.eqb_spec c "/") as [->|]; [|reflexivity].
  discriminate H.
Qed.

(** X3: an identifier that [validate_chat_id] accepts is returned as it
    is, is not empty, and names one path component: the file name made of
    it is a relative path of exactly that one component, so that joined to
    the chat directory it denotes a file directly in it. *)
Theorem validate_chat_id_names_one_file :
  forall chat_id safe_chat_id : string,
    validate_chat_id chat_id = Ok safe_chat_id ->
    safe_chat_id = chat_id /\
    chat_id <> "" /\
    Path_of (chat_file_name safe_chat_id) =
      {| is_absolute := false; parts := [chat_file_name safe_chat_id] |}.
Proof.
  intros chat_id safe_chat_id H. unfold validate_chat_id in H.
  destruct (chat_id_matches chat_id) eqn:Hm; cbn [negb] in H; [|discriminate].
  injection H as <-.
  unfold chat_id_matches in Hm. apply andb_true_iff in Hm.
  destruct Hm as [Hne Hall].
  split; [reflexivity|]. split.
  { intros ->. discriminate Hne. }
  destruct chat_id as [|a rest]; [discriminate Hne|].
  assert (all_chars (fun c => negb (Ascii.eqb c "/"))
            (chat_file_name (String a rest)) = true) as Hns.
  { unfold chat_file_name. apply all_chars_append; [|reflexivity].
    apply (all_chars_weaken chat_id_char); [apply chat_id_char_not_slash|].
    exact Hall. }
  unfold Path_of, Py.split.
  rewrite (split_aux_no_separator "/" _ "" Hns).
  cbn [append filter].
  assert (a <> "/"%char /\ a <> "."%char) as [Hslash Hdot].
  { cbn [all_chars] in Hall. apply andb_true_iff in Hall.
    destruct Hall as [Ha _].
    split; intros ->; discriminate Ha. }
  unfold chat_file_name. cbn [append String.prefix].
  assert (real_component (String a (rest ++ ".json")) = true) as ->.
  { unfold real_component. cbn [String.eqb].
    destruct (Ascii.eqb_spec a "."); [contradiction|reflexivity]. }
  destruct (ascii_dec "/" a) as [<-|_]; [contradiction|].
  reflexivity.
Qed.

End ChatIdFacts.

(** The identifier of the storage test. *)
Lemma validate_chat_id_names_one_file_witness :
  "chat-123_abc" = "chat-123_abc" /\
  "chat-123_abc" <> "" /\
  Posix.Path_of (Main.chat_file_name "chat-123_abc") =
    {| Posix.is_absolute := false;
       Posix.parts := [Main.chat_file_name "chat-123_abc"] |}.
Proof.
  apply (validate_chat_id_names_one_file "chat-123_abc" "chat-123_abc").
  reflexivity.
Defined.

(* ===================================================================== *)
(** ** The file endpoints *)
(* ===================================================================== *)

Section ReadFileFacts.
Import Posix Sandbox Main.

(** X4: when [read_file] answers with a body, for a request whose
    resolution met no symlink loop, the path in the body is the canonical
    form of the request, it lies under the workspace root and none of its
    components is a symlink; the content is the text of the regular file
    at this very path, whose size is within [MAX_FILE_READ_SIZE]; and the
    path contains no denylisted substring. *)
Theorem read_file_serves_workspace_file :
  forall (d : disk) (path : string) (r : ReadFileResponse),
    read_file d path = Ok r ->
    loop_free (tree d) path = true ->
    physical (fs_root (tree d)) (cwd (tree d)) ->
    forallb plain (cwd (tree d)) = true ->
    exists (resolved : list string) (nm : string),
      canonical (tree d) path = Some resolved /\
      rf_path r = str (abs_path resolved) /\
      is_relative_to resolved (WORKSPACE_ROOT (tree d)) = true /\
      physical (fs_root (tree d)) resolved /\
      lstat (fs_root (tree d)) resolved = Some (File nm (Some (rf_content r))) /\
      rf_size r = st_size d resolved /\
      (rf_size r <= MAX_FILE_READ_SIZE)%Z /\
      forall pattern, In pattern sensitive_patterns ->
        Py.contains pattern (rf_path r) = false.
Proof.
  intros d path r H Hfree Hphys Hplain. unfold read_file in H.
  destruct (validate_safe_path (tree d) path None) as [file_path| |] eqn:Hv;
    try discriminate.
  pose proof Hv as Hok. apply validate_safe_path_ok in Hok.
  destruct Hok as (resolved & allowed & Hres & Hall & Hrel & -> & Hsens).
  injection Hall as <-.
  destruct (canonical_physical (tree d) path resolved Hres Hfree Hphys Hplain)
    as [Hp1 Hp2].
  destruct (stat (tree d) (abs_path resolved)) as [[phys n]|] eqn:Hs;
    [|discriminate].
  destruct (stat_physical (tree d) resolved phys n Hs Hp1 Hp2) as [-> Hl].
  destruct n as [nm content|nm ino l es|nm target]; try discriminate.
  destruct (Z.ltb_spec MAX_FILE_READ_SIZE (st_size d resolved)) as [Hbig|Hfit];
    [discriminate|].
  destruct content as [text|]; [|discriminate].
  injection H as <-. cbn [rf_path rf_content rf_size].
  exists resolved, nm. repeat split; try assumption.
Qed.

End ReadFileFacts.

(** [/ws/a.txt], requested relative to the current directory [/ws]. *)
Lemma read_file_serves_workspace_file_witness :
  exists (resolved : list string) (nm : string),
    Sandbox.canonical Samples.sandbox_world "a.txt" = Some resolved /\
    "/ws/a.txt" = Posix.str (Posix.abs_path resolved) /\
    Posix.is_relative_to resolved ["ws"] = true /\
    Posix.physical Samples.sandbox_fs resolved /\
    Posix.lstat Samples.sandbox_fs resolved = Some (Posix.File nm (Some "hello")) /\
    5%Z = 5%Z /\
    (5 <= Main.MAX_FILE_READ_SIZE)%Z /\
    forall pattern, In pattern Sandbox.sensitive_patterns ->
      Py.contains pattern "/ws/a.txt" = false.
Proof.
  apply (read_file_serves_workspace_file MoreSamples.sandbox_disk "a.txt"
           {| Main.rf_path := "/ws/a.txt"; Main.rf_content := "hello";
              Main.rf_size := 5 |}).
  - reflexivity.
  - reflexivity.
  - intros k [Hk Hle]. cbn in Hle.
    assert (k = 1%nat) as -> by lia. exact I.
  - reflexivity.
Defined.

Section TreeUpdates.
Import Posix Main.

Lemma find_entry_name :
  forall c es ch, find_entry c es = Some ch -> node_name ch = c.
Proof.
  intros c. induction es as [|e es IH]; intros ch H; [discriminate|].
  cbn [find_entry] in H.
  destruct (String.eqb_spec (node_name e) c) as [Heq|Hne].
  - injection H as <-. exact Heq.
  - apply IH. exact H.
Qed.

Lemma find_map_entry :
  forall c g es c',
    (forall e, find_entry c es = Some e -> node_name (g e) = c) ->
    find_entry c' (map_entry c g es) =
      if String.eqb c c' then option_map g (find_entry c es)
      else find_entry c' es.
Proof.
  intros c g es c'. induction es as [|e es IH]; intros Hg.
  - cbn. destruct (String.eqb c c'); reflexivity.
  - cbn [map_entry find_entry] in *.
    destruct (String.eqb_spec (node_name e) c) as [Heq|Hne].
    + cbn [find_entry option_map]. rewrite (Hg e eq_refl), Heq.
      destruct (String.eqb c c'); reflexivity.
    + cbn [find_entry]. rewrite (IH Hg).
      destruct (String.eqb_spec (node_name e) c') as [Heq'|Hne']; [|reflexivity].
      destruct (String.eqb_spec c c') as [Hcc|]; [congruence|reflexivity].
Qed.

Lemma find_app_entry :
  forall c e' es c',
    node_name e' = c ->
    find_entry c es = None ->
    find_entry c' (es ++ [e']) =
      if String.eqb c c' then Some e' else find_entry c' es.
Proof.
  intros c e' es c' Hname.
  induction es as [|e es IH]; intros Hnone.
  - cbn [app find_entry]. rewrite Hname. reflexivity.
  - cbn [find_entry] in Hnone.
    destruct (String.eqb_spec (node_name e) c) as [Heq|Hne]; [discriminate|].
    cbn [app find_entry]. rewrite (IH Hnone).
    destruct (String.eqb_spec (node_name e) c') as [Heq'|Hne']; [|reflexivity].
    destruct (String.eqb_spec c c') as [<-|]; [contradiction|reflexivity].
Qed.

Lemma lstat_dir :
  forall nm ino l es c q,
    lstat (Dir nm ino l es) (c :: q) =
      match find_entry c es with
      | Some ch => lstat ch q
      | None => None
      end.
Proof. reflexivity. Qed.

(** An update below the top leaves the name of the top. *)
Lemma update_at_name :
  forall f p n,
    (p = [] -> node_name (f n) = node_name n) ->
    node_name (update_at f n p) = node_name n.
Proof.
  intros f [|c p] n H; [apply H; reflexivity|].
  destruct n; reflexivity.
Qed.

(** What is found at and under the place of an update. *)
Lemma lstat_update_at :
  forall f p0 root n0 r,
    lstat root p0 = Some n0 ->
    node_name (f n0) = node_name n0 ->
    lstat (update_at f root p0) (p0 ++ r) = lstat (f n0) r.
Proof.
  intros f. induction p0 as [|c p0 IH]; intros root n0 r Hl Hname.
  - cbn in Hl. injection Hl as ->. reflexivity.
  - destruct root as [nm cont|nm ino l es|nm t]; try discriminate.
    rewrite lstat_dir in Hl.
    destruct (find_entry c es) as [ch|] eqn:Hf; [|discriminate].
    cbn [update_at app]. rewrite lstat_dir, find_map_entry.
    + rewrite String.eqb_refl, Hf. cbn [option_map]. apply IH; assumption.
    + intros e He. rewrite Hf in He. injection He as <-.
      rewrite update_at_name; [apply (find_entry_name _ _ _ Hf)|].
      intros ->. cbn in Hl. injection Hl as ->. exact Hname.
Qed.

(** What is found off the way to the place of an update. *)
Lemma lstat_update_at_off :
  forall f p0 root n0 q,
    lstat root p0 = Some n0 ->
    node_name (f n0) = node_name n0 ->
    is_relative_to q p0 = false ->
    is_relative_to p0 q = false ->
    lstat (update_at f root p0) q = lstat root q.
Proof.
  intros f. induction p0 as [|c p0 IH]; intros root n0 q Hl Hname Hq1 Hq2.
  - destruct q; discriminate Hq1.
  - destruct q as [|c' q]; [discriminate Hq2|].
    destruct root as [nm cont|nm ino l es|nm t]; try discriminate.
    rewrite lstat_dir in Hl.
    destruct (find_entry c es) as [ch|] eqn:Hf; [|discriminate].
    cbn [update_at]. rewrite !lstat_dir, find_map_entry.
    + cbn [is_relative_to] in Hq1, Hq2. rewrite (String.eqb_sym c' c) in Hq1.
      destruct (String.eqb_spec c c') as [<-|Hne]; [|reflexivity].
      rewrite Hf. cbn [option_map andb] in *. apply (IH ch n0); assumption.
    + intros e He. rewrite Hf in He. injection He as <-.
      rewrite update_at_name; [apply (find_entry_name _ _ _ Hf)|].
      intros ->. cbn in Hl. injection Hl as ->. exact Hname.
Qed.

(** The symlinks after an update that changes none at its place. *)
Lemma link_at_update_at :
  forall f p0 root n0,
    lstat root p0 = Some n0 ->
    node_name (f n0) = node_name n0 ->
    (forall r, link_at (f n0) r = link_at n0 r) ->
    forall q, link_at (update_at f root p0) q = link_at root q.
Proof.
  intros f. induction p0 as [|c p0 IH]; intros root n0 Hl Hname Hlinks q.
  - cbn in Hl. injection Hl as ->. apply Hlinks.
  - destruct root as [nm cont|nm ino l es|nm t]; try discriminate.
    rewrite lstat_dir in Hl.
    destruct (find_entry c es) as [ch|] eqn:Hf; [|discriminate].
    cbn [update_at]. destruct q as [|c' q]; [reflexivity|].
    unfold link_at. rewrite !lstat_dir, find_map_entry.
    + destruct (String.eqb_spec c c') as [<-|Hne]; [|reflexivity].
      rewrite Hf. cbn [option_map]. apply (IH ch n0 Hl Hname Hlinks q).
    + intros e He. rewrite Hf in He. injection He as <-.
      rewrite update_at_name; [apply (find_entry_name _ _ _ Hf)|].
      intros ->. cbn in Hl. injection Hl as ->. exact Hname.
Qed.

Lemma count_symlinks_dir :
  forall nm ino l es,
    count_symlinks (Dir nm ino l es) = list_sum (map count_symlinks es).
Proof.
  intros nm ino l es.
  induction es as [|e es IH]; [reflexivity|].
  change (count_symlinks (Dir nm ino l (e :: es)))
    with (count_symlinks e + count_symlinks (Dir nm ino l es))%nat.
  rewrite IH. reflexivity.
Qed.

Lemma list_sum_cons :
  forall x l, list_sum (x :: l) = (x + list_sum l)%nat.
Proof. reflexivity. Qed.

Lemma list_sum_map_entry :
  forall c g es ch,
    find_entry c es = Some ch ->
    (list_sum (map count_symlinks (map_entry c g es)) + count_symlinks ch =
     list_sum (map count_symlinks es) + count_symlinks (g ch))%nat.
Proof.
  intros c g. induction es as [|e es IH]; intros ch H; [discriminate|].
  cbn [find_entry] in H. cbn [map_entry].
  destruct (String.eqb (node_name e) c).
  - injection H as <-. cbn [map]. rewrite !list_sum_cons. lia.
  - cbn [map]. rewrite !list_sum_cons. specialize (IH ch H). lia.
Qed.

(** The number of symlinks after an update. *)
Lemma count_update_at :
  forall f p0 root n0,
    lstat root p0 = Some n0 ->
    (count_symlinks (update_at f root p0) + count_symlinks n0 =
     count_symlinks root + count_symlinks (f n0))%nat.
Proof.
  intros f. induction p0 as [|c p0 IH]; intros root n0 Hl.
  - cbn in Hl. injection Hl as ->. cbn [update_at]. lia.
  - destruct root as [nm cont|nm ino l es|nm t]; try discriminate.
    rewrite lstat_dir in Hl.
    destruct (find_entry c es) as [ch|] eqn:Hf; [|discriminate].
    cbn [update_at]. rewrite !count_symlinks_dir.
    pose proof (list_sum_map_entry c (fun ch => update_at f ch p0) es ch Hf).
    specialize (IH ch n0 Hl). cbv beta in *. lia.
Qed.

Lemma is_relative_to_refl : forall p, is_relative_to p p = true.
Proof.
  induction p as [|c p IH]; [reflexivity|].
  cbn. rewrite String.eqb_refl. exact IH.
Qed.

Lemma is_relative_to_nil : forall p, is_relative_to p [] = true.
Proof. intros [|c p]; reflexivity. Qed.

Lemma is_relative_to_app :
  forall p r, is_relative_to (p ++ r) p = true.
Proof.
  induction p as [|c p IH]; intros r; [apply is_relative_to_nil|].
  cbn. rewrite String.eqb_refl. apply IH.
Qed.

Lemma is_relative_to_prefix :
  forall q p r,
    is_relative_to p q = true -> is_relative_to (p ++ r) q = true.
Proof.
  induction q as [|c q IH]; intros p r H; [apply is_relative_to_nil|].
  destruct p as [|c' p]; [discriminate|].
  cbn [app is_relative_to] in *.
  apply andb_true_iff in H. destruct H as [-> H]. apply (IH p r H).
Qed.

(** Two paths one of which begins with the other, or neither. *)
Lemma is_relative_to_cases :
  forall p q,
    (exists r, q = (p ++ r)%list) \/ is_relative_to p q = true \/
    (is_relative_to q p = false /\ is_relative_to p q = false).
Proof.
  induction p as [|c p IH]; intros q.
  - left. exists q. reflexivity.
  - destruct q as [|c' q]; [right; left; reflexivity|].
    cbn [is_relative_to]. rewrite (String.eqb_sym c' c).
    destruct (String.eqb_spec c c') as [<-|Hne].
    + cbn [andb]. destruct (IH q) as [[r ->]|[H|H]].
      * left. exists r. reflexivity.
      * right. left. exact H.
      * right. right. exact H.
    + right. right. split; reflexivity.
Qed.

Lemma same_links_refl : forall root, same_links root root.
Proof. intros root. split; reflexivity. Qed.

Lemma same_links_trans :
  forall a b c, same_links a b -> same_links b c -> same_links a c.
Proof.
  intros a b c [H1 H2] [H3 H4]. split.
  - intros q. rewrite H3. apply H1.
  - rewrite H4. exact H2.
Qed.

Lemma same_off_refl : forall p root, same_off p root root.
Proof. intros p root q _. reflexivity. Qed.

Lemma same_off_trans :
  forall p a b c, same_off p a b -> same_off p b c -> same_off p a c.
Proof.
  intros p a b c H1 H2 q Hq. rewrite (H2 q Hq). apply (H1 q Hq).
Qed.

Lemma is_relative_to_removelast :
  forall p q,
    is_relative_to p q = false -> is_relative_to (removelast p) q = false.
Proof.
  induction p as [|c p IH]; intros q H; [exact H|].
  destruct q as [|c' q]; [discriminate H|].
  cbn [is_relative_to] in H.
  destruct p as [|c2 p]; [reflexivity|].
  change (removelast (c :: c2 :: p)) with (c :: removelast (c2 :: p)).
  cbn [is_relative_to].
  destruct (String.eqb c c'); [|reflexivity].
  cbn [andb] in *. apply IH. exact H.
Qed.

Lemma same_off_removelast :
  forall p a b, same_off (removelast p) a b -> same_off p a b.
Proof.
  intros p a b H q Hq. apply H. apply is_relative_to_removelast. exact Hq.
Qed.

(** A new object without symlinks in a directory where its name is free:
    the object is found under its name, nothing else has changed, and
    the symlinks are the same. *)
Lemma add_entry_spec :
  forall root parent nm ino l es e,
    lstat root parent = Some (Dir nm ino l es) ->
    find_entry (node_name e) es = None ->
    (forall r, lstat e r = match r with [] => Some e | _ => None end) ->
    count_symlinks e = 0%nat ->
    link_at e [] = None ->
    let root' := update_at (add_entry e) root parent in
    lstat root' (parent ++ [node_name e]) = Some e /\
    same_links root root' /\
    same_off (parent ++ [node_name e]) root root'.
Proof.
  intros root parent nm ino l es e Hl Hf Hleaf Hcount Hlink root'.
  assert (node_name (add_entry e (Dir nm ino l es)) =
            node_name (Dir nm ino l es)) as Hname by reflexivity.
  assert (forall c r,
             lstat (add_entry e (Dir nm ino l es)) (c :: r) =
               if String.eqb (node_name e) c then lstat e r
               else lstat (Dir nm ino l es) (c :: r)) as Hunder.
  { intros c r. cbn [add_entry]. rewrite !lstat_dir.
    rewrite (find_app_entry (node_name e) e es c eq_refl Hf).
    destruct (String.eqb (node_name e) c); reflexivity. }
  split; [|split].
  - unfold root'. rewrite (lstat_update_at _ _ _ _ _ Hl Hname), Hunder.
    rewrite String.eqb_refl. reflexivity.
  - split.
    + apply (link_at_update_at _ _ _ _ Hl Hname).
      intros [|c r]; [reflexivity|]. unfold link_at. rewrite Hunder.
      destruct (String.eqb_spec (node_name e) c) as [<-|]; [|reflexivity].
      rewrite lstat_dir, Hf, Hleaf.
      destruct r; [exact Hlink|reflexivity].
    + pose proof (count_update_at (add_entry e) _ _ _ Hl) as H.
      cbn [add_entry] in H. rewrite !count_symlinks_dir in H.
      rewrite map_app, list_sum_app in H. cbn [map list_sum] in H.
      fold root' in H. rewrite Hcount in H.
      change (list_sum [0%nat]) with 0%nat in H. lia.
  - intros q Hq. unfold root'.
    destruct (is_relative_to_cases parent q) as [[r ->]|[Hup|[Hd1 Hd2]]].
    + rewrite (lstat_update_at _ _ _ _ _ Hl Hname), lstat_app, Hl.
      destruct r as [|c r].
      * rewrite app_nil_r, is_relative_to_app in Hq. discriminate.
      * rewrite Hunder.
        destruct (String.eqb_spec (node_name e) c) as [<-|]; [|reflexivity].
        rewrite lstat_dir, Hf, Hleaf.
        destruct r; [|reflexivity].
        rewrite is_relative_to_refl in Hq. discriminate.
    + rewrite (is_relative_to_prefix _ _ _ Hup) in Hq. discriminate.
    + apply (lstat_update_at_off _ _ _ _ _ Hl Hname Hd1 Hd2).
Qed.

(** A file rewritten in its place. *)
Lemma rewrite_file_spec :
  forall root p nm content content',
    lstat root p = Some (File nm content) ->
    let root' := update_at (fun _ => File nm content') root p in
    lstat root' p = Some (File nm content') /\
    same_links root root' /\
    same_off p root root'.
Proof.
  intros root p nm content content' Hl root'.
  assert (node_name ((fun _ : node => File nm content') (File nm content)) =
            node_name (File nm content)) as Hname by reflexivity.
  split; [|split].
  - unfold root'.
    pose proof (lstat_update_at _ _ _ _ [] Hl Hname) as H.
    rewrite app_nil_r in H. exact H.
  - split.
    + apply (link_at_update_at _ _ _ _ Hl Hname).
      intros [|c r]; reflexivity.
    + pose proof (count_update_at (fun _ => File nm content') _ _ _ Hl) as H.
      fold root' in H. cbn [count_symlinks] in H.
      change (count_symlinks (File nm content)) with 0%nat in H.
      change (count_symlinks (File nm content')) with 0%nat in H. lia.
  - intros q Hq. unfold root'.
    destruct (is_relative_to_cases p q) as [[r ->]|[Hup|[Hd1 Hd2]]].
    + rewrite (lstat_update_at _ _ _ _ _ Hl Hname), lstat_app, Hl.
      destruct r as [|c r]; [|reflexivity].
      rewrite app_nil_r, is_relative_to_refl in Hq. discriminate.
    + rewrite Hup in Hq. discriminate.
    + apply (lstat_update_at_off _ _ _ _ _ Hl Hname Hd1 Hd2).
Qed.

End TreeUpdates.

Section WriteSteps.
Import Posix Main.

Lemma physical_links :
  forall root root' p,
    same_links root root' -> physical root p -> physical root' p.
Proof.
  intros root root' p [Hl _] Hphys k Hk.
  specialize (Hphys k Hk). specialize (Hl (firstn k p)).
  unfold link_at, not_a_link in *.
  destruct (lstat root' (firstn k p)) as [[? ?|? ? ? ?|? ?]|]; try exact I.
  destruct (lstat root (firstn k p)) as [[? ?|? ? ? ?|? ?]|];
    try discriminate Hl. exact Hphys.
Qed.

(** [os.mkdir] of a path without a symlink, [.] or [..] makes the
    directory at this very path: the symlinks of the tree are the same,
    and so is every object off the path. *)
Lemma os_mkdir_spec :
  forall d root p root',
    os_mkdir d root p = inl root' ->
    physical root p -> forallb plain p = true ->
    same_links root root' /\ same_off p root root'.
Proof.
  intros d root p root' H Hphys Hplain.
  destruct p as [|c p0]; [discriminate|].
  unfold os_mkdir in H. cbv iota zeta in H.
  remember (c :: p0) as p eqn:Hp.
  assert (p <> []) as Hne by (subst p; discriminate).
  pose proof (namei_physical MAXSYMLINKS root (removelast p) []
                (plain_removelast p Hplain) (physical_removelast root p Hphys)
                ltac:(discriminate)) as Hn.
  destruct (namei MAXSYMLINKS root [] (removelast p)) as [parent|? ?|e];
    try discriminate.
  destruct Hn as [-> _]. cbn [app] in H.
  destruct (lstat root (removelast p)) as [[? ?|nm ino l es|? ?]|] eqn:Hl;
    try discriminate.
  destruct (find_entry (last p "") es) eqn:Hf; [discriminate|].
  destruct (can_write d (removelast p ++ [last p ""])); [|discriminate].
  injection H as <-.
  destruct (add_entry_spec root (removelast p) nm ino l es
              (Dir (last p "") (new_ino d (removelast p ++ [last p ""])) true [])
              Hl Hf) as (_ & Hlinks & Hoff).
  - intros [|c2 r]; reflexivity.
  - reflexivity.
  - reflexivity.
  - cbn [node_name] in Hoff.
    rewrite <- (app_removelast_last "" Hne) in Hoff, Hlinks |- *.
    split; assumption.
Qed.

(** So does [mkdir] with [parents=True], whatever its outcome. *)
Lemma mkdir_parents_spec :
  forall fuel d root p root1 r,
    mkdir_parents fuel d root p = (root1, r) ->
    physical root p -> forallb plain p = true ->
    same_links root root1 /\ same_off p root root1.
Proof.
  induction fuel as [|fuel IH]; intros d root p root1 r H Hphys Hplain.
  - cbn [mkdir_parents] in H.
    destruct (os_mkdir d root p) as [root'|e] eqn:Hm.
    + injection H as <- <-. apply (os_mkdir_spec _ _ _ _ Hm Hphys Hplain).
    + assert (root1 = root) as ->.
      { destruct (is_not_found e); [destruct p|destruct (is_dir root p)];
          injection H as <- <-; reflexivity. }
      split; [apply same_links_refl|apply same_off_refl].
  - cbn [mkdir_parents] in H.
    destruct (os_mkdir d root p) as [root'|e] eqn:Hm.
    + injection H as <- <-. apply (os_mkdir_spec _ _ _ _ Hm Hphys Hplain).
    + destruct (is_not_found e).
      * destruct p as [|c p0];
          [injection H as <- <-;
           split; [apply same_links_refl|apply same_off_refl]|].
        remember (c :: p0) as p eqn:Hp.
        destruct (mkdir_parents fuel d root (removelast p)) as [root2 r2] eqn:Hr.
        destruct (IH d root (removelast p) root2 r2 Hr
                    (physical_removelast root p Hphys)
                    (plain_removelast p Hplain)) as [Hl2 Ho2].
        apply same_off_removelast in Ho2.
        destruct r2 as [e2|]; [injection H as <- <-; split; assumption|].
        destruct (os_mkdir d root2 p) as [root3|e3] eqn:Hm3.
        -- injection H as <- <-.
           destruct (os_mkdir_spec _ _ _ _ Hm3 (physical_links _ _ _ Hl2 Hphys)
                       Hplain) as [Hl3 Ho3].
           split; [apply (same_links_trans _ _ _ Hl2 Hl3)
                  |apply (same_off_trans _ _ _ _ Ho2 Ho3)].
        -- assert (root1 = root2) as ->.
           { destruct (is_not_found e3); [|destruct (is_dir root2 p)];
               injection H as <- <-; reflexivity. }
           split; assumption.
      * assert (root1 = root) as ->.
        { destruct (is_dir root p); injection H as <- <-; reflexivity. }
        split; [apply same_links_refl|apply same_off_refl].
Qed.

(** [open(p, 'w')] and the write, for a path without a symlink, [.] or
    [..]: afterwards the file at this very path holds the text, unless
    it could not be opened for reading before; the symlinks are the
    same, and so is every object off the path. *)
Lemma os_open_w_spec :
  forall d root p text root' phys,
    os_open_w d root p text = inl (root', phys) ->
    physical root p -> forallb plain p = true ->
    phys = p /\
    same_links root root' /\ same_off p root root' /\
    exists nm,
      lstat root' p =
        Some (File nm (if unreadable root p then None else Some text)).
Proof.
  intros d root p text root' phys H Hphys Hplain.
  unfold os_open_w in H.
  pose proof (namei_physical MAXSYMLINKS root p [] Hplain Hphys
                ltac:(discriminate)) as Hn.
  cbn [app] in Hn.
  destruct (namei MAXSYMLINKS root [] p) as [phys'|parent name|e];
    [| |discriminate].
  - destruct Hn as [-> _].
    destruct (lstat root p) as [[nm content|? ? ? ?|? ?]|] eqn:Hl;
      try discriminate.
    destruct (can_write d p); [|discriminate].
    injection H as <- <-.
    destruct (rewrite_file_spec root p nm content
                (match content with Some _ => Some text | None => None end) Hl)
      as (Hfile & Hlinks & Hoff).
    split; [reflexivity|]. split; [exact Hlinks|]. split; [exact Hoff|].
    exists nm. rewrite Hfile. unfold unreadable. rewrite Hl.
    destruct content; reflexivity.
  - destruct Hn as (Hp & (nm & ino & l & es & Hl & Hf) & Hnone).
    destruct (can_write d (parent ++ [name])); [|discriminate].
    injection H as <- <-.
    destruct (add_entry_spec root parent nm ino l es (File name (Some text))
                Hl Hf) as (Hfile & Hlinks & Hoff).
    + intros [|c2 r]; reflexivity.
    + reflexivity.
    + reflexivity.
    + cbn [node_name] in Hfile, Hoff. rewrite <- Hp in *.
      split; [reflexivity|]. split; [exact Hlinks|]. split; [exact Hoff|].
      exists name. rewrite Hfile. unfold unreadable. rewrite Hnone.
      reflexivity.
Qed.

End WriteSteps.

Section WriteFileFacts.
Import Posix Sandbox Main.

(** The resolution of paths sees of the tree only its symlinks. *)
Lemma joinrealpath_links :
  forall root root',
    (forall q, link_at root' q = link_at root q) ->
    forall depth path rest seen,
      joinrealpath depth root' path rest seen =
      joinrealpath depth root path rest seen.
Proof.
  intros root root' Hl.
  induction depth as [|depth IHd]; intros path rest seen; [reflexivity|].
  cbn [joinrealpath]. revert path seen.
  induction rest as [|name rest IHr]; intros path seen; [reflexivity|].
  destruct (negb (real_component name)); [apply IHr|].
  destruct (String.eqb name ".."); [apply IHr|].
  cbv zeta.
  pose proof (Hl (path ++ [name])%list) as Hq. unfold link_at in Hq.
  destruct (lstat root' (path ++ [name])) as [[? ?|? ? ? ?|nm1 t1]|];
    destruct (lstat root (path ++ [name])) as [[? ?|? ? ? ?|nm2 t2]|];
    try discriminate Hq; try apply IHr.
  injection Hq as ->.
  destruct (seen_get (path ++ [name]) seen) as [[cached|]|];
    [apply IHr|reflexivity|].
  rewrite IHd.
  destruct (joinrealpath depth root _ _ _) as [[[p [|]] seen']|];
    [apply IHr|reflexivity|reflexivity].
Qed.

Lemma realpath_with_root :
  forall (w : world) (root' : node) (p : Path),
    same_links (fs_root w) root' ->
    realpath (with_root w root') p = realpath w p.
Proof.
  intros w root' p [Hl Hc]. unfold realpath, link_depth.
  cbn [with_root fs_root cwd]. rewrite Hc, (joinrealpath_links _ _ Hl).
  reflexivity.
Qed.

(** A path that [os.path.realpath] resolved in full is returned by
    [resolve]. *)
Lemma resolve_in_full :
  forall (w : world) (p : Path) (s : list string),
    realpath w p = Some (s, true) ->
    physical (fs_root w) (cwd w) -> forallb plain (cwd w) = true ->
    resolve w p = Some s /\
    physical (fs_root w) s /\ forallb plain s = true.
Proof.
  intros w p s H Hphys Hplain.
  assert (resolved_in_full w p = true) as Hfull
    by (unfold resolved_in_full; rewrite H; reflexivity).
  assert (resolve w p <> None) as Hsome.
  { unfold resolve. rewrite H.
    unfold realpath in H.
    destruct (joinrealpath (link_depth w) (fs_root w)
                (if is_absolute p then [] else cwd w) (parts p) [])
      as [[[path ok] seen]|] eqn:Hj; [|discriminate].
    injection H as <- ->.
    apply joinrealpath_physical in Hj.
    - destruct Hj as (Hp1 & Hp2 & _).
      rewrite (normpath_plain path Hp2).
      pose proof (namei_physical MAXSYMLINKS (fs_root w) path [] Hp2 Hp1
                    ltac:(discriminate)) as Hn.
      destruct (namei MAXSYMLINKS (fs_root w) [] path) as [?|? ?|[| |]];
        try discriminate.
      destruct Hn as [Hn _]. contradiction.
    - destruct (is_absolute p); [apply physical_nil|exact Hphys].
    - destruct (is_absolute p); [reflexivity|exact Hplain].
    - constructor. }
  destruct (resolve w p) as [resolved|] eqn:Hres; [|contradiction].
  assert (resolved = s) as ->.
  { unfold resolve in Hres. rewrite H in Hres.
    destruct (namei MAXSYMLINKS (fs_root w) [] s) as [?|? ?|[| |]];
      try discriminate; injection Hres as <-; reflexivity. }
  split; [reflexivity|].
  apply (resolve_physical w p s Hres Hfull). intros _. split; assumption.
Qed.

(** A request that was resolved without meeting a loop is resolved to
    the same path in a tree with the same symlinks. *)
Lemma canonical_with_root :
  forall (w : world) (root' : node) (s : string) (resolved : list string),
    canonical w s = Some resolved ->
    loop_free w s = true ->
    physical (fs_root w) (cwd w) -> forallb plain (cwd w) = true ->
    same_links (fs_root w) root' ->
    canonical (with_root w root') s = Some resolved.
Proof.
  intros w root' s resolved Hres Hfree Hphys Hplain Hlinks.
  unfold canonical, loop_free in *.
  change (expanduser (with_root w root') (Path_of s))
    with (expanduser w (Path_of s)).
  destruct (expanduser w (Path_of s)) as [p|]; [|discriminate].
  unfold resolved_in_full in Hfree.
  destruct (realpath w p) as [[s0 ok]|] eqn:Hr; [|discriminate]. subst ok.
  destruct (resolve_in_full w p s0 Hr Hphys Hplain) as (Hres' & _ & _).
  rewrite Hres in Hres'. injection Hres' as ->.
  apply (resolve_in_full (with_root w root') p s0).
  - rewrite (realpath_with_root w root' p Hlinks). exact Hr.
  - apply (physical_links _ _ _ Hlinks Hphys).
  - exact Hplain.
Qed.

Lemma mkdir_parents_nil :
  forall fuel d root root1 r,
    mkdir_parents fuel d root [] = (root1, r) -> root1 = root.
Proof.
  intros fuel d root root1 r H.
  assert (mkdir_parents fuel d root [] =
            if is_dir root [] then (root, None) else (root, Some (EEXIST [])))
    as Heq by (destruct fuel; reflexivity).
  rewrite Heq in H.
  destruct (is_dir root []); injection H as <- <-; reflexivity.
Qed.

Lemma removelast_not_above :
  forall p, p <> [] -> is_relative_to (removelast p) p = false.
Proof.
  induction p as [|c p IH]; intros Hne; [contradiction|].
  destruct p as [|c2 p]; [reflexivity|].
  change (removelast (c :: c2 :: p)) with (c :: removelast (c2 :: p)).
  cbn [is_relative_to]. rewrite String.eqb_refl. apply IH. discriminate.
Qed.

Lemma path_eqb_refl : forall p, path_eqb p p = true.
Proof.
  intros p. unfold path_eqb.
  destruct (list_eq_dec string_dec p p); [reflexivity|contradiction].
Qed.

Lemma len_le_length : forall s, (len s <= String.length s)%nat.
Proof.
  induction s as [|c s IH]; cbn [len String.length]; [lia|].
  destruct ((128 <=? nat_of_ascii c)%nat && (nat_of_ascii c <=? 191)%nat); lia.
Qed.





(** X5: a file written through [write_file] is read back by [read_file]
    from the same request path, when the resolution of the request met
    no symlink loop and the file, if it was there, could be opened for
    reading: the answer carries the same canonical path, the text
    written, in which the reading has turned every [\r\n] and every [\r]
    into [\n], and as size the number of bytes of the text - provided
    this is within the size accepted for reading.  The size in the
    answer to the writing is the number of characters of the text, which
    is at most its number of bytes. *)
Theorem write_file_then_read_file :
  forall (d d' : disk) (path content : string) (r : WriteFileResponse)
         (resolved : list string),
    write_file d path content = (d', Ok r) ->
    canonical (tree d) path = Some resolved ->
    loop_free (tree d) path = true ->
    unreadable (fs_root (tree d)) resolved = false ->
    physical (fs_root (tree d)) (cwd (tree d)) ->
    forallb plain (cwd (tree d)) = true ->
    (Z.of_nat (String.length content) <= MAX_FILE_READ_SIZE)%Z ->
    read_file d' path =
      Ok {| rf_path := wf_path r;
            rf_content := universal_newlines content;
            rf_size := Z.of_nat (String.length content) |} /\
    wf_size r = len content /\
    (wf_size r <= String.length content)%nat.
Proof.
  intros d d' path content r resolved H Hres Hfree Hread Hphys Hplain Hsize.
  unfold write_file in H.
  destruct (validate_safe_path (tree d) path None) as [file_path| |] eqn:Hv;
    try discriminate.
  cbv zeta in H.
  destruct (mkdir_parents (S (length (removelast (parts file_path)))) d
              (fs_root (tree d)) (removelast (parts file_path)))
    as [root1 [e|]] eqn:Hm; [discriminate|].
  destruct (os_open_w d root1 (parts file_path) (universal_newlines content))
    as [[root2 phys]|e] eqn:Hw; [|discriminate].
  injection H as <- <-. cbn [wf_path wf_size].
  split; [|split; [reflexivity|apply len_le_length]].
  destruct (validate_ok_physical (tree d) path None file_path Hv Hfree
              Hphys Hplain) as (Habs & Hp1 & Hp2 & _).
  destruct (mkdir_parents_spec _ _ _ _ _ _ Hm
              (physical_removelast _ _ Hp1) (plain_removelast _ Hp2))
    as [Hl1 Ho1].
  destruct (os_open_w_spec _ _ _ _ _ _ Hw (physical_links _ _ _ Hl1 Hp1) Hp2)
    as (-> & Hl2 & Ho2 & nm & Hfile).
  pose proof (same_links_trans _ _ _ Hl1 Hl2) as Hlinks.
  pose proof Hv as Hok. apply validate_safe_path_ok in Hok.
  destruct Hok as (resolved' & allowed & Hres' & Hall & Hrel & -> & Hsens).
  rewrite Hres in Hres'. injection Hres' as <-.
  cbn [abs_path parts] in *.
  assert (unreadable root1 resolved = false) as Hr1.
  { rewrite <- Hread. unfold unreadable.
    destruct resolved as [|c p0].
    - rewrite (mkdir_parents_nil _ _ _ _ _ Hm). reflexivity.
    - rewrite (Ho1 (c :: p0)); [reflexivity|].
      apply removelast_not_above. discriminate. }
  rewrite Hr1 in Hfile.
  unfold read_file. cbn [written tree].
  assert (validate_safe_path (with_root (tree d) root2) path None =
            Ok (abs_path resolved)) as ->.
  { unfold validate_safe_path in *.
    rewrite (canonical_with_root _ _ _ _ Hres Hfree Hphys Hplain Hlinks).
    rewrite Hres in Hv. exact Hv. }
  rewrite (stat_physical_found (with_root (tree d) root2) resolved _ Hfile
             (physical_links _ _ _ Hlinks Hp1) Hp2).
  cbv zeta. unfold written. cbn [st_size]. rewrite path_eqb_refl.
  destruct (Z.ltb_spec MAX_FILE_READ_SIZE (Z.of_nat (String.length content)));
    [lia|reflexivity].
Qed.

End WriteFileFacts.

(** A new file two directories below the workspace, with a character
    outside ASCII and a DOS line end: four characters, five bytes. *)
Lemma write_file_then_read_file_witness :
  snd (Main.write_file MoreSamples.sandbox_disk "proj/new/dir/notes.txt"
         ("é" ++ String (ascii_of_nat 13) (String (ascii_of_nat 10) "b"))) =
    Ok {| Main.wf_path := "/ws/proj/new/dir/notes.txt";
          Main.wf_success := true; Main.wf_size := 4 |} /\
  Main.read_file
    (fst (Main.write_file MoreSamples.sandbox_disk "proj/new/dir/notes.txt"
            ("é" ++ String (ascii_of_nat 13) (String (ascii_of_nat 10) "b"))))
    "proj/new/dir/notes.txt" =
  Ok {| Main.rf_path := "/ws/proj/new/dir/notes.txt";
        Main.rf_content :=
          "é" ++ String (ascii_of_nat 10) "b";
        Main.rf_size := 5 |}.
Proof.
  split; [reflexivity|].
  apply (write_file_then_read_file MoreSamples.sandbox_disk _
           "proj/new/dir/notes.txt"
           ("é" ++ String (ascii_of_nat 13) (String (ascii_of_nat 10) "b"))
           {| Main.wf_path := "/ws/proj/new/dir/notes.txt";
              Main.wf_success := true; Main.wf_size := 4 |}
           ["ws"; "proj"; "new"; "dir"; "notes.txt"]).
  - reflexivity.
  - reflexivity.
  - reflexivity.
  - reflexivity.
  - intros k [Hk Hle]. cbn in Hle.
    assert (k = 1%nat) as -> by lia. exact I.
  - reflexivity.
  - vm_compute. discriminate.
Defined.



(** Without that condition the write may leave the workspace: behind
    the loop [/ws/loop], the request [/ws/loop/../out/new.txt] is
    accepted as [/ws/out/new.txt], where [out] is still a symlink, and
    the file is made in [/outside]. *)
Example write_file_behind_loop :
  Sandbox.loop_free Samples.loop_world "/ws/loop/../out/new.txt" = false /\
  snd (Main.write_file MoreSamples.loop_disk "/ws/loop/../out/new.txt" "x") =
    Ok {| Main.wf_path := "/ws/out/new.txt"; Main.wf_success := true;
          Main.wf_size := 1 |} /\
  Posix.lstat Samples.loop_fs ["outside"; "new.txt"] = None /\
  Posix.lstat
    (Posix.fs_root
       (Main.tree (fst (Main.write_file MoreSamples.loop_disk
                          "/ws/loop/../out/new.txt" "x"))))
    ["outside"; "new.txt"] = Some (Posix.File "new.txt" (Some "x")).
Proof. repeat split; reflexivity. Qed.
(* ===================================================================== *)
(** ** The workspace listing *)
(* ===================================================================== *)

Section StringOrder.

Lemma ascii_compare_N :
  forall a b, Ascii.compare a b = N.compare (N_of_ascii a) (N_of_ascii b).
Proof. reflexivity. Qed.

Lemma string_compare_trans :
  forall a b c,
    String.compare a b <> Gt -> String.compare b c <> Gt ->
    String.compare a c <> Gt.
Proof.
  induction a as [|x a IH]; intros b c Hab Hbc.
  - destruct c; cbn; discriminate.
  - destruct b as [|y b]; [cbn in Hab; contradiction|].
    destruct c as [|z c]; [cbn in Hbc; contradiction|].
    cbn [String.compare] in *. rewrite ascii_compare_N in *.
    destruct (N.compare_spec (N_of_ascii x) (N_of_ascii y)) as [Hxy|Hxy|Hxy];
      destruct (N.compare_spec (N_of_ascii y) (N_of_ascii z)) as [Hyz|Hyz|Hyz];
      destruct (N.compare_spec (N_of_ascii x) (N_of_ascii z)) as [Hxz|Hxz|Hxz];
      try contradiction; try discriminate; try lia.
    apply (IH b c); assumption.
Qed.

Lemma string_leb_trans :
  forall a b c,
    String.leb a b = true -> String.leb b c = true -> String.leb a c = true.
Proof.
  intros a b c Hab Hbc. unfold String.leb in *.
  pose proof (string_compare_trans a b c) as H.
  destruct (String.compare a b); try discriminate;
    destruct (String.compare b c); try discriminate;
    destruct (String.compare a c); try reflexivity;
    (exfalso; (apply H; [discriminate|discriminate|reflexivity])).
Qed.

Lemma key_leb_trans :
  forall a b c,
    Main.key_leb a b = true -> Main.key_leb b c = true ->
    Main.key_leb a c = true.
Proof.
  intros [[|] sa] [[|] sb] [[|] sc]; unfold Main.key_leb; cbn [fst snd];
    try discriminate; try reflexivity; apply string_leb_trans.
Qed.

Lemma key_leb_total :
  forall a b, Main.key_leb a b = false -> Main.key_leb b a = true.
Proof.
  intros [[|] sa] [[|] sb]; unfold Main.key_leb; cbn [fst snd];
    try discriminate; try reflexivity;
    intros H; destruct (String.leb_total sa sb) as [H'|H'];
    try exact H'; rewrite H' in H; discriminate.
Qed.

End StringOrder.

Section SortedBy.
Import Main.

Context {A : Type}.
Variable key : A -> bool * string.

Lemma insert_by_elements :
  forall (P : A -> Prop) x l,
    P x -> Forall P l -> Forall P (insert_by key x l).
Proof.
  intros P x l Hx Hl. induction Hl as [|y l Hy Hl IH]; cbn [insert_by].
  - constructor; [exact Hx|constructor].
  - destruct (key_leb (key x) (key y)).
    + constructor; [exact Hx|]. constructor; assumption.
    + constructor; assumption.
Qed.

Lemma insert_by_sorted :
  forall x l,
    StronglySorted (key_le key) l -> StronglySorted (key_le key) (insert_by key x l).
Proof.
  intros x l Hs. induction Hs as [|y l Hs IH Hy]; cbn [insert_by].
  - constructor; constructor.
  - destruct (key_leb (key x) (key y)) eqn:Hxy.
    + constructor; [constructor; assumption|].
      constructor; [exact Hxy|].
      eapply Forall_impl; [|exact Hy].
      intros z Hz. unfold key_le in *. eapply key_leb_trans; eassumption.
    + constructor; [exact IH|].
      apply insert_by_elements; [|exact Hy].
      apply key_leb_total. exact Hxy.
Qed.

Lemma sorted_by_sorted :
  forall l, StronglySorted (key_le key) (sorted_by key l).
Proof.
  induction l as [|x l IH]; cbn; [constructor|].
  apply insert_by_sorted. exact IH.
Qed.

Lemma filter_sorted :
  forall (R : A -> A -> Prop) (f : A -> bool) l,
    StronglySorted R l -> StronglySorted R (filter f l).
Proof.
  intros R f l Hs. induction Hs as [|y l Hs IH Hy]; cbn [filter].
  - constructor.
  - destruct (f y); [|exact IH].
    constructor; [exact IH|].
    apply Forall_forall. intros z Hz. apply filter_In in Hz.
    apply (proj1 (Forall_forall _ _) Hy). apply Hz.
Qed.

End SortedBy.

Section ListingFacts.
Import Posix Sandbox Walk Main.

Lemma child_node_key :
  forall w phys root_path e,
    node_key (child_node w phys root_path e) = item_key w phys e.
Proof.
  intros w phys root_path e. unfold child_node, item_key, node_key.
  destruct (entry_is_dir w phys e); reflexivity.
Qed.

Lemma map_sorted :
  forall (A B : Type) (f : A -> B) (R : A -> A -> Prop) (R' : B -> B -> Prop) l,
    (forall a b, R a b -> R' (f a) (f b)) ->
    StronglySorted R l -> StronglySorted R' (map f l).
Proof.
  intros A B f R R' l HR Hs. induction Hs as [|y l Hs IH Hy]; cbn [map].
  - constructor.
  - constructor; [exact IH|].
    apply Forall_forall. intros z Hz. apply in_map_iff in Hz.
    destruct Hz as (a & <- & Ha). apply HR.
    apply (proj1 (Forall_forall _ _) Hy). exact Ha.
Qed.

Lemma list_children_listing :
  forall w phys root_path es,
    StronglySorted (key_le node_key) (list_children w phys root_path es) /\
    Forall (fun c => skipped (fn_name c) = false /\ fn_children c = None)
      (list_children w phys root_path es).
Proof.
  intros w phys root_path es. unfold list_children. split.
  - apply (map_sorted _ _ _ (key_le (item_key w phys))).
    + intros a b Hab. unfold key_le in *. rewrite !child_node_key. exact Hab.
    + apply filter_sorted, sorted_by_sorted.
  - apply Forall_forall. intros c Hc. apply in_map_iff in Hc.
    destruct Hc as (e & <- & He). apply filter_In in He. destruct He as [_ He].
    unfold child_node.
    destruct (entry_is_dir w phys e); cbn [fn_name fn_children]; split;
      try reflexivity; destruct (skipped (node_name e)); try discriminate;
      reflexivity.
Qed.

(** X7: the children that [get_workspace_files] lists are never empty
    when present, none of them has a name that starts with a dot or is
    one of the ignored names, none has children of its own loaded, and
    they stand in the order of the sort: the directories first, then the
    files, each group by its names in lower case. *)
Theorem get_workspace_files_listing :
  forall (w : world) (path name path' type_ : string) (cs : list FileNode),
    get_workspace_files w path = Ok (Build_FileNode name path' type_ (Some cs)) ->
    cs <> [] /\
    type_ = "directory" /\
    Forall (fun c => skipped (fn_name c) = false /\ fn_children c = None) cs /\
    StronglySorted (key_le node_key) cs.
Proof.
  intros w path name path' type_ cs H. unfold get_workspace_files in H.
  destruct (validate_safe_path w path None) as [root_path| |]; try discriminate.
  destruct (stat w root_path) as [[phys [nm c|nm ino l es|nm t]]|];
    try discriminate.
  destruct (negb l); [discriminate|].
  destruct (list_children_listing w phys root_path es) as [Hsorted Hall].
  destruct (list_children w phys root_path es) as [|c0 cs0] eqn:Hcs;
    [discriminate|].
  injection H as _ _ <- <-.
  repeat split; try assumption. discriminate.
Qed.

End ListingFacts.

(** The workspace [/ws] of the sandbox sample: three directories, one of
    them behind a symlink, and a file. *)
Lemma get_workspace_files_listing_witness :
  [ Main.Build_FileNode "empty" "/ws/empty" "directory" None;
    Main.Build_FileNode "out" "/ws/out" "directory" None;
    Main.Build_FileNode "proj" "/ws/proj" "directory" None;
    Main.Build_FileNode "a.txt" "/ws/a.txt" "file" None ] <> [] /\
  "directory" = "directory" /\
  Forall (fun c => Main.skipped (Main.fn_name c) = false /\
                   Main.fn_children c = None)
    [ Main.Build_FileNode "empty" "/ws/empty" "directory" None;
      Main.Build_FileNode "out" "/ws/out" "directory" None;
      Main.Build_FileNode "proj" "/ws/proj" "directory" None;
      Main.Build_FileNode "a.txt" "/ws/a.txt" "file" None ] /\
  StronglySorted (Main.key_le Main.node_key)
    [ Main.Build_FileNode "empty" "/ws/empty" "directory" None;
      Main.Build_FileNode "out" "/ws/out" "directory" None;
      Main.Build_FileNode "proj" "/ws/proj" "directory" None;
      Main.Build_FileNode "a.txt" "/ws/a.txt" "file" None ].
Proof.
  apply (get_workspace_files_listing Samples.sandbox_world "." "ws" "/ws"
           "directory"
           [ Main.Build_FileNode "empty" "/ws/empty" "directory" None;
             Main.Build_FileNode "out" "/ws/out" "directory" None;
             Main.Build_FileNode "proj" "/ws/proj" "directory" None;
             Main.Build_FileNode "a.txt" "/ws/a.txt" "file" None ]).
  reflexivity.
Defined.

(* ===================================================================== *)
(** ** The scanner: depth and the flat workspace *)
(* ===================================================================== *)

Section ScannerDepth.
Import Posix Walk Scanner ScannerLog.

Lemma recorded_log :
  forall v st s seen,
    recorded (log v st s seen) =
      (recorded st ++
       (if is_listed v && negb (String.eqb (rel_root_of (v_rel v)) ".")
        then [rel_root_of (v_rel v)] else []))%list.
Proof.
  intros v st s seen. unfold recorded, log; cbn [visited].
  rewrite filter_app, map_app, filter_app. cbn [filter map].
  destruct (is_listed v); cbn [map filter andb]; [|reflexivity].
  destruct (String.eqb (rel_root_of (v_rel v)) "."); reflexivity.
Qed.

Lemma directories_add_files :
  forall rel_root files_ s,
    directories (fold_left (add_file rel_root) files_ s) = directories s.
Proof.
  intros rel_root. induction files_ as [|file rest IH]; intros s; cbn [fold_left].
  - reflexivity.
  - rewrite IH. unfold add_file.
    destruct (total_files s <? MAX_FILES)%nat; reflexivity.
Qed.

Lemma scan_body_depth :
  forall max_depth st phys rel inode dirs files_,
    depth_kept max_depth st ->
    depth_kept max_depth
      (step_state (scan_body max_depth st phys rel inode dirs files_)).
Proof.
  intros max_depth st phys rel inode dirs files_ [Hd Hv]. unfold scan_body.
  destruct ((MAX_FILES <=? total_files (st_structure st))%nat
            || (MAX_DIRS <=? total_dirs (st_structure st))%nat) eqn:Hceil;
    cbn [step_state].
  { split.
    - rewrite recorded_log. cbn [is_listed v_action andb log st_structure
        set_truncated directories]. rewrite app_nil_r. exact Hd.
    - cbn [log visited]. apply Forall_app. split; [exact Hv|].
      constructor; [discriminate|constructor]. }
  apply orb_false_iff in Hceil. destruct Hceil as [_ Hdi].
  apply Nat.leb_gt in Hdi.
  destruct (existsb (Nat.eqb inode) (seen_inodes st)); cbn [step_state].
  { split.
    - rewrite recorded_log. cbn [is_listed v_action andb log st_structure].
      rewrite app_nil_r. exact Hd.
    - cbn [log visited]. apply Forall_app. split; [exact Hv|].
      constructor; [discriminate|constructor]. }
  destruct (Z.leb_spec max_depth (Z.of_nat (length rel))) as [Hdeep|Hshallow];
    cbn [step_state].
  { split.
    - rewrite recorded_log. cbn [is_listed v_action andb log st_structure].
      rewrite app_nil_r. exact Hd.
    - cbn [log visited]. apply Forall_app. split; [exact Hv|].
      constructor; [discriminate|constructor]. }
  split.
  - rewrite recorded_log. cbn [is_listed v_action v_rel andb log st_structure].
    rewrite directories_add_files. unfold add_directory.
    destruct (String.eqb (rel_root_of rel) "."); cbn [negb].
    + rewrite app_nil_r. exact Hd.
    + apply Nat.ltb_lt in Hdi. rewrite Hdi. cbn [directories].
      rewrite Hd. reflexivity.
  - cbn [log visited]. apply Forall_app. split; [exact Hv|].
    constructor; [|constructor]. intros _. exact Hshallow.
Qed.

Lemma scan_body_shallow :
  forall max_depth st phys rel inode dirs files_,
    (max_depth <= 0)%Z ->
    st_structure st = empty_structure ->
    st_structure (step_state (scan_body max_depth st phys rel inode dirs files_))
      = empty_structure.
Proof.
  intros max_depth st phys rel inode dirs files_ Hmax Hs. unfold scan_body.
  rewrite Hs.
  replace ((MAX_FILES <=? total_files empty_structure)%nat
           || (MAX_DIRS <=? total_dirs empty_structure)%nat)
    with false by (vm_compute; reflexivity).
  destruct (existsb (Nat.eqb inode) (seen_inodes st)); cbn [step_state];
    [reflexivity|].
  destruct (Z.leb_spec max_depth (Z.of_nat (length rel))) as [Hdeep|Hshallow];
    cbn [step_state]; [reflexivity|lia].
Qed.

(** X8: the depth limit of the scan.  The directories the scan returns
    are the relative paths of the directories its loop listed, in the
    order of the walk and without the top itself; each listed directory
    lies fewer than [max_depth] levels below the top; and with a
    [max_depth] of zero or less nothing at all is returned. *)
Theorem scan_depth_limit :
  forall (w : world) (workspace_path : string) (max_depth : Z),
    let st := scan_run w workspace_path max_depth in
    directories (scan_workspace_structure w workspace_path max_depth) =
      recorded st /\
    Forall (fun v => is_listed v = true -> above_depth max_depth v)
      (visited st) /\
    ((max_depth <= 0)%Z ->
     scan_workspace_structure w workspace_path max_depth = empty_structure).
Proof.
  intros w workspace_path max_depth st.
  unfold scan_workspace_structure. fold st.
  assert (depth_kept max_depth initial_state) as H0.
  { split; [reflexivity|constructor]. }
  assert (depth_kept max_depth st) as [Hd Hv].
  { unfold st, scan_run.
    destruct (negb (exists_ w (Path_of workspace_path))); [exact H0|].
    apply (for_os_walk_invariant w (scan_body max_depth) (depth_kept max_depth));
      [intros; apply scan_body_depth; assumption|exact H0]. }
  split; [exact Hd|]. split; [exact Hv|].
  intros Hmax. unfold st, scan_run.
  destruct (negb (exists_ w (Path_of workspace_path))); [reflexivity|].
  apply (for_os_walk_invariant w (scan_body max_depth)
           (fun st => st_structure st = empty_structure));
    [intros; apply scan_body_shallow; assumption|reflexivity].
Qed.

End ScannerDepth.

Section FlatWorkspace.
Import Posix Walk Scanner ScannerLog.

Lemma add_files_top :
  forall names s,
    length (files s) = total_files s ->
    fold_left (add_file ".") names s =
      {| directories := directories s;
         files := files s ++ firstn (MAX_FILES - total_files s) names;
         total_files := Nat.min (total_files s + length names)
                          (Nat.max MAX_FILES (total_files s));
         total_dirs := total_dirs s;
         truncated := truncated s |}.
Proof.
  induction names as [|file rest IH]; intros s Hlen; cbn [fold_left].
  - rewrite firstn_nil, app_nil_r. cbn [length]. rewrite Nat.add_0_r.
    replace (Nat.min (total_files s) (Nat.max MAX_FILES (total_files s)))
      with (total_files s) by lia.
    destruct s; reflexivity.
  - unfold add_file at 2. cbn [String.eqb Ascii.eqb Bool.eqb negb].
    destruct (Nat.ltb_spec (total_files s) MAX_FILES) as [Hlt|Hge].
    + rewrite IH; cbn [files total_files directories total_dirs truncated].
      * f_equal.
        -- rewrite <- app_assoc. f_equal. cbn [app].
           replace (MAX_FILES - total_files s)%nat
             with (S (MAX_FILES - (total_files s + 1))) by lia.
           reflexivity.
        -- cbn [length]. lia.
      * rewrite length_app. cbn [length]. lia.
    + rewrite IH by exact Hlen. f_equal.
      * replace (MAX_FILES - total_files s)%nat with 0%nat by lia.
        reflexivity.
      * cbn [length]. lia.
Qed.

(** X9: a workspace whose top directory can be listed and holds files
    only.  With a positive [max_depth] the scan returns the names of the
    first [MAX_FILES] of them in the order of the listing and no
    directory, and [truncated] stays unset however many files there
    are. *)
Theorem scan_flat_workspace :
  forall (w : world) (workspace_path : string) (max_depth : Z)
         (phys : list string) (nm : string) (ino : nat) (es : list node),
    stat w (Path_of workspace_path) = Some (phys, Dir nm ino true es) ->
    forallb is_file es = true ->
    (0 < max_depth)%Z ->
    scan_workspace_structure w workspace_path max_depth =
      {| directories := [];
         files := firstn MAX_FILES (map node_name es);
         total_files := Nat.min (length es) MAX_FILES;
         total_dirs := 0;
         truncated := false |}.
Proof.
  intros w workspace_path max_depth phys nm ino es Hstat Hfiles Hmax.
  unfold scan_workspace_structure, scan_run, exists_, for_os_walk.
  rewrite Hstat. cbn [negb os_walk snd fst].
  destruct (names_of_files w phys es Hfiles) as [Hd Hf].
  rewrite Hd, Hf. unfold scan_body.
  replace ((MAX_FILES <=? total_files (st_structure initial_state))%nat
           || (MAX_DIRS <=? total_dirs (st_structure initial_state))%nat)
    with false by (vm_compute; reflexivity).
  cbn [initial_state seen_inodes existsb length Z.of_nat].
  destruct (Z.leb_spec max_depth 0) as [Hle|_]; [lia|].
  cbn [filter rel_root_of str is_absolute parts add_directory String.eqb
       Ascii.eqb Bool.eqb negb st_structure].
  rewrite descend_over_files by exact Hfiles.
  cbn [fst log st_structure].
  rewrite add_files_top by reflexivity.
  cbn [empty_structure directories files total_files total_dirs truncated app].
  rewrite Nat.sub_0_r, length_map, Nat.max_0_r.
  reflexivity.
Qed.

End FlatWorkspace.

(** The workspace [/ws] of three files. *)
Lemma scan_flat_workspace_witness :
  Scanner.scan_workspace_structure (Samples.flat_world 3) "/ws" 4 =
    {| Scanner.directories := [];
       Scanner.files :=
         firstn Scanner.MAX_FILES
           (map Posix.node_name (Samples.numbered_files 3));
       Scanner.total_files := Nat.min (length (Samples.numbered_files 3))
                                Scanner.MAX_FILES;
       Scanner.total_dirs := 0;
       Scanner.truncated := false |}.
Proof.
  apply (scan_flat_workspace (Samples.flat_world 3) "/ws" 4 ["ws"] "ws" 10
           (Samples.numbered_files 3)).
  - reflexivity.
  - reflexivity.
  - reflexivity.
Defined.

(* ===================================================================== *)
(** ** The stream translator: dropped lines and reported failures *)
(* ===================================================================== *)

Section StreamMore.
Import Stream.

Lemma on_lines_drops :
  forall before bad after failure,
    String.eqb (Py.strip bad) "" = true \/ Json.loads bad = None ->
    on_lines (before ++ bad :: after)%list failure =
    on_lines (before ++ after)%list failure.
Proof.
  induction before as [|line rest IH]; intros bad after failure Hbad;
    cbn [app on_lines].
  - destruct Hbad as [-> | ->]; [reflexivity|].
    destruct (String.eqb (Py.strip bad) ""); reflexivity.
  - rewrite (IH bad after failure Hbad). reflexivity.
Qed.

(** X10: a line of the response that is blank, or that does not decode as
    JSON, yields no event and ends nothing wherever it stands: the events
    of the stream are those of the stream without this line. *)
Theorem generate_skips_undecodable_line :
  forall (status_code : nat) (status_text : string)
         (before : list string) (bad : string) (after : list string)
         (failure : option exn),
    String.eqb (Py.strip bad) "" = true \/ Json.loads bad = None ->
    generate (Response status_code status_text (before ++ bad :: after)%list
                failure) =
    generate (Response status_code status_text (before ++ after)%list failure).
Proof.
  intros status_code status_text before bad after failure Hbad.
  cbn [generate]. rewrite (on_lines_drops before bad after failure Hbad).
  reflexivity.
Qed.

Lemma on_lines_failure :
  forall lines e, exists e', snd (on_lines lines (Some e)) = Some e'.
Proof.
  induction lines as [|line rest IH]; intros e; cbn [on_lines].
  - exists e. reflexivity.
  - destruct (String.eqb (Py.strip line) ""); [apply IH|].
    destruct (Json.loads line) as [chunk|]; [|apply IH].
    destruct (on_chunk chunk) as [evs [e1|]]; [exists e1; reflexivity|].
    destruct (IH e) as [e' He'].
    destruct (on_lines rest (Some e)) as [evs' r]. cbn [snd] in *.
    exists e'. exact He'.
Qed.

Lemma on_exception_error :
  forall e, exists msg, on_exception e = Error msg.
Proof. intros [msg|msg]; eexists; reflexivity. Qed.

(** X11: no failure of the backend passes in silence.  A response whose
    lines break off with an exception yields content and done events and
    then exactly one error event, the last of the stream; a backend that
    cannot be reached, or that answers with a status outside 2xx, yields
    the error event alone, the latter with the text of the status
    error. *)
Theorem generate_reports_failure :
  (forall (status_code : nat) (status_text : string) (lines : list string)
          (e : exn),
      exists (evs : list StreamEvent) (msg : string),
        generate (Response status_code status_text lines (Some e)) =
          (evs ++ [Error msg])%list /\
        no_error evs) /\
  (forall e : exn, exists msg, generate (Unreachable e) = [Error msg]) /\
  (forall (status_code : nat) (status_text : string) (lines : list string)
          (failure : option exn),
      (status_code < 200 \/ 299 < status_code)%nat ->
      generate (Response status_code status_text lines failure) =
        [Error ("Error: " ++ status_text)]).
Proof.
  split; [|split].
  - intros status_code status_text lines e. cbn [generate].
    destruct (negb (is_success status_code)).
    + exists [], ("Error: " ++ status_text). split; reflexivity.
    + destruct (on_lines_failure lines e) as [e' He'].
      pose proof (on_lines_no_error lines (Some e)) as Hn.
      destruct (on_lines lines (Some e)) as [evs r]. cbn [fst snd] in *.
      subst r. destruct (on_exception_error e') as [msg Hmsg].
      exists evs, msg. rewrite Hmsg. split; [reflexivity|exact Hn].
  - intros e. cbn [generate]. destruct (on_exception_error e) as [msg ->].
    exists msg. reflexivity.
  - intros status_code status_text lines failure Hbad. cbn [generate].
    assert (is_success status_code = false) as ->; [|reflexivity].
    unfold is_success. apply andb_false_iff.
    destruct Hbad as [H|H]; [left|right]; apply Nat.leb_gt; exact H.
Qed.

End StreamMore.

(** The malformed line of the reference stream. *)
Lemma generate_skips_undecodable_line_witness :
  Stream.generate
    (Stream.Response 200 "OK"
       ([nth 0 Samples.reference_lines ""] ++
        "not json" :: [nth 2 Samples.reference_lines ""])%list None) =
  Stream.generate
    (Stream.Response 200 "OK"
       ([nth 0 Samples.reference_lines ""] ++
        [nth 2 Samples.reference_lines ""])%list None).
Proof.
  apply (generate_skips_undecodable_line 200 "OK"
           [nth 0 Samples.reference_lines ""] "not json"
           [nth 2 Samples.reference_lines ""] None).
  right. reflexivity.
Defined.

(* ===================================================================== *)
(** ** The tool handlers: traces, groups, markers, previews *)
(* ===================================================================== *)

Section TraceFacts.
Import Posix Walk Scanner Tools ToolTrace.

Variable w : world.
Variable ollama : model_client.

Lemma fs_only_app :
  forall tr1 tr2, fs_only tr1 -> fs_only tr2 -> fs_only (tr1 ++ tr2)%list.
Proof.
  unfold fs_only. intros tr1 tr2 H1 H2. rewrite forallb_app, H1, H2. reflexivity.
Qed.

Lemma todos_files_fs_only :
  forall phys rel files_ acc,
    fs_only (snd acc) ->
    fs_only (snd (fold_left (todos_file w phys rel) files_ acc)).
Proof.
  intros phys rel. induction files_ as [|file rest IH]; intros acc Hacc;
    cbn [fold_left]; [exact Hacc|].
  apply IH. unfold todos_file.
  destruct (negb (Py.mem (suffix file) todo_extensions)); [exact Hacc|].
  destruct (read_text w phys file) as [content|]; [|exact Hacc].
  cbn [snd]. apply fs_only_app; [exact Hacc|reflexivity].
Qed.

Lemma collect_todos_fs_only :
  forall workspace_path, fs_only (snd (collect_todos w workspace_path)).
Proof.
  intros workspace_path. unfold collect_todos.
  apply (for_os_walk_invariant w (todos_body w) (fun acc => fs_only (snd acc)));
    [|reflexivity].
  intros s phys rel ino dirs files_ Hs. unfold todos_body. cbn [step_state].
  apply todos_files_fs_only. exact Hs.
Qed.

Lemma analyze_files_fs_only :
  forall phys rel files_ acc,
    fs_only (snd acc) ->
    fs_only (snd (analyze_files w phys rel files_ acc)).
Proof.
  intros phys rel. induction files_ as [|file rest IH]; intros acc Hacc;
    cbn [analyze_files]; [exact Hacc|].
  destruct (negb (Py.mem (suffix file) code_extensions)); [apply IH; exact Hacc|].
  destruct (read_text w phys file) as [content|]; [|apply IH; exact Hacc].
  cbv zeta.
  match goal with
  | |- context [if ?b then ?a else _] =>
      assert (fs_only (snd a)) as Ha
        by (cbn [snd]; apply fs_only_app; [exact Hacc|reflexivity]);
      destruct b; [exact Ha|apply IH; exact Ha]
  end.
Qed.

Lemma collect_samples_fs_only :
  forall workspace_path, fs_only (snd (collect_samples w workspace_path)).
Proof.
  intros workspace_path. unfold collect_samples.
  apply (for_os_walk_invariant w (analyze_body w) (fun acc => fs_only (snd acc)));
    [|reflexivity].
  intros s phys rel ino dirs files_ Hs. unfold analyze_body.
  pose proof (analyze_files_fs_only phys rel files_ s Hs) as Ha.
  destruct (20 <=? length (fst (analyze_files w phys rel files_ s)))%nat;
    exact Ha.
Qed.

Lemma read_manifest_fs_only :
  forall workspace_path name_, fs_only (fst (read_manifest w workspace_path name_)).
Proof.
  intros workspace_path name_. unfold read_manifest.
  destruct (stat w _) as [[phys [nm [content|]|nm ino l es|nm t]]|]; reflexivity.
Qed.

Lemma model_last_call :
  forall model_name fs prompt,
    fs_only fs -> model_last model_name (fs ++ [ModelCall model_name prompt])%list.
Proof.
  intros model_name fs prompt Hfs. exists fs. split; [exact Hfs|].
  right. exists prompt. reflexivity.
Qed.

Lemma model_last_none :
  forall model_name fs, fs_only fs -> model_last model_name fs.
Proof.
  intros model_name fs Hfs. exists fs. split; [exact Hfs|left; reflexivity].
Qed.

Lemma handlers_model_last :
  forall workspace_path model_name sheet_,
    model_last model_name
      (fst (tool_summarize_workspace w ollama workspace_path model_name)) /\
    model_last model_name
      (fst (tool_list_files w ollama workspace_path model_name)) /\
    model_last model_name
      (fst (tool_scan_todos w ollama workspace_path model_name)) /\
    model_last model_name
      (fst (tool_analyze_codebase w ollama workspace_path model_name)) /\
    model_last model_name
      (fst (tool_generate_readme w ollama workspace_path model_name)) /\
    model_last model_name
      (fst (tool_summarize_csv ollama sheet_ model_name)).
Proof.
  intros workspace_path model_name sheet_.
  split; [|split; [|split; [|split; [|split]]]].
  - apply (model_last_call model_name [FsWalk workspace_path]). reflexivity.
  - apply (model_last_call model_name [FsWalk workspace_path]). reflexivity.
  - unfold tool_scan_todos.
    pose proof (collect_todos_fs_only workspace_path) as Hr.
    destruct (collect_todos w workspace_path) as [todos reads]. cbn [snd] in Hr.
    destruct todos as [|t todos]; cbn [fst run_ollama_model].
    + apply model_last_none. exact Hr.
    + apply model_last_call. exact Hr.
  - unfold tool_analyze_codebase.
    pose proof (collect_samples_fs_only workspace_path) as Hr.
    destruct (collect_samples w workspace_path) as [items reads]. cbn [snd] in Hr.
    destruct items as [|t items]; cbn [fst run_ollama_model].
    + apply model_last_none. exact Hr.
    + apply model_last_call. exact Hr.
  - unfold tool_generate_readme.
    pose proof (read_manifest_fs_only workspace_path "package.json") as H1.
    pose proof (read_manifest_fs_only workspace_path "requirements.txt") as H2.
    destruct (read_manifest w workspace_path "package.json") as [tr1 info1].
    destruct (read_manifest w workspace_path "requirements.txt") as [tr2 info2].
    cbn [fst run_ollama_model] in *.
    rewrite app_assoc. apply model_last_call.
    apply fs_only_app; [exact H1|exact H2].
  - unfold tool_summarize_csv.
    destruct sheet_ as [sh|]; [|apply model_last_none; reflexivity].
    destruct (columns sh); [apply model_last_none; reflexivity|].
    destruct (rows sh); [apply model_last_none; reflexivity|].
    apply (model_last_call model_name []). reflexivity.
Qed.

(** X12: what a tool run does to the outside.  Whatever the request, the
    trace of [run_tool] is a sequence of directory walks and file reads
    followed by at most one request to the model, which names the model
    of the request; and a request that is answered with an error status
    has touched nothing: neither the file system nor the model. *)
Theorem run_tool_calls_model_last :
  forall request : ToolRunRequest,
    model_last (model request) (fst (run_tool w ollama request)) /\
    (forall status_code detail,
        snd (run_tool w ollama request) = HTTPException status_code detail ->
        fst (run_tool w ollama request) = []).
Proof.
  intros request.
  destruct (handlers_model_last (workspacePath request) (model request)
              (activeSheetData request)) as (H1 & H2 & H3 & H4 & H5 & H6).
  unfold run_tool.
  destruct (String.eqb (model request) "");
    [split; [apply model_last_none; reflexivity|reflexivity]|].
  repeat (match goal with
          | |- context [if String.eqb ?a ?b then _ else _] =>
              destruct (String.eqb a b);
                [cbn [fst snd]; split; [assumption|discriminate]|]
          end).
  split; [apply model_last_none; reflexivity|reflexivity].
Qed.

End TraceFacts.

Section GroupFacts.
Import Tools ToolTrace.

Lemma lookup_group_add :
  forall ext file_path g ext',
    lookup_group ext' (group_add ext file_path g) =
      if String.eqb ext ext'
      then (lookup_group ext' g ++ [file_path])%list
      else lookup_group ext' g.
Proof.
  intros ext file_path g ext'.
  induction g as [|[e fs] g IH]; cbn [group_add lookup_group].
  - destruct (String.eqb ext ext'); reflexivity.
  - destruct (String.eqb_spec e ext) as [->|Hne]; cbn [lookup_group].
    + destruct (String.eqb ext ext'); reflexivity.
    + destruct (String.eqb_spec e ext') as [->|Hne'].
      * destruct (String.eqb_spec ext ext') as [->|_]; [contradiction|reflexivity].
      * exact IH.
Qed.

Lemma keys_group_add :
  forall ext file_path g,
    map fst (group_add ext file_path g) =
      if Py.mem ext (map fst g) then map fst g
      else (map fst g ++ [ext])%list.
Proof.
  intros ext file_path g. unfold Py.mem.
  induction g as [|[e fs] g IH]; cbn [group_add map fst existsb app].
  - reflexivity.
  - rewrite (String.eqb_sym ext e).
    destruct (String.eqb e ext); cbn [map fst orb]; [reflexivity|].
    rewrite IH. destruct (existsb (String.eqb ext) (map fst g)); reflexivity.
Qed.

Lemma mem_In : forall x l, Py.mem x l = true <-> In x l.
Proof.
  intros x l. unfold Py.mem. rewrite existsb_exists. split.
  - intros (y & Hy & Heq). apply String.eqb_eq in Heq. subst y. exact Hy.
  - intros H. exists x. split; [exact H|apply String.eqb_refl].
Qed.

Lemma by_extension_snoc :
  forall file_paths file_path,
    by_extension (file_paths ++ [file_path]) =
      group_add (extension_key file_path) file_path (by_extension file_paths).
Proof.
  intros file_paths file_path. unfold by_extension.
  rewrite fold_left_app. reflexivity.
Qed.

(** X13: the grouping of [tool_list_files] sorts every file path under
    exactly one key, its extension or [no-extension]: the group of a key
    holds the paths with this key and no other, in the order in which
    they came; no key occurs twice; and the keys are those of the
    paths. *)
Theorem by_extension_partitions :
  forall file_paths : list string,
    (forall ext,
        lookup_group ext (by_extension file_paths) =
          filter (fun f => String.eqb (extension_key f) ext) file_paths) /\
    NoDup (map fst (by_extension file_paths)) /\
    (forall ext,
        In ext (map fst (by_extension file_paths)) <->
        exists f, In f file_paths /\ extension_key f = ext).
Proof.
  induction file_paths as [|file_path file_paths IH] using rev_ind.
  - split; [reflexivity|]. split; [constructor|].
    intros ext. split; [intros []|intros (f & [] & _)].
  - destruct IH as (Hgroup & Hnodup & Hkeys).
    rewrite by_extension_snoc. split; [|split].
    + intros ext. rewrite lookup_group_add, filter_app, Hgroup. cbn [filter].
      destruct (String.eqb (extension_key file_path) ext);
        [reflexivity|rewrite app_nil_r; reflexivity].
    + rewrite keys_group_add.
      destruct (Py.mem (extension_key file_path)
                  (map fst (by_extension file_paths))) eqn:Hmem;
        [exact Hnodup|].
      apply NoDup_app; [exact Hnodup|constructor; [intros []|constructor]|].
      intros x Hx [<-|[]].
      apply mem_In in Hx. rewrite Hx in Hmem. discriminate.
    + intros ext. rewrite keys_group_add.
      destruct (Py.mem (extension_key file_path)
                  (map fst (by_extension file_paths))) eqn:Hmem.
      * rewrite Hkeys. split.
        -- intros (f & Hf & Hext). exists f.
           split; [apply in_or_app; left; exact Hf|exact Hext].
        -- intros (f & Hf & Hext). apply in_app_or in Hf.
           destruct Hf as [Hf|[<-|[]]]; [exists f; split; assumption|].
           apply Hkeys. rewrite <- Hext. apply mem_In. exact Hmem.
      * rewrite in_app_iff, Hkeys. split.
        -- intros [(f & Hf & Hext)|[<-|[]]].
           ++ exists f. split; [apply in_or_app; left; exact Hf|exact Hext].
           ++ exists file_path.
              split; [apply in_or_app; right; left; reflexivity|reflexivity].
        -- intros (f & Hf & Hext). apply in_app_or in Hf.
           destruct Hf as [Hf|[<-|[]]].
           ++ left. exists f. split; assumption.
           ++ right. left. exact Hext.
Qed.

End GroupFacts.

Section MarkerFacts.
Import Tools ToolTrace.

Lemma todos_of_lines_from :
  forall file lines k t,
    In t (todos_of_lines file k lines) <->
    exists i line,
      nth_error lines i = Some line /\
      has_marker line = true /\
      t = {| todo_file := file; todo_line := k + i; todo_text := Py.strip line |}.
Proof.
  intros file. induction lines as [|line rest IH]; intros k t;
    cbn [todos_of_lines].
  - split; [intros []|].
    intros (i & l & Hnth & _). destruct i; discriminate Hnth.
  - fold (has_marker line). split.
    + intros H.
      assert (t = {| todo_file := file; todo_line := k;
                     todo_text := Py.strip line |} /\ has_marker line = true
              \/ In t (todos_of_lines file (S k) rest)) as [[-> Hm]|Hin].
      { destruct (has_marker line); [|right; exact H].
        destruct H as [<-|H]; [left; split; reflexivity|right; exact H]. }
      * exists 0%nat, line. rewrite Nat.add_0_r. repeat split. exact Hm.
      * apply IH in Hin. destruct Hin as (i & l & Hnth & Hm & ->).
        exists (S i), l. rewrite Nat.add_succ_r. repeat split; assumption.
    + intros (i & l & Hnth & Hm & ->). destruct i as [|i].
      * cbn [nth_error] in Hnth. injection Hnth as ->. rewrite Hm.
        left. rewrite Nat.add_0_r. reflexivity.
      * cbn [nth_error] in Hnth.
        assert (In {| todo_file := file; todo_line := k + S i;
                      todo_text := Py.strip l |}
                  (todos_of_lines file (S k) rest)) as Hin.
        { apply IH. exists i, l. rewrite Nat.add_succ_r. repeat split; assumption. }
        destruct (has_marker line); [right; exact Hin|exact Hin].
Qed.

(** X14: the marker scan of one file.  Its entries are exactly the lines
    that contain [todo] or [fixme] in any mix of upper and lower case:
    each with the name of the file, the position of the line counted
    from one, and the line without the blanks at its ends. *)
Theorem todos_of_lines_marks :
  forall (file : string) (lines : list string) (t : todo),
    In t (todos_of_lines file 1 lines) <->
    exists (i : nat) (line : string),
      nth_error lines i = Some line /\
      has_marker line = true /\
      t = {| todo_file := file; todo_line := S i; todo_text := Py.strip line |}.
Proof.
  intros file lines t. apply (todos_of_lines_from file lines 1 t).
Qed.

End MarkerFacts.

Section PreviewMore.
Import Tools.

Lemma take_all :
  forall n s, (String.length s <= n)%nat -> Py.take n s = s.
Proof.
  unfold Py.take. induction n as [|n IH]; intros s Hlen.
  - destruct s; [reflexivity|cbn in Hlen; lia].
  - destruct s as [|c s]; [reflexivity|].
    cbn [String.substring]. rewrite IH; [reflexivity|].
    cbn in Hlen. lia.
Qed.

Lemma take_prefix :
  forall n s, exists rest, s = Py.take n s ++ rest.
Proof.
  unfold Py.take. induction n as [|n IH]; intros s.
  - exists s. destruct s; reflexivity.
  - destruct s as [|c s]; [exists ""; reflexivity|].
    destruct (IH s) as [rest Hrest]. exists rest.
    cbn [String.substring append]. rewrite <- Hrest. reflexivity.
Qed.

Lemma split_aux_cons :
  forall sep s cur, exists piece pieces, Py.split_aux sep cur s = piece :: pieces.
Proof.
  intros sep. induction s as [|c s IH]; intros cur; cbn [Py.split_aux].
  - eexists; eexists; reflexivity.
  - destruct (Ascii.eqb c sep); [eexists; eexists; reflexivity|apply IH].
Qed.

Lemma concat_cons :
  forall sep x l,
    l <> [] -> String.concat sep (x :: l) = x ++ sep ++ String.concat sep l.
Proof.
  intros sep x l Hl. destruct l; [contradiction|reflexivity].
Qed.

Lemma app_string_assoc :
  forall a b c : string, (a ++ b) ++ c = a ++ b ++ c.
Proof.
  induction a as [|x a IH]; intros b c; cbn [append]; [reflexivity|].
  rewrite IH. reflexivity.
Qed.

Lemma join_split_aux :
  forall sep s cur,
    String.concat (String sep "") (Py.split_aux sep cur s) = cur ++ s.
Proof.
  intros sep. induction s as [|c s IH]; intros cur; cbn [Py.split_aux].
  - cbn [String.concat]. induction cur as [|x cur IHc]; cbn [append];
      [reflexivity|rewrite <- IHc at 1; reflexivity].
  - destruct (Ascii.eqb_spec c sep) as [->|Hne].
    + rewrite concat_cons.
      * rewrite IH. reflexivity.
      * destruct (split_aux_cons sep s "") as (piece & pieces & ->).
        discriminate.
    + rewrite IH, app_string_assoc. reflexivity.
Qed.

Lemma length_split_aux :
  forall sep s cur,
    length (Py.split_aux sep cur s) = S (Py.count_char sep s).
Proof.
  intros sep. induction s as [|c s IH]; intros cur;
    cbn [Py.split_aux Py.count_char]; [reflexivity|].
  destruct (Ascii.eqb c sep); cbn [length]; rewrite IH; reflexivity.
Qed.

Lemma firstn_lines_prefix :
  forall sep s n cur,
    exists rest,
      cur ++ s =
        String.concat (String sep "") (firstn n (Py.split_aux sep cur s)) ++ rest.
Proof.
  intros sep. induction s as [|c s IH]; intros n cur; cbn [Py.split_aux].
  - destruct n; cbn [firstn String.concat].
    + exists (cur ++ ""). reflexivity.
    + exists "". destruct n; cbn [firstn];
        induction cur as [|x cur IHc]; cbn [append] in *; try reflexivity;
        rewrite <- IHc; reflexivity.
  - destruct (Ascii.eqb_spec c sep) as [->|Hne].
    + destruct n as [|n]; cbn [firstn].
      * exists (cur ++ String sep s). reflexivity.
      * destruct (IH n "") as [rest Hrest]. cbn [append] in Hrest.
        destruct (firstn n (Py.split_aux sep "" s)) as [|y l] eqn:Hl.
        -- cbn [String.concat]. exists (String sep s). reflexivity.
        -- rewrite concat_cons by discriminate.
           exists rest. rewrite !app_string_assoc. cbn [append].
           rewrite <- Hrest. reflexivity.
    + destruct (IH n (cur ++ String c "")) as [rest Hrest].
      exists rest. rewrite <- Hrest, app_string_assoc. reflexivity.
Qed.

(** X15: the preview that [tool_analyze_codebase] keeps of a file is a
    beginning of its text, and it is the whole text exactly when the
    text has at most 2000 characters and at most 50 lines. *)
Theorem preview_of_prefix :
  forall content : string,
    (exists rest, content = preview_of content ++ rest) /\
    (preview_of content = content <-> preview_ok content).
Proof.
  intros content. split.
  - unfold preview_of.
    destruct (firstn_lines_prefix (ascii_of_nat 10) content 50 "")
      as [rest1 Hrest1].
    cbn [append] in Hrest1.
    destruct (take_prefix 2000
                (Py.join nl (firstn 50 (Py.split (ascii_of_nat 10) content))))
      as [rest2 Hrest2].
    exists (rest2 ++ rest1). rewrite <- app_string_assoc.
    rewrite <- Hrest2. exact Hrest1.
  - split.
    + intros Heq. rewrite <- Heq. apply preview_of_ok.
    + intros [Hlen Hlines]. unfold preview_of, Py.split.
      rewrite firstn_all2.
      * unfold Py.join, nl. rewrite join_split_aux. cbn [append].
        apply take_all. exact Hlen.
      * rewrite length_split_aux. lia.
Qed.

End PreviewMore.

(* ===================================================================== *)
(** ** The chat sessions *)
(* ===================================================================== *)

Section ChatFacts.
Import Main Chats.

Variable dumps : Json.value -> string.
Variable decode_error : string -> string.

Lemma append_same_suffix :
  forall (sfx a b : string), a ++ sfx = b ++ sfx -> a = b.
Proof.
  intros sfx.
  assert (forall a, String.length (a ++ sfx) = String.length a + String.length sfx)
    as Hlen.
  { induction a as [|c a IH]; cbn [append String.length]; [reflexivity|].
    rewrite IH. reflexivity. }
  induction a as [|c a IH]; intros [|c' b] H; cbn [append] in H.
  - reflexivity.
  - apply (f_equal String.length) in H. cbn [String.length] in H.
    rewrite Hlen in H. lia.
  - apply (f_equal String.length) in H. cbn [String.length] in H.
    rewrite Hlen in H. lia.
  - injection H as -> H. rewrite (IH b H). reflexivity.
Qed.

Lemma chat_file_name_other :
  forall a b, a <> b -> String.eqb (chat_file_name a) (chat_file_name b) = false.
Proof.
  intros a b Hne. apply String.eqb_neq. intros H. apply Hne.
  exact (append_same_suffix ".json" a b H).
Qed.

Lemma validate_chat_id_same :
  forall chat_id safe_chat_id,
    validate_chat_id chat_id = Ok safe_chat_id -> safe_chat_id = chat_id.
Proof.
  intros chat_id safe_chat_id H. unfold validate_chat_id in H.
  destruct (negb (chat_id_matches chat_id)); [discriminate|].
  injection H as <-. reflexivity.
Qed.

Lemma validate_chat_id_cases :
  forall chat_id,
    validate_chat_id chat_id = Ok chat_id \/
    validate_chat_id chat_id = HTTPException 400 "Invalid chat ID format".
Proof.
  intros chat_id. unfold validate_chat_id.
  destruct (negb (chat_id_matches chat_id)); [right|left]; reflexivity.
Qed.

(** Reading the chat [other] from a store whose file of another chat was
    written or removed. *)
Lemma get_chat_write_other :
  forall s chat_id content other,
    other <> chat_id ->
    get_chat decode_error (write s (chat_file_name chat_id) content) other =
    get_chat decode_error s other.
Proof.
  intros s chat_id content other Hne. unfold get_chat.
  destruct (validate_chat_id_cases other) as [-> | ->]; [|reflexivity].
  unfold write. rewrite (chat_file_name_other other chat_id Hne). reflexivity.
Qed.

Lemma get_chat_unlink_other :
  forall s chat_id other,
    other <> chat_id ->
    get_chat decode_error (unlink s (chat_file_name chat_id)) other =
    get_chat decode_error s other.
Proof.
  intros s chat_id other Hne. unfold get_chat.
  destruct (validate_chat_id_cases other) as [-> | ->]; [|reflexivity].
  unfold unlink. rewrite (chat_file_name_other other chat_id Hne). reflexivity.
Qed.

(** What a successful [save_chat] has done. *)
Lemma save_chat_ok :
  forall s now1 now2 request s' r,
    save_chat dumps decode_error s now1 now2 request = (s', Ok r) ->
    validate_chat_id (sc_id request) = Ok (sc_id request) /\
    r = {| sr_success := true; sr_id := sc_id request;
           sr_createdAt := sr_createdAt r;
           sr_updatedAt := Json.Number (Py.str_of_nat now2) |} /\
    s' = write s (chat_file_name (sc_id request))
           (dumps (chat_data (sc_id request) (sc_title request)
                     (sr_createdAt r) (sr_updatedAt r) (sc_messages request))) /\
    (s (chat_file_name (sc_id request)) = None ->
     sr_createdAt r = Json.Number (Py.str_of_nat now1)).
Proof.
  intros s now1 now2 request s' r H. unfold save_chat in H.
  destruct (validate_chat_id_cases (sc_id request)) as [Hv|Hv];
    rewrite Hv in H; [|discriminate].
  split; [exact Hv|].
  destruct (s (chat_file_name (sc_id request))) as [content|].
  - destruct (Json.loads content) as [[| | | | |existing_data]|];
      try discriminate.
    injection H as <- <-. cbn [sr_createdAt sr_updatedAt].
    repeat split. discriminate.
  - injection H as <- <-. cbn [sr_createdAt sr_updatedAt].
    repeat split.
Qed.

(** X19: a chat that [save_chat] has stored is what [get_chat] returns
    for its identifier - the identifier and the title of the request,
    the two times of the answer, the messages of the request - provided
    the stored text decodes to the document it was made from; the
    answer repeats the identifier, its [updatedAt] is the second reading
    of the clock; and every other chat reads as before. *)
Theorem save_chat_then_get_chat :
  forall (s s' : store) (now1 now2 : nat) (request : SaveChatRequest)
         (r : SaveChatResponse),
    save_chat dumps decode_error s now1 now2 request = (s', Ok r) ->
    Json.loads
      (dumps (chat_data (sc_id request) (sc_title request) (sr_createdAt r)
                (sr_updatedAt r) (sc_messages request))) =
      Some (chat_data (sc_id request) (sc_title request) (sr_createdAt r)
              (sr_updatedAt r) (sc_messages request)) ->
    get_chat decode_error s' (sc_id request) =
      Ok (chat_data (sc_id request) (sc_title request) (sr_createdAt r)
            (sr_updatedAt r) (sc_messages request)) /\
    sr_id r = sc_id request /\
    sr_updatedAt r = Json.Number (Py.str_of_nat now2) /\
    (forall other, other <> sc_id request ->
       get_chat decode_error s' other = get_chat decode_error s other).
Proof.
  intros s s' now1 now2 request r H Hround.
  destruct (save_chat_ok s now1 now2 request s' r H) as (Hv & Hr & -> & _).
  split; [|split; [|split]].
  - unfold get_chat. rewrite Hv. unfold write. rewrite String.eqb_refl, Hround.
    reflexivity.
  - rewrite Hr. reflexivity.
  - rewrite Hr. reflexivity.
  - intros other Hne. apply get_chat_write_other. exact Hne.
Qed.

(** X20: the creation time of a chat is the first reading of the clock
    in the request that created it, and the requests that save it again
    keep it: the second save of a chat answers with the [createdAt] of
    the first and with a new [updatedAt] - provided the text stored
    first decodes to the document it was made from. *)
Theorem save_chat_keeps_createdAt :
  forall (s : store) (now1 now2 now3 now4 : nat)
         (first second : SaveChatRequest),
    validate_chat_id (sc_id first) = Ok (sc_id first) ->
    s (chat_file_name (sc_id first)) = None ->
    sc_id second = sc_id first ->
    Json.loads
      (dumps (chat_data (sc_id first) (sc_title first)
                (Json.Number (Py.str_of_nat now1))
                (Json.Number (Py.str_of_nat now2)) (sc_messages first))) =
      Some (chat_data (sc_id first) (sc_title first)
              (Json.Number (Py.str_of_nat now1))
              (Json.Number (Py.str_of_nat now2)) (sc_messages first)) ->
    snd (save_chat dumps decode_error s now1 now2 first) =
      Ok {| sr_success := true; sr_id := sc_id first;
            sr_createdAt := Json.Number (Py.str_of_nat now1);
            sr_updatedAt := Json.Number (Py.str_of_nat now2) |} /\
    snd (save_chat dumps decode_error
           (fst (save_chat dumps decode_error s now1 now2 first))
           now3 now4 second) =
      Ok {| sr_success := true; sr_id := sc_id first;
            sr_createdAt := Json.Number (Py.str_of_nat now1);
            sr_updatedAt := Json.Number (Py.str_of_nat now4) |}.
Proof.
  intros s now1 now2 now3 now4 first second Hv Hnew Hid Hround.
  assert (save_chat dumps decode_error s now1 now2 first =
            (write s (chat_file_name (sc_id first))
               (dumps (chat_data (sc_id first) (sc_title first)
                         (Json.Number (Py.str_of_nat now1))
                         (Json.Number (Py.str_of_nat now2))
                         (sc_messages first))),
             Ok {| sr_success := true; sr_id := sc_id first;
                   sr_createdAt := Json.Number (Py.str_of_nat now1);
                   sr_updatedAt := Json.Number (Py.str_of_nat now2) |}))
    as Hfirst.
  { unfold save_chat. rewrite Hv, Hnew. reflexivity. }
  rewrite Hfirst. cbn [fst snd]. split; [reflexivity|].
  unfold save_chat. rewrite Hid, Hv.
  unfold write at 1. rewrite String.eqb_refl, Hround.
  cbn [chat_data Json.get String.eqb Ascii.eqb Bool.eqb snd].
  reflexivity.
Qed.

(** X21: a chat that [delete_chat] has removed is gone: [get_chat]
    answers 404 for it, and so does a second [delete_chat], which
    changes nothing; every other chat reads as before. *)
Theorem delete_chat_removes :
  forall (s s' : store) (chat_id : string),
    delete_chat s chat_id = (s', Ok true) ->
    get_chat decode_error s' chat_id = HTTPException 404 "Chat not found" /\
    delete_chat s' chat_id = (s', HTTPException 404 "Chat not found") /\
    (forall other, other <> chat_id ->
       get_chat decode_error s' other = get_chat decode_error s other).
Proof.
  intros s s' chat_id H. unfold delete_chat in H.
  destruct (validate_chat_id_cases chat_id) as [Hv|Hv]; rewrite Hv in H;
    [|discriminate].
  destruct (s (chat_file_name chat_id)) as [content|]; [|discriminate].
  injection H as <-.
  split; [|split].
  - unfold get_chat. rewrite Hv. unfold unlink. rewrite String.eqb_refl.
    reflexivity.
  - unfold delete_chat. rewrite Hv. unfold unlink at 1.
    rewrite String.eqb_refl. reflexivity.
  - intros other Hne. apply get_chat_unlink_other. exact Hne.
Qed.

End ChatFacts.

(** The chat of the storage test, saved to an empty directory. *)
Lemma save_chat_then_get_chat_witness :
  Chats.get_chat MoreSamples.sample_decode_error MoreSamples.saved_store
    "chat-123_abc" =
    Ok (Chats.chat_data "chat-123_abc" "ok" (Json.Number "10")
          (Json.Number "11") []) /\
  "chat-123_abc" = "chat-123_abc" /\
  Json.Number "11" = Json.Number "11" /\
  (forall other, other <> "chat-123_abc" ->
     Chats.get_chat MoreSamples.sample_decode_error MoreSamples.saved_store
       other =
     Chats.get_chat MoreSamples.sample_decode_error MoreSamples.empty_store
       other).
Proof.
  apply (save_chat_then_get_chat MoreSamples.sample_dumps
           MoreSamples.sample_decode_error MoreSamples.empty_store
           MoreSamples.saved_store 10 11 MoreSamples.first_request
           {| Chats.sr_success := true; Chats.sr_id := "chat-123_abc";
              Chats.sr_createdAt := Json.Number "10";
              Chats.sr_updatedAt := Json.Number "11" |}).
  - reflexivity.
  - reflexivity.
Defined.

(** The chat is saved, then saved again with a message. *)
Lemma save_chat_keeps_createdAt_witness :
  snd (Chats.save_chat MoreSamples.sample_dumps MoreSamples.sample_decode_error
         MoreSamples.empty_store 10 11 MoreSamples.first_request) =
    Ok {| Chats.sr_success := true; Chats.sr_id := "chat-123_abc";
          Chats.sr_createdAt := Json.Number "10";
          Chats.sr_updatedAt := Json.Number "11" |} /\
  snd (Chats.save_chat MoreSamples.sample_dumps MoreSamples.sample_decode_error
         MoreSamples.saved_store 20 21 MoreSamples.second_request) =
    Ok {| Chats.sr_success := true; Chats.sr_id := "chat-123_abc";
          Chats.sr_createdAt := Json.Number "10";
          Chats.sr_updatedAt := Json.Number "21" |}.
Proof.
  apply (save_chat_keeps_createdAt MoreSamples.sample_dumps
           MoreSamples.sample_decode_error MoreSamples.empty_store 10 11 20 21
           MoreSamples.first_request MoreSamples.second_request).
  - reflexivity.
  - reflexivity.
  - reflexivity.
  - reflexivity.
Defined.

(** The chat is saved and removed. *)
Lemma delete_chat_removes_witness :
  Chats.get_chat MoreSamples.sample_decode_error
    (Chats.unlink MoreSamples.saved_store "chat-123_abc.json")
    "chat-123_abc" = HTTPException 404 "Chat not found" /\
  Chats.delete_chat
    (Chats.unlink MoreSamples.saved_store "chat-123_abc.json")
    "chat-123_abc" =
    (Chats.unlink MoreSamples.saved_store "chat-123_abc.json",
     HTTPException 404 "Chat not found") /\
  (forall other, other <> "chat-123_abc" ->
     Chats.get_chat MoreSamples.sample_decode_error
       (Chats.unlink MoreSamples.saved_store "chat-123_abc.json") other =
     Chats.get_chat MoreSamples.sample_decode_error MoreSamples.saved_store
       other).
Proof.
  apply (delete_chat_removes MoreSamples.sample_decode_error
           MoreSamples.saved_store
           (Chats.unlink MoreSamples.saved_store "chat-123_abc.json")
           "chat-123_abc").
  reflexivity.
Defined.

